(** * FOURBYTE server: room registry, rate limiter, validator, event router

    A shallow embedding of the server core of the repository:
    - [server/src/rateLimiter.js]  (class [RateLimiter])
    - [server/src/roomManager.js]  (class [RoomManager])
    - [server/src/socket.js]       ([validateMessage] and the socket handlers)
    - [server/src/config.js]       (the configuration constants)

    JavaScript strings are sequences of UTF-16 code units; they are modelled
    as [list N].  A JavaScript [Map] keyed by strings is a [gmap]: the
    iteration of [destroyRoom] over a map performs deletions whose result
    does not depend on the iteration order, and [getStats], which lists the
    rooms in that order, takes it as an input.
    Objects that the source mutates in place ([client.count++],
    [room.users.delete], [roomUser.name = ...]) are written back into the map
    that holds them; every room object is stored under exactly one key of
    [rooms] (a fresh object literal in [createRoom]) and every entry of
    [userSockets] is a fresh object ([{ roomId, ...userInfo }]), so no two
    map slots alias each other.

    [Date.now()] and [Math.random()] are inputs of the functions that call
    them.  A draw of [Math.random()] is given by 53 random bits [k] and stands
    for the double [k / 2^53]; the product and the sum that are computed
    from it are rounded as doubles are ([round53]). *)

From Stdlib Require Import ZArith NArith List String Ascii Lia.
From stdpp Require Import base option list gmap.

Local Open Scope Z_scope.

(** ** JavaScript values and strings *)

Module JS.

Abbreviation jsstring := (list N).

(** A string literal of the source (ASCII only). *)
Definition lit (s : string) : jsstring :=
  map N_of_ascii (list_ascii_of_string s).

(** [s.length] *)
Definition length (s : jsstring) : Z := Z.of_nat (List.length s).

(** WhiteSpace and LineTerminator code units, as stripped by
    [String.prototype.trim]. *)
Definition is_whitespace (c : N) : bool :=
  ((9 <=? c) && (c <=? 13) || (c =? 32) || (c =? 160) || (c =? 5760)
   || (8192 <=? c) && (c <=? 8202) || (c =? 8232) || (c =? 8233)
   || (c =? 8239) || (c =? 8287) || (c =? 12288) || (c =? 65279))%N.

Fixpoint trimStart (s : jsstring) : jsstring :=
  match s with
  | c :: s' => if is_whitespace c then trimStart s' else s
  | [] => []
  end.

Definition trimEnd (s : jsstring) : jsstring := rev (trimStart (rev s)).

(** [s.trim()] *)
Definition trim (s : jsstring) : jsstring := trimEnd (trimStart s).

(** [s.substring(0, n)] *)
Definition substring0 (n : Z) (s : jsstring) : jsstring :=
  take (Z.to_nat n) s.

(** [s.replace(/[class]/g, '')] for a character class [cls]. *)
Definition remove_class (cls : N → bool) (s : jsstring) : jsstring :=
  List.filter (λ c, negb (cls c)) s.

(** [s.replace(/c/g, r)] for a single literal character [c]. *)
Definition replace_char (c : N) (r : jsstring) (s : jsstring) : jsstring :=
  flat_map (λ x, if (x =? c)%N then r else [x]) s.

(** [/^\d{4}$/.test(s)] *)
Definition is_digit (c : N) : bool := ((48 <=? c) && (c <=? 57))%N.

Definition test_4digits (s : jsstring) : bool :=
  (List.length s =? 4)%nat && forallb is_digit s.

(** [n.toString()] for an integer [n] (decimal digits, most significant
    first).  At most [log2 n + 1] digits are produced. *)
Fixpoint digits (fuel : nat) (n : Z) (acc : jsstring) : jsstring :=
  let acc' := Z.to_N (48 + n mod 10) :: acc in
  match fuel with
  | O => acc'
  | S fuel' => if n / 10 =? 0 then acc' else digits fuel' (n / 10) acc'
  end.

Definition Number_toString (n : Z) : jsstring :=
  if n <? 0 then 45%N :: digits (Z.to_nat (Z.log2 (- n))) (- n) []
  else digits (Z.to_nat (Z.log2 n)) n [].

(** Rounding to the nearest double, ties to even, of a number that is not
    negative and is given by its numerator [n] over a power of two (the
    same power for the result): a double has 53 significant bits, so that a
    numerator below [2^53] is exact and a longer one loses its low
    [Z.log2 n - 52] bits.  The numbers rounded below lie between [2^-53]
    and [2^14], far from the subnormal and from the infinite range. *)
Definition round53 (n : Z) : Z :=
  if n <? 2 ^ 53 then n
  else
    let shift := Z.log2 n - 52 in
    let q := n / 2 ^ shift in
    let r := n mod 2 ^ shift in
    let half := 2 ^ (shift - 1) in
    (if (half <? r) || ((r =? half) && Z.odd q) then q + 1 else q)
    * 2 ^ shift.

(** [Math.floor(1000 + Math.random() * 9000)], the draw being the double
    [k / 2^53] for the 53 low bits [k] of [bits].  The product and the sum
    are doubles, each rounded from the exact result; all numbers are kept
    as numerators over [2^53]. *)
Definition random_4digit (bits : Z) : Z :=
  let random := bits mod 2 ^ 53 in
  let product := round53 (random * 9000) in
  let sum := round53 (1000 * 2 ^ 53 + product) in
  sum / 2 ^ 53.

(** The values a client can send, and the values the handlers test with
    [typeof] and for truthiness. *)
#[warnings="-register-all"]
Inductive value :=
| VUndefined
| VNull
| VBool (b : bool)
| VNumber (n : Z)
| VString (s : jsstring)
| VObject (fields : list (string * value)).

Definition truthy (v : value) : bool :=
  match v with
  | VUndefined | VNull => false
  | VBool b => b
  | VNumber n => negb (n =? 0)
  | VString s => negb (List.length s =? 0)%nat
  | VObject _ => true
  end.

Definition typeof (v : value) : string :=
  match v with
  | VUndefined => "undefined"
  | VNull => "object"
  | VBool _ => "boolean"
  | VNumber _ => "number"
  | VString _ => "string"
  | VObject _ => "object"
  end.

(** [v.field] on a value that is not null or undefined. *)
Fixpoint assoc (field : string) (fields : list (string * value)) : value :=
  match fields with
  | [] => VUndefined
  | (k, x) :: rest => if String.eqb k field then x else assoc field rest
  end.

Definition get (field : string) (v : value) : value :=
  match v with
  | VObject fields => assoc field fields
  | _ => VUndefined
  end.

(** A thrown [Error] carries its [message]. *)
Inductive result (A : Type) :=
| Ok (a : A)
| Throw (message : jsstring).
Arguments Ok {A} a.
Arguments Throw {A} message.

End JS.

Import JS.

(** ** Configuration ([config.js]) *)

Record Config := {
  EVENT_RATE_LIMIT : Z;
  EVENT_RATE_WINDOW_MS : Z;
  RATE_LIMIT_MAX_MESSAGES : Z;
  RATE_LIMIT_WINDOW_MS : Z;
  MESSAGE_MAX_LENGTH : Z;
  MESSAGE_HISTORY_LIMIT : Z;
  ROOM_MAX_USERS : Z;
  ROOM_CLEANUP_DELAY_MS : Z;
  ROOM_MAX_ROOMS : Z
}.

(** The values taken when no environment variable is set. *)
Definition default_config : Config := {|
  EVENT_RATE_LIMIT := 10;
  EVENT_RATE_WINDOW_MS := 60000;
  RATE_LIMIT_MAX_MESSAGES := 10;
  RATE_LIMIT_WINDOW_MS := 10000;
  MESSAGE_MAX_LENGTH := 1000;
  MESSAGE_HISTORY_LIMIT := 100;
  ROOM_MAX_USERS := 50;
  ROOM_CLEANUP_DELAY_MS := 0;
  ROOM_MAX_ROOMS := 1000
|}.

Definition MESSAGE_MIN_LENGTH : Z := 1.
Definition USERNAME_MAX_LENGTH : Z := 20.
Definition USERNAME_MIN_LENGTH : Z := 1.
Definition RATE_LIMIT_COOLDOWN_MESSAGE : jsstring :=
  lit "Slow down! You're sending messages too fast.".

(** ** The rate limiter ([rateLimiter.js]) *)

Module RateLimiter.

Record client := { count : Z; windowStart : Z }.

Record t := {
  maxRequests : Z;
  windowMs : Z;
  clients : gmap jsstring client
}.

Record verdict := { allowed : bool; remaining : Z; resetIn : Z }.

(** [new RateLimiter(maxRequests, windowMs)] *)
Definition new (maxRequests windowMs : Z) : t :=
  {| maxRequests := maxRequests; windowMs := windowMs; clients := ∅ |}.

Definition set_clients (rl : t) (cs : gmap jsstring client) : t :=
  {| maxRequests := maxRequests rl; windowMs := windowMs rl; clients := cs |}.

(** [check(identifier)], with [now = Date.now()]. *)
Definition check (now : Z) (identifier : jsstring) (rl : t) : verdict * t :=
  let fresh := {| count := 0; windowStart := now |} in
  let '(client, rl) :=
    match clients rl !! identifier with
    | Some client =>
        if now - windowStart client >=? windowMs rl
        then (fresh, set_clients rl (<[identifier := fresh]> (clients rl)))
        else (client, rl)
    | None => (fresh, set_clients rl (<[identifier := fresh]> (clients rl)))
    end in
  if count client <? maxRequests rl then
    let client := {| count := count client + 1;
                     windowStart := windowStart client |} in
    ({| allowed := true;
        remaining := maxRequests rl - count client;
        resetIn := windowMs rl - (now - windowStart client) |},
     set_clients rl (<[identifier := client]> (clients rl)))
  else
    ({| allowed := false;
        remaining := 0;
        resetIn := windowMs rl - (now - windowStart client) |},
     rl).

(** [remove(identifier)] *)
Definition remove (identifier : jsstring) (rl : t) : t :=
  set_clients rl (delete identifier (clients rl)).

(** [cleanup()], with [now = Date.now()]. *)
Definition cleanup (now : Z) (rl : t) : t :=
  let staleThreshold := windowMs rl * 2 in
  set_clients rl
    (filter (λ kv, ¬ (now - windowStart (snd kv) > staleThreshold))
            (clients rl)).

(** Successive [check] calls for one identifier at the given times;
    the verdicts are returned in call order. *)
Fixpoint checks (times : list Z) (identifier : jsstring) (rl : t)
  : list verdict * t :=
  match times with
  | [] => ([], rl)
  | now :: times' =>
      let '(v, rl) := check now identifier rl in
      let '(vs, rl) := checks times' identifier rl in
      (v :: vs, rl)
  end.

End RateLimiter.

(** ** Rooms, participants and messages ([roomManager.js], [socket.js]) *)

Module UserInfo.
(** [{ id, name }], the value stored in [room.users]. *)
Record t := { id : jsstring; name : jsstring }.
End UserInfo.

Module SocketEntry.
(** [{ roomId, id, name }], the value stored in [userSockets]. *)
Record t := { roomId : jsstring; id : jsstring; name : jsstring }.
End SocketEntry.

Module Message.
Inductive kind := user | system.
Record t := {
  id : jsstring;
  type : kind;
  senderId : jsstring;
  senderName : jsstring;
  content : jsstring;
  timestamp : Z
}.
End Message.

Module Room.
Record t := {
  id : jsstring;
  users : gmap jsstring UserInfo.t;
  createdAt : Z;
  messages : list Message.t
}.

Definition set_users (room : t) (us : gmap jsstring UserInfo.t) : t :=
  {| id := id room; users := us;
     createdAt := createdAt room; messages := messages room |}.

Definition set_messages (room : t) (ms : list Message.t) : t :=
  {| id := id room; users := users room;
     createdAt := createdAt room; messages := ms |}.

(** [room.users.size] *)
Definition userCount (room : t) : Z := Z.of_nat (size (users room)).
End Room.

(** ** The room manager ([roomManager.js]) *)

Module RoomManager.

(** [cleanupTimers] maps a room to the timeout that is pending for it.
    A timeout is cleared whenever its entry is deleted and deletes its own
    entry when it fires, so the keys of the map are exactly the rooms with
    a pending timeout; the set of these keys is kept. *)
Record t := {
  rooms : gmap jsstring Room.t;
  userSockets : gmap jsstring SocketEntry.t;
  cleanupTimers : gset jsstring
}.

(** [new RoomManager()] *)
Definition new : t :=
  {| rooms := ∅; userSockets := ∅; cleanupTimers := ∅ |}.

Definition set_rooms (s : t) (rs : gmap jsstring Room.t) : t :=
  {| rooms := rs; userSockets := userSockets s;
     cleanupTimers := cleanupTimers s |}.

Definition set_userSockets (s : t) (us : gmap jsstring SocketEntry.t) : t :=
  {| rooms := rooms s; userSockets := us;
     cleanupTimers := cleanupTimers s |}.

Definition set_cleanupTimers (s : t) (ts : gset jsstring) : t :=
  {| rooms := rooms s; userSockets := userSockets s; cleanupTimers := ts |}.

Definition maxAttempts : Z := 100.

Definition err_code_space : jsstring :=
  lit "Unable to generate unique room code. Server at capacity.".
Definition err_capacity : jsstring :=
  lit "Server at capacity. Please try again later.".
Definition err_not_found : jsstring := lit "Room not found".
Definition err_full : jsstring := lit "Room is full".

(** The [do ... while] loop of [generateRoomCode]; [rnd i] are the bits
    of the [i]-th call of [Math.random()].  [None] stands for a loop that
    has not finished within [fuel] iterations. *)
Fixpoint generateRoomCode_loop (fuel : nat) (attempts : Z)
    (rnd : nat → Z) (i : nat) (rooms : gmap jsstring Room.t)
  : option (result jsstring) :=
  match fuel with
  | O => None
  | S fuel' =>
      let code := Number_toString (random_4digit (rnd i)) in
      let attempts := attempts + 1 in
      if attempts >=? maxAttempts then Some (Throw err_code_space)
      else
        match rooms !! code with
        | Some _ => generateRoomCode_loop fuel' attempts rnd (S i) rooms
        | None => Some (Ok code)
        end
  end.

(** [generateRoomCode()]: the loop leaves within [maxAttempts] iterations
    whatever the draws are (lemma [generateRoomCode_loop_spec] below), so
    this much fuel always suffices and the [None] case does not arise. *)
Definition generateRoomCode (rnd : nat → Z) (rooms : gmap jsstring Room.t)
  : result jsstring :=
  match generateRoomCode_loop (Z.to_nat maxAttempts) 0 rnd 0 rooms with
  | Some r => r
  | None => Throw err_code_space
  end.

(** [generateUserName()] *)
Definition generateUserName (bits : Z) : jsstring :=
  lit "User_" ++ Number_toString (random_4digit bits).

(** The class [[\x00-\x1F\x7F]]. *)
Definition is_control (c : N) : bool := ((c <=? 31) || (c =? 127))%N.

(** [sanitizeUserName(name)]; [None] is [null]. *)
Definition sanitizeUserName (name : value) : option jsstring :=
  match name with
  | VString s =>
      if negb (truthy name) then None
      else
        let sanitized := substring0 USERNAME_MAX_LENGTH (trim s) in
        if JS.length sanitized <? USERNAME_MIN_LENGTH then None
        else Some (remove_class is_control sanitized)
  | _ => None
  end.

(** [x || y] where [x] is a string or [null]. *)
Definition or_else (x : option jsstring) (y : jsstring) : jsstring :=
  match x with
  | Some s => if truthy (VString s) then s else y
  | None => y
  end.

Section WithConfig.
Context (cfg : Config).

(** [createRoom()], with [now = new Date()]. *)
Definition createRoom (now : Z) (rnd : nat → Z) (s : t)
  : result Room.t * t :=
  if (ROOM_MAX_ROOMS cfg >? 0)
     && (Z.of_nat (size (rooms s)) >=? ROOM_MAX_ROOMS cfg)
  then (Throw err_capacity, s)
  else
    match generateRoomCode rnd (rooms s) with
    | Throw m => (Throw m, s)
    | Ok roomId =>
        let room := {| Room.id := roomId; Room.users := ∅;
                       Room.createdAt := now; Room.messages := [] |} in
        (Ok room, set_rooms s (<[roomId := room]> (rooms s)))
    end.

(** [roomExists(roomId)] *)
Definition roomExists (roomId : jsstring) (s : t) : bool :=
  bool_decide (is_Some (rooms s !! roomId)).

(** [getRoom(roomId)] *)
Definition getRoom (roomId : jsstring) (s : t) : option Room.t :=
  rooms s !! roomId.

(** [cancelRoomCleanup(roomId)] *)
Definition cancelRoomCleanup (roomId : jsstring) (s : t) : t :=
  if bool_decide (roomId ∈ cleanupTimers s)
  then set_cleanupTimers s (cleanupTimers s ∖ {[roomId]})
  else s.

(** [destroyRoom(roomId)] *)
Definition destroyRoom (roomId : jsstring) (s : t) : t :=
  match rooms s !! roomId with
  | None => s
  | Some room =>
      let s := set_userSockets s
                 (foldr delete (userSockets s)
                        (map_to_list (Room.users room)).*1) in
      let s := set_rooms s (delete roomId (rooms s)) in
      cancelRoomCleanup roomId s
  end.

(** [scheduleRoomCleanup(roomId)] *)
Definition scheduleRoomCleanup (roomId : jsstring) (s : t) : t :=
  let s := cancelRoomCleanup roomId s in
  if ROOM_CLEANUP_DELAY_MS cfg <=? 0 then destroyRoom roomId s
  else set_cleanupTimers s ({[roomId]} ∪ cleanupTimers s).

(** The callback given to [setTimeout] in [scheduleRoomCleanup]; it
    runs only while its timeout is still pending. *)
Definition cleanupTimerFired (roomId : jsstring) (s : t) : t :=
  if bool_decide (roomId ∈ cleanupTimers s) then
    let s := match rooms s !! roomId with
             | Some room =>
                 if Room.userCount room =? 0 then destroyRoom roomId s
                 else s
             | None => s
             end in
    set_cleanupTimers s (cleanupTimers s ∖ {[roomId]})
  else s.

(** [leaveRoom(roomId, socketId)]; [None] is [null]. *)
Definition leaveRoom (roomId socketId : jsstring) (s : t)
  : option UserInfo.t * t :=
  match rooms s !! roomId with
  | None => (None, s)
  | Some room =>
      match Room.users room !! socketId with
      | None => (None, s)
      | Some userInfo =>
          let room := Room.set_users room
                        (delete socketId (Room.users room)) in
          let s := set_rooms s (<[roomId := room]> (rooms s)) in
          let s := set_userSockets s (delete socketId (userSockets s)) in
          let s := if Room.userCount room =? 0
                   then scheduleRoomCleanup roomId s else s in
          (Some userInfo, s)
      end
  end.

(** [joinRoom(roomId, socketId, preferredName)]; [bits] is the draw of
    [generateUserName], made only when a name has to be generated.
    [room] is the object read at the start: the nested [leaveRoom]
    concerns another room and leaves it in place (lemma
    [leaveRoom_other_room] below). *)
Definition joinRoom (roomId socketId : jsstring) (preferredName : value)
    (bits : Z) (s : t) : result UserInfo.t * t :=
  match rooms s !! roomId with
  | None => (Throw err_not_found, s)
  | Some room =>
      if (ROOM_MAX_USERS cfg >? 0)
         && (Room.userCount room >=? ROOM_MAX_USERS cfg)
      then (Throw err_full, s)
      else
        let s := cancelRoomCleanup roomId s in
        let s :=
          match userSockets s !! socketId with
          | Some existingUserInfo =>
              if bool_decide (SocketEntry.roomId existingUserInfo ≠ roomId)
              then snd (leaveRoom (SocketEntry.roomId existingUserInfo)
                                  socketId s)
              else s
          | None => s
          end in
        match Room.users room !! socketId with
        | Some userInfo => (Ok userInfo, s)
        | None =>
            let userId := lit "user_" ++ take 8 socketId in
            let userName :=
              if truthy preferredName
              then or_else (sanitizeUserName preferredName)
                           (generateUserName bits)
              else generateUserName bits in
            let userInfo := {| UserInfo.id := userId;
                               UserInfo.name := userName |} in
            let room := Room.set_users room
                          (<[socketId := userInfo]> (Room.users room)) in
            let s := set_rooms s (<[roomId := room]> (rooms s)) in
            let s := set_userSockets s
                       (<[socketId := {| SocketEntry.roomId := roomId;
                                         SocketEntry.id := userId;
                                         SocketEntry.name := userName |}]>
                          (userSockets s)) in
            (Ok userInfo, s)
        end
  end.

(** [handleDisconnect(socketId)]; [None] is [null]. *)
Definition handleDisconnect (socketId : jsstring) (s : t)
  : option (jsstring * UserInfo.t) * t :=
  match userSockets s !! socketId with
  | None => (None, s)
  | Some userInfo =>
      let roomId := SocketEntry.roomId userInfo in
      match leaveRoom roomId socketId s with
      | (Some removedUser, s) => (Some (roomId, removedUser), s)
      | (None, s) => (None, s)
      end
  end.

(** [getRoomUserCount(roomId)] *)
Definition getRoomUserCount (roomId : jsstring) (s : t) : Z :=
  match rooms s !! roomId with
  | Some room => Room.userCount room
  | None => 0
  end.

(** [getUserInfo(socketId)]; [None] is [null]. *)
Definition getUserInfo (socketId : jsstring) (s : t)
  : option SocketEntry.t :=
  userSockets s !! socketId.

(** The [while] loop of [addMessage]: [shift()] removes the first
    element and does nothing on an empty array.  [None] stands for a
    loop that has not finished within [fuel] iterations. *)
Fixpoint shift_while (fuel : nat) (messages : list Message.t)
  : option (list Message.t) :=
  if Z.of_nat (List.length messages) >? MESSAGE_HISTORY_LIMIT cfg then
    match fuel with
    | O => None
    | S fuel' => shift_while fuel' (tail messages)
    end
  else Some messages.

(** [addMessage(roomId, message)] *)
Definition addMessage (fuel : nat) (roomId : jsstring)
    (message : Message.t) (s : t) : option t :=
  match rooms s !! roomId with
  | None => Some s
  | Some room =>
      messages ← shift_while fuel (Room.messages room ++ [message]);
      Some (set_rooms s
              (<[roomId := Room.set_messages room messages]> (rooms s)))
  end.

(** Successive [addMessage] calls for one room. *)
Fixpoint addMessages (fuel : nat) (roomId : jsstring)
    (messages : list Message.t) (s : t) : option t :=
  match messages with
  | [] => Some s
  | message :: messages' =>
      s ← addMessage fuel roomId message s;
      addMessages fuel roomId messages' s
  end.

(** [updateUserName(socketId, newName)]; [None] is [null]. *)
Definition updateUserName (socketId : jsstring) (newName : value) (s : t)
  : option UserInfo.t * t :=
  match sanitizeUserName newName with
  | None => (None, s)
  | Some sanitizedName =>
      if negb (truthy (VString sanitizedName)) then (None, s)
      else
        match userSockets s !! socketId with
        | None => (None, s)
        | Some userInfo =>
            match rooms s !! SocketEntry.roomId userInfo with
            | None => (None, s)
            | Some room =>
                match Room.users room !! socketId with
                | Some roomUser =>
                    let roomUser :=
                      {| UserInfo.id := UserInfo.id roomUser;
                         UserInfo.name := sanitizedName |} in
                    let room := Room.set_users room
                      (<[socketId := roomUser]> (Room.users room)) in
                    let s := set_rooms s
                      (<[SocketEntry.roomId userInfo := room]> (rooms s)) in
                    let userInfo :=
                      {| SocketEntry.roomId := SocketEntry.roomId userInfo;
                         SocketEntry.id := SocketEntry.id userInfo;
                         SocketEntry.name := sanitizedName |} in
                    let s := set_userSockets s
                      (<[socketId := userInfo]> (userSockets s)) in
                    (Some {| UserInfo.id := SocketEntry.id userInfo;
                             UserInfo.name := sanitizedName |}, s)
                | None => (None, s)
                end
            end
        end
  end.

(** The operations that change the members of the rooms, the reverse
    index or the timers, with their arguments, and the state they leave.
    [TimerFired] is the expiry of a timeout set by [scheduleRoomCleanup].
    ([addMessage], which changes a history only and need not return, is
    not among them; [method_call] below adds it.) *)
Inductive operation :=
| CreateRoom (now : Z) (rnd : nat → Z)
| JoinRoom (roomId socketId : jsstring) (preferredName : value) (bits : Z)
| LeaveRoom (roomId socketId : jsstring)
| HandleDisconnect (socketId : jsstring)
| DestroyRoom (roomId : jsstring)
| UpdateUserName (socketId : jsstring) (newName : value)
| TimerFired (roomId : jsstring).

Definition step (s : t) (op : operation) : t :=
  match op with
  | CreateRoom now rnd => (createRoom now rnd s).2
  | JoinRoom roomId socketId preferredName bits =>
      (joinRoom roomId socketId preferredName bits s).2
  | LeaveRoom roomId socketId => (leaveRoom roomId socketId s).2
  | HandleDisconnect socketId => (handleDisconnect socketId s).2
  | DestroyRoom roomId => destroyRoom roomId s
  | UpdateUserName socketId newName => (updateUserName socketId newName s).2
  | TimerFired roomId => cleanupTimerFired roomId s
  end.

(** The state after a sequence of operations on a new manager. *)
Definition run (ops : list operation) : t := foldl step new ops.

(** Every call that changes the manager: one of the operations above, or
    [addMessage(roomId, message)].  The latter returns only when its loop
    ends, here within [fuel] iterations; [None] is a call that has not
    returned. *)
Inductive method_call :=
| Operation (op : operation)
| AddMessage (fuel : nat) (roomId : jsstring) (message : Message.t).

Definition perform (s : t) (c : method_call) : option t :=
  match c with
  | Operation op => Some (step s op)
  | AddMessage fuel roomId message => addMessage fuel roomId message s
  end.

(** The state that a new manager reaches by a sequence of calls, each of
    which has returned. *)
Definition reach (calls : list method_call) : option t :=
  foldl (λ acc c, acc ≫= (λ s, perform s c)) (Some new) calls.

End WithConfig.

End RoomManager.

(** ** The event handlers ([socket.js])

    A handler is a function of the server state and of what the run time
    supplies to it: the id of the socket, the clock ([now], one reading for
    the whole handler), the random draws, the payload sent by the client.
    It returns the new state and the list of its effects on the outside in
    program order.  The acknowledgement [callback] of create-room,
    join-room and update-username is taken to be a function, as the source
    takes it; for send-message, which tests it, [has_callback] says
    whether there is one.  Informational [console.log] lines are left
    out. *)

Module Socket.

(** The two limiters and the room manager that the handlers share.  (The
    per-address connection counter is not used by the handlers below.) *)
Record Server := {
  roomManager : RoomManager.t;
  messageRateLimiter : RateLimiter.t;
  eventRateLimiter : RateLimiter.t
}.

Definition set_roomManager (srv : Server) (rm : RoomManager.t) : Server :=
  {| roomManager := rm;
     messageRateLimiter := messageRateLimiter srv;
     eventRateLimiter := eventRateLimiter srv |}.

Definition set_messageRateLimiter (srv : Server) (rl : RateLimiter.t)
  : Server :=
  {| roomManager := roomManager srv;
     messageRateLimiter := rl;
     eventRateLimiter := eventRateLimiter srv |}.

Definition set_eventRateLimiter (srv : Server) (rl : RateLimiter.t)
  : Server :=
  {| roomManager := roomManager srv;
     messageRateLimiter := messageRateLimiter srv;
     eventRateLimiter := rl |}.

(** What a handler does to the outside, in program order. *)
Inductive target :=
| ToSocket                       (* socket.emit(...)            *)
| ToOthers (roomId : jsstring)   (* socket.to(roomId).emit(...) *)
| ToRoom (roomId : jsstring).    (* io.to(roomId).emit(...)     *)

Inductive payload :=
| Identity (id name : jsstring)                              (* 'identity' *)
| RoomInfo (roomId : jsstring) (userCount : Z)               (* 'room-info' *)
| ChatMessage (message : Message.t)                          (* 'message' *)
| UserJoined (userId userName : jsstring) (userCount : Z)    (* 'user-joined' *)
| UserRenamed (userId : jsstring) (oldName : option jsstring)
              (newName : jsstring)                           (* 'user-renamed' *)
| RateLimited (message : jsstring) (resetIn : Z).            (* 'rate-limited' *)

(** The object passed to the acknowledgement callback. *)
Record ack := {
  success : bool;
  error : option jsstring;
  roomId : option jsstring;
  name : option jsstring
}.

Definition ack_ok : ack :=
  {| success := true; error := None; roomId := None; name := None |}.
Definition ack_error (e : jsstring) : ack :=
  {| success := false; error := Some e; roomId := None; name := None |}.

Inductive effect :=
| Emit (to : target) (p : payload)
| Callback (a : ack)
| SocketJoin (roomId : jsstring)                  (* socket.join(roomId) *)
| ConsoleError (prefix : jsstring) (message : jsstring)
| ConsoleWarn (message : jsstring).

(** [try { body } catch (error) { handler(error.message) }]: the effects
    of the body up to the throw are followed by those of the handler. *)
Definition try_catch {S : Type}
    (body : result unit * S * list effect)
    (handler : jsstring → list effect) : S * list effect :=
  match body with
  | (Ok _, s, effects) => (s, effects)
  | (Throw message, s, effects) => (s, effects ++ handler message)
  end.

(** The acknowledgement argument of create-room, join-room and
    update-username is called without a test.  [has_callback] tells whether
    it is a function; [false] stands for an event that was sent without an
    acknowledgement, so that the parameter is [undefined].  Calling it then
    throws a [TypeError], whose message in V8 is this one. *)
Definition err_not_a_function : jsstring :=
  lit "callback is not a function".

(** [callback(a); return;] at the end of a path of a handler body that has
    had the effects [effects]. *)
Definition answer {S : Type} (has_callback : bool) (s : S)
    (effects : list effect) (a : ack) : result unit * S * list effect :=
  if has_callback then (Ok tt, s, effects ++ [Callback a])
  else (Throw err_not_a_function, s, effects).

(** [try { body } catch (error) { handler(error.message) }] with a
    handler that can throw in its turn: its exception is the result, that
    is, it leaves the event handler. *)
Definition try_catch_rethrow {S : Type}
    (body : result unit * S * list effect)
    (handler : jsstring → result unit * list effect)
  : result unit * S * list effect :=
  match body with
  | (Ok _, s, effects) => (Ok tt, s, effects)
  | (Throw message, s, effects) =>
      let '(r, effects') := handler message in (r, s, effects ++ effects')
  end.

(** [console.error(prefix, error.message); callback(a);] *)
Definition log_and_answer (has_callback : bool) (prefix message : jsstring)
    (a : ack) : result unit * list effect :=
  if has_callback then (Ok tt, [ConsoleError prefix message; Callback a])
  else (Throw err_not_a_function, [ConsoleError prefix message]).

(** [{ valid, error?, sanitized? }] *)
Record validation := {
  valid : bool;
  verror : option jsstring;
  sanitized : option jsstring
}.

(** The class [[\\x00-\\x08\\x0B\\x0C\\x0E-\\x1F\\x7F]]. *)
Definition is_stripped (c : N) : bool :=
  ((c <=? 8) || (c =? 11) || (c =? 12) || (14 <=? c) && (c <=? 31)
   || (c =? 127))%N.

Definition amp : N := 38.
Definition lt : N := 60.
Definition gt : N := 62.
Definition quot : N := 34.
Definition apos : N := 39.

(** The chain of five [replace] calls of [validateMessage]. *)
Definition escape_html (s : jsstring) : jsstring :=
  replace_char apos (lit "&#x27;")
    (replace_char quot (lit "&quot;")
      (replace_char gt (lit "&gt;")
        (replace_char lt (lit "&lt;")
          (replace_char amp (lit "&amp;") s)))).

Section WithConfig.
Context (cfg : Config).

(** [validateMessage(content)] *)
Definition validateMessage (content : value) : validation :=
  match content with
  | VString s =>
      if negb (truthy content) then
        {| valid := false; verror := Some (lit "Message cannot be empty");
           sanitized := None |}
      else
        let trimmed := trim s in
        if JS.length trimmed <? MESSAGE_MIN_LENGTH then
          {| valid := false; verror := Some (lit "Message too short");
             sanitized := None |}
        else if JS.length trimmed >? MESSAGE_MAX_LENGTH cfg then
          {| valid := false;
             verror := Some (lit "Message too long (max "
                             ++ Number_toString (MESSAGE_MAX_LENGTH cfg)
                             ++ lit " characters)");
             sanitized := None |}
        else
          let sanitized := remove_class is_stripped trimmed in
          let sanitized := escape_html sanitized in
          {| valid := true; verror := None; sanitized := Some sanitized |}
  | _ =>
      {| valid := false; verror := Some (lit "Message cannot be empty");
         sanitized := None |}
  end.

(** [createSystemMessage(roomId, content)]; [now] is [Date.now()] and
    [suffix] is [Math.random().toString(36).substr(2, 9)]. *)
Definition createSystemMessage (now : Z) (suffix : jsstring)
    (roomId : jsstring) (content : jsstring) : Message.t :=
  {| Message.id := lit "sys_" ++ Number_toString now ++ lit "_" ++ suffix;
     Message.type := Message.system;
     Message.senderId := lit "system";
     Message.senderName := lit "System";
     Message.content := content;
     Message.timestamp := now |}.

(** [typeof roomId !== 'string' || !/^\d{4}$/.test(roomId)]; the room
    code when the test passes. *)
Definition valid_roomId (roomId : value) : option jsstring :=
  match roomId with
  | VString s => if test_4digits s then Some s else None
  | _ => None
  end.

(** *** create-room *)

Definition create_room_catch (has_callback : bool) (message : jsstring)
  : result unit * list effect :=
  log_and_answer has_callback (lit "[Socket] Error creating room:") message
    (ack_error message).

Definition create_room_body (socket_id : jsstring) (now : Z)
    (rnd : nat → Z) (has_callback : bool) (srv : Server)
  : result unit * Server * list effect :=
  let '(rateCheck, rl) :=
    RateLimiter.check now socket_id (eventRateLimiter srv) in
  let srv := set_eventRateLimiter srv rl in
  if negb (RateLimiter.allowed rateCheck) then
    answer has_callback srv []
      (ack_error (lit "Too many requests. Please wait."))
  else
    match RoomManager.createRoom cfg now rnd (roomManager srv) with
    | (Throw message, rm) => (Throw message, set_roomManager srv rm, [])
    | (Ok room, rm) =>
        answer has_callback (set_roomManager srv rm) []
          {| success := true; error := None;
             roomId := Some (Room.id room); name := None |}
    end.

(** The handler; [Throw] is an exception that leaves it. *)
Definition on_create_room (socket_id : jsstring) (now : Z)
    (rnd : nat → Z) (has_callback : bool) (srv : Server)
  : result unit * Server * list effect :=
  try_catch_rethrow (create_room_body socket_id now rnd has_callback srv)
                    (create_room_catch has_callback).

(** *** join-room *)

Definition join_room_catch (has_callback : bool) (message : jsstring)
  : result unit * list effect :=
  log_and_answer has_callback (lit "[Socket] Error joining room:") message
    (ack_error message).

Definition join_room_body (socket_id : jsstring) (now : Z)
    (suffix : jsstring) (bits : Z) (data : value) (has_callback : bool)
    (srv : Server) : result unit * Server * list effect :=
  let '(rateCheck, rl) :=
    RateLimiter.check now socket_id (eventRateLimiter srv) in
  let srv := set_eventRateLimiter srv rl in
  if negb (RateLimiter.allowed rateCheck) then
    answer has_callback srv []
      (ack_error (lit "Too many requests. Please wait."))
  else
    let parsed :=
      if String.eqb (typeof data) "string" then Some (data, VNull)
      else if truthy data && String.eqb (typeof data) "object" then
        Some (get "roomId" data, get "preferredName" data)
      else None in
    match parsed with
    | None =>
        answer has_callback srv [] (ack_error (lit "Invalid request"))
    | Some (roomId, preferredName) =>
        match valid_roomId roomId with
        | None =>
            answer has_callback srv [] (ack_error (lit "Invalid room code"))
        | Some roomId =>
            if negb (RoomManager.roomExists roomId (roomManager srv)) then
              answer has_callback srv [] (ack_error (lit "Room not found"))
            else
              match RoomManager.joinRoom cfg roomId socket_id
                      preferredName bits (roomManager srv) with
              | (Throw message, rm) =>
                  (Throw message, set_roomManager srv rm, [])
              | (Ok userInfo, rm) =>
                  let srv := set_roomManager srv rm in
                  let userCount :=
                    RoomManager.getRoomUserCount roomId rm in
                  let joinMessage :=
                    createSystemMessage now suffix roomId
                      (UserInfo.name userInfo ++ lit " joined the room") in
                  answer has_callback srv
                    [SocketJoin roomId;
                     Emit ToSocket (Identity (UserInfo.id userInfo)
                                             (UserInfo.name userInfo));
                     Emit ToSocket (RoomInfo roomId userCount);
                     Emit (ToOthers roomId) (ChatMessage joinMessage);
                     Emit (ToOthers roomId)
                          (UserJoined (UserInfo.id userInfo)
                                      (UserInfo.name userInfo) userCount)]
                    ack_ok
              end
        end
    end.

(** The handler; [Throw] is an exception that leaves it. *)
Definition on_join_room (socket_id : jsstring) (now : Z)
    (suffix : jsstring) (bits : Z) (data : value) (has_callback : bool)
    (srv : Server) : result unit * Server * list effect :=
  try_catch_rethrow
    (join_room_body socket_id now suffix bits data has_callback srv)
    (join_room_catch has_callback).

(** *** send-message *)

(** The message object built by the handler; [now] is [Date.now()] and
    [suffix] is [Math.random().toString(36).substr(2, 9)]. *)
Definition user_message (now : Z) (suffix : jsstring)
    (userInfo : SocketEntry.t) (content : jsstring) : Message.t :=
  {| Message.id := lit "msg_" ++ Number_toString now ++ lit "_" ++ suffix;
     Message.type := Message.user;
     Message.senderId := SocketEntry.id userInfo;
     Message.senderName := SocketEntry.name userInfo;
     Message.content := content;
     Message.timestamp := now |}.

Definition send_message_catch (has_callback : bool) (message : jsstring)
  : list effect :=
  ConsoleError (lit "[Socket] Error sending message:") message
  :: (if has_callback
      then [Callback (ack_error (lit "Failed to send message"))]
      else []).

(** [if (callback) callback(a)] *)
Definition reply (has_callback : bool) (a : ack) : list effect :=
  if has_callback then [Callback a] else [].

(** [None]: the history loop of [addMessage] has not finished within
    [fuel] iterations. *)
Definition send_message_body (fuel : nat) (socket_id : jsstring)
    (now : Z) (suffix : jsstring) (data : value) (has_callback : bool)
    (srv : Server) : option (result unit * Server * list effect) :=
  if negb (truthy data) || negb (String.eqb (typeof data) "object") then
    Some (Ok tt, srv, reply has_callback (ack_error (lit "Invalid request")))
  else
    let roomId := get "roomId" data in
    let content := get "content" data in
    match valid_roomId roomId with
    | None =>
        Some (Ok tt, srv,
              reply has_callback (ack_error (lit "Invalid room")))
    | Some roomId =>
        let '(rateCheck, rl) :=
          RateLimiter.check now socket_id (messageRateLimiter srv) in
        let srv := set_messageRateLimiter srv rl in
        if negb (RateLimiter.allowed rateCheck) then
          Some (Ok tt, srv,
                Emit ToSocket
                     (RateLimited RATE_LIMIT_COOLDOWN_MESSAGE
                                  (RateLimiter.resetIn rateCheck))
                :: reply has_callback (ack_error (lit "Rate limited")))
        else
          let not_in_room :=
            Some (Ok tt, srv,
                  ConsoleWarn (lit "[Socket] User " ++ socket_id
                               ++ lit " not in room " ++ roomId)
                  :: reply has_callback (ack_error (lit "Not in room"))) in
          match RoomManager.getUserInfo socket_id (roomManager srv) with
          | None => not_in_room
          | Some userInfo =>
              if bool_decide (SocketEntry.roomId userInfo ≠ roomId)
              then not_in_room
              else
                let validation := validateMessage content in
                if negb (valid validation) then
                  Some (Ok tt, srv,
                        reply has_callback
                          {| success := false;
                             error := verror validation;
                             roomId := None; name := None |})
                else
                  let message :=
                    user_message now suffix userInfo
                      (default [] (sanitized validation)) in
                  rm ← RoomManager.addMessage cfg fuel roomId message
                         (roomManager srv);
                  Some (Ok tt, set_roomManager srv rm,
                        Emit (ToRoom roomId) (ChatMessage message)
                        :: reply has_callback ack_ok)
          end
    end.

Definition on_send_message (fuel : nat) (socket_id : jsstring)
    (now : Z) (suffix : jsstring) (data : value) (has_callback : bool)
    (srv : Server) : option (Server * list effect) :=
  body ← send_message_body fuel socket_id now suffix data has_callback srv;
  Some (try_catch body (send_message_catch has_callback)).

(** *** update-username *)

Definition update_username_catch (has_callback : bool)
    (message : jsstring) : result unit * list effect :=
  log_and_answer has_callback (lit "[Socket] Error updating username:")
    message (ack_error (lit "Failed to update name")).

(** [`${oldName}`], where [oldName] may be [undefined]. *)
Definition show_name (oldName : option jsstring) : jsstring :=
  default (lit "undefined") oldName.

Definition update_username_body (socket_id : jsstring) (now : Z)
    (suffix : jsstring) (data : value) (has_callback : bool) (srv : Server)
  : result unit * Server * list effect :=
  if negb (truthy data) || negb (String.eqb (typeof data) "object") then
    answer has_callback srv [] (ack_error (lit "Invalid request"))
  else
    let roomId := get "roomId" data in
    let newName := get "newName" data in
    match valid_roomId roomId with
    | None => answer has_callback srv [] (ack_error (lit "Invalid room"))
    | Some roomId =>
        match newName with
        | VString newName' =>
            if negb (truthy newName) then
              answer has_callback srv [] (ack_error (lit "Invalid name"))
            else
              let sanitizedName :=
                substring0 USERNAME_MAX_LENGTH (trim newName') in
              if JS.length sanitizedName <? USERNAME_MIN_LENGTH then
                answer has_callback srv []
                  (ack_error (lit "Name too short"))
              else
                let userInfo :=
                  RoomManager.getUserInfo socket_id (roomManager srv) in
                let oldName := SocketEntry.name <$> userInfo in
                match RoomManager.updateUserName socket_id
                        (VString sanitizedName) (roomManager srv) with
                | (Some updated, rm) =>
                    let srv := set_roomManager srv rm in
                    answer has_callback srv
                      ([Emit ToSocket (Identity (UserInfo.id updated)
                                                (UserInfo.name updated))]
                       ++ (if truthy (VString roomId)
                              && bool_decide
                                   (oldName ≠ Some (UserInfo.name updated))
                           then
                             [Emit (ToRoom roomId)
                                (ChatMessage
                                   (createSystemMessage now suffix roomId
                                      (show_name oldName ++ lit " is now "
                                       ++ UserInfo.name updated)))]
                           else [])
                       ++ [Emit (ToRoom roomId)
                                (UserRenamed (UserInfo.id updated) oldName
                                             (UserInfo.name updated))])
                      {| success := true; error := None; roomId := None;
                         name := Some (UserInfo.name updated) |}
                | (None, rm) =>
                    answer has_callback (set_roomManager srv rm) []
                      (ack_error (lit "Failed to update name"))
                end
        | _ => answer has_callback srv [] (ack_error (lit "Invalid name"))
        end
    end.

(** The handler; [Throw] is an exception that leaves it. *)
Definition on_update_username (socket_id : jsstring) (now : Z)
    (suffix : jsstring) (data : value) (has_callback : bool) (srv : Server)
  : result unit * Server * list effect :=
  try_catch_rethrow
    (update_username_body socket_id now suffix data has_callback srv)
    (update_username_catch has_callback).

End WithConfig.

(** The server as [initializeSocketServer] sets it up. *)
Definition init (cfg : Config) : Server :=
  {| roomManager := RoomManager.new;
     messageRateLimiter :=
       RateLimiter.new (RATE_LIMIT_MAX_MESSAGES cfg)
                       (RATE_LIMIT_WINDOW_MS cfg);
     eventRateLimiter :=
       RateLimiter.new (EVENT_RATE_LIMIT cfg) (EVENT_RATE_WINDOW_MS cfg) |}.

End Socket.

(** ** Sequences of limiter calls ([rateLimiter.js]) *)

Module RateLimiterRun.

(** The calls that change a limiter; [CleanupTick] is one run of the
    interval set up by the constructor. *)
Inductive operation :=
| Check (now : Z) (identifier : jsstring)
| Remove (identifier : jsstring)
| CleanupTick (now : Z).

Definition step (rl : RateLimiter.t) (op : operation) : RateLimiter.t :=
  match op with
  | Check now identifier => (RateLimiter.check now identifier rl).2
  | Remove identifier => RateLimiter.remove identifier rl
  | CleanupTick now => RateLimiter.cleanup now rl
  end.

(** The limiter after a sequence of calls on a new one. *)
Definition run (maxRequests windowMs : Z) (ops : list operation)
  : RateLimiter.t :=
  foldl step (RateLimiter.new maxRequests windowMs) ops.

(** How many of the verdicts are [allowed: true]. *)
Definition allowed_count (vs : list RateLimiter.verdict) : Z :=
  Z.of_nat (List.length (List.filter RateLimiter.allowed vs)).

End RateLimiterRun.

(** ** Connections, check-room, leave-room and disconnect ([socket.js]) *)

Module Session.

(** What the connection handler reads of [socket.handshake]: the
    [x-forwarded-for] header and the peer address, each possibly
    [undefined]. *)
Record handshake := {
  x_forwarded_for : option jsstring;
  address : option jsstring
}.

(** [s.split(',')[0]] *)
Fixpoint before_comma (s : jsstring) : jsstring :=
  match s with
  | [] => []
  | c :: s' => if (c =? 44)%N then [] else c :: before_comma s'
  end.

(** [headers['x-forwarded-for']?.split(',')[0]?.trim()
     || handshake.address || 'unknown'] *)
Definition clientIP (h : handshake) : jsstring :=
  match (λ s, trim (before_comma s)) <$> x_forwarded_for h with
  | Some (c :: ip) => c :: ip
  | _ =>
      match address h with
      | Some (c :: ip) => c :: ip
      | _ => lit "unknown"
      end
  end.

(** The server of [Socket] together with the per-address counter
    [connectionsByIP]. *)
Record State := {
  server : Socket.Server;
  connectionsByIP : gmap jsstring Z
}.

Definition init (cfg : Config) : State :=
  {| server := Socket.init cfg; connectionsByIP := ∅ |}.

(** The effects of these handlers, in program order. *)
Inductive effect :=
| Emit (to : Socket.target) (p : Socket.payload)
| EmitUserLeft (to : Socket.target)
    (userId userName : option jsstring) (userCount : Z)  (* 'user-left' *)
| EmitError (message : jsstring)                          (* 'error' *)
| ForceDisconnect                            (* socket.disconnect(true) *)
| SocketLeave (roomId : jsstring)            (* socket.leave(roomId) *)
| CallbackExists (answer : bool)             (* callback({ exists }) *)
| WarnConnectionLimit (ip : jsstring)
| WarnInvalidRoomId (roomId : value)
| ConsoleError (prefix : jsstring) (message : jsstring).

Section WithConfig.
Context (cfg : Config).

(** [SECURITY.MAX_CONNECTIONS_PER_IP] *)
Context (MAX_CONNECTIONS_PER_IP : Z).

(** [connectionsByIP.get(clientIP) || 0] *)
Definition connections (ip : jsstring) (st : State) : Z :=
  match connectionsByIP st !! ip with
  | Some n => if n =? 0 then 0 else n
  | None => 0
  end.

(** The start of the ['connection'] handler, up to the registration of
    the event handlers: [true] when the socket is admitted (its handlers,
    the disconnect handler among them, are registered only then); [bits]
    is the draw for the temporary name. *)
Definition on_connection (socket_id : jsstring) (h : handshake) (bits : Z)
    (st : State) : bool * State * list effect :=
  let ip := clientIP h in
  let currentConnections := connections ip st in
  if currentConnections >=? MAX_CONNECTIONS_PER_IP then
    (false, st,
     [WarnConnectionLimit ip;
      EmitError (lit "Too many connections from your IP");
      ForceDisconnect])
  else
    (true,
     {| server := server st;
        connectionsByIP :=
          <[ip := currentConnections + 1]> (connectionsByIP st) |},
     [Emit Socket.ToSocket
        (Socket.Identity socket_id (RoomManager.generateUserName bits))]).

(** The ['check-room'] handler.  Its acknowledgement argument is called
    without a test, as in create-room ([Socket.err_not_a_function]): for a
    request without an acknowledgement function the call throws inside
    [try], the [catch] clause logs the [TypeError] and calls [callback]
    again, and that exception leaves the handler ([Throw]). *)
Definition on_check_room (roomId : value) (has_callback : bool)
    (st : State) : result unit * list effect :=
  let answer :=
    match Socket.valid_roomId roomId with
    | None => false
    | Some roomId =>
        RoomManager.roomExists roomId (Socket.roomManager (server st))
    end in
  if has_callback then (Ok tt, [CallbackExists answer])
  else (Throw Socket.err_not_a_function,
        [ConsoleError (lit "[Socket] Error checking room:")
           Socket.err_not_a_function]).

(** The ['leave-room'] handler. *)
Definition on_leave_room (socket_id : jsstring) (now : Z)
    (suffix : jsstring) (roomId : value) (st : State)
  : State * list effect :=
  match Socket.valid_roomId roomId with
  | None => (st, [WarnInvalidRoomId roomId])
  | Some roomId' =>
      let rm := Socket.roomManager (server st) in
      let userInfo := RoomManager.getUserInfo socket_id rm in
      match RoomManager.leaveRoom cfg roomId' socket_id rm with
      | (Some removedUser, rm) =>
          ({| server := Socket.set_roomManager (server st) rm;
              connectionsByIP := connectionsByIP st |},
           [SocketLeave roomId']
           ++ match userInfo with
              | Some userInfo =>
                  [Emit (Socket.ToRoom roomId')
                     (Socket.ChatMessage
                        (Socket.createSystemMessage now suffix roomId'
                           (SocketEntry.name userInfo
                            ++ lit " left the room")))]
              | None => []
              end
           ++ [EmitUserLeft (Socket.ToRoom roomId')
                 (SocketEntry.id <$> userInfo)
                 (SocketEntry.name <$> userInfo)
                 (RoomManager.getRoomUserCount roomId' rm)])
      | (None, rm) =>
          ({| server := Socket.set_roomManager (server st) rm;
              connectionsByIP := connectionsByIP st |}, [])
      end
  end.

(** The ['disconnect'] handler of an admitted socket. *)
Definition on_disconnect (socket_id : jsstring) (h : handshake) (now : Z)
    (suffix : jsstring) (st : State) : State * list effect :=
  let srv := server st in
  let srv := Socket.set_messageRateLimiter srv
               (RateLimiter.remove socket_id (Socket.messageRateLimiter srv)) in
  let srv := Socket.set_eventRateLimiter srv
               (RateLimiter.remove socket_id (Socket.eventRateLimiter srv)) in
  let ip := clientIP h in
  let currentConnections := connections ip st in
  let byIP :=
    if currentConnections <=? 1 then delete ip (connectionsByIP st)
    else <[ip := currentConnections - 1]> (connectionsByIP st) in
  match RoomManager.handleDisconnect cfg socket_id (Socket.roomManager srv)
  with
  | (Some (roomId, userInfo), rm) =>
      ({| server := Socket.set_roomManager srv rm;
          connectionsByIP := byIP |},
       [Emit (Socket.ToRoom roomId)
          (Socket.ChatMessage
             (Socket.createSystemMessage now suffix roomId
                (UserInfo.name userInfo ++ lit " disconnected")));
        EmitUserLeft (Socket.ToRoom roomId)
          (Some (UserInfo.id userInfo)) (Some (UserInfo.name userInfo))
          (RoomManager.getRoomUserCount roomId rm)])
  | (None, rm) =>
      ({| server := Socket.set_roomManager srv rm;
          connectionsByIP := byIP |}, [])
  end.

(** Connections and disconnections as the transport delivers them.  A
    disconnection concerns a socket that is live, that is, one that was
    admitted and has not yet disconnected; [live] lists these sockets with
    their handshakes, which the disconnect handler reads again. *)
Inductive transport_event :=
| Connects (socket_id : jsstring) (h : handshake) (bits : Z)
| Disconnects (index : nat) (now : Z) (suffix : jsstring).

Definition transport_step (acc : State * list (jsstring * handshake))
    (ev : transport_event) : State * list (jsstring * handshake) :=
  let '(st, live) := acc in
  match ev with
  | Connects socket_id h bits =>
      match on_connection socket_id h bits st with
      | (true, st, _) => (st, (socket_id, h) :: live)
      | (false, st, _) => (st, live)
      end
  | Disconnects index now suffix =>
      match live !! index with
      | Some (socket_id, h) =>
          ((on_disconnect socket_id h now suffix st).1, delete index live)
      | None => (st, live)
      end
  end.

End WithConfig.

End Session.

(** ** The code entry of the client ([start-chat.ts]) *)

Module StartChat.

(** [this.roomCode.replace(/\D/g, '')] *)
Definition digits_only (roomCode : jsstring) : jsstring :=
  remove_class (λ c, negb (is_digit c)) roomCode.

(** [joinRoom()], once connected and not already joining: the code sent
    with check-room, or [None] when 'Enter a 4-digit code' is shown. *)
Definition code_to_check (roomCode : jsstring) : option jsstring :=
  let sanitized := digits_only roomCode in
  if negb (List.length sanitized =? 4)%nat then None else Some sanitized.

End StartChat.

(** ** Statistics ([roomManager.js], [getStats]) *)

Module RoomStats.

(** One element of [rooms] in the object that [getStats()] returns. *)
Record room_stats := {
  id : jsstring;
  userCount : Z;
  messageCount : Z;
  createdAt : Z
}.

Record t := {
  totalRooms : Z;
  totalUsers : Z;
  pendingCleanups : Z;
  rooms : list room_stats
}.

Definition of_room (room : Room.t) : room_stats :=
  {| id := Room.id room;
     userCount := Z.of_nat (size (Room.users room));
     messageCount := Z.of_nat (List.length (Room.messages room));
     createdAt := Room.createdAt room |}.

(** The iteration order of the [rooms] map is an input: [keys] is the
    list of the keys of [rooms] as [rooms.values()] runs through them,
    that is, the codes of the live rooms in the order in which the rooms
    were created.  [iterates keys s] says that [keys] is such a list:
    every key of [rooms], once. *)
Definition iterates (keys : list jsstring) (s : RoomManager.t) : Prop :=
  NoDup keys ∧ ∀ k, k ∈ keys ↔ is_Some (RoomManager.rooms s !! k).

(** [Array.from(this.rooms.values())] *)
Definition values (keys : list jsstring) (s : RoomManager.t)
  : list Room.t :=
  omap (λ k, RoomManager.rooms s !! k) keys.

(** [getStats()] *)
Definition getStats (keys : list jsstring) (s : RoomManager.t) : t :=
  {| totalRooms := Z.of_nat (size (RoomManager.rooms s));
     totalUsers := Z.of_nat (size (RoomManager.userSockets s));
     pendingCleanups := Z.of_nat (size (RoomManager.cleanupTimers s));
     rooms := of_room <$> values keys s |}.

End RoomStats.

(** * Properties *)

(** ** Boolean comparisons *)

Ltac zbool :=
  repeat match goal with
  | |- context [(?a >=? ?b)%Z] => rewrite (Z.geb_leb a b)
  | |- context [(?a >? ?b)%Z] => rewrite (Z.gtb_ltb a b)
  | H : context [(?a >=? ?b)%Z] |- _ => rewrite (Z.geb_leb a b) in H
  | H : context [(?a >? ?b)%Z] |- _ => rewrite (Z.gtb_ltb a b) in H
  end.

Ltac zcase :=
  zbool;
  repeat match goal with
  | |- context [(?a <=? ?b)%Z] => destruct (Z.leb_spec a b)
  | |- context [(?a <? ?b)%Z] => destruct (Z.ltb_spec a b)
  | |- context [(?a =? ?b)%Z] => destruct (Z.eqb_spec a b)
  end.

(** ** The rate limiter *)

Section RateLimiterFacts.
Import RateLimiter.

Implicit Types (rl : RateLimiter.t) (id : jsstring) (now : Z).

Lemma check_params now id rl :
  maxRequests (check now id rl).2 = maxRequests rl
  ∧ windowMs (check now id rl).2 = windowMs rl.
Proof.
  unfold check.
  destruct (clients rl !! id) as [c|]; simpl;
    repeat (zcase; simpl); auto.
Qed.

(** A call inside the current window. *)
Lemma check_same_window now id rl c :
  clients rl !! id = Some c →
  now - windowStart c < windowMs rl →
  check now id rl =
    if count c <? maxRequests rl
    then ({| allowed := true;
             remaining := maxRequests rl - (count c + 1);
             resetIn := windowMs rl - (now - windowStart c) |},
          set_clients rl
            (<[id := {| count := count c + 1;
                        windowStart := windowStart c |}]> (clients rl)))
    else ({| allowed := false; remaining := 0;
             resetIn := windowMs rl - (now - windowStart c) |}, rl).
Proof.
  intros Hc Hw. unfold check. rewrite Hc.
  rewrite Z.geb_leb.
  destruct (Z.leb_spec (windowMs rl) (now - windowStart c)); [lia|].
  reflexivity.
Qed.

(** A call that opens a window: first request, or first request after
    the prior window expired. *)
Definition window_over now id rl : Prop :=
  match clients rl !! id with
  | Some c => now - windowStart c >= windowMs rl
  | None => True
  end.

Lemma check_new_window now id rl :
  window_over now id rl →
  check now id rl =
    if 0 <? maxRequests rl
    then ({| allowed := true; remaining := maxRequests rl - 1;
             resetIn := windowMs rl - (now - now) |},
          set_clients rl
            (<[id := {| count := 1; windowStart := now |}]> (clients rl)))
    else ({| allowed := false; remaining := 0;
             resetIn := windowMs rl - (now - now) |},
          set_clients rl
            (<[id := {| count := 0; windowStart := now |}]> (clients rl))).
Proof.
  unfold window_over, check. intros Hw.
  destruct (clients rl !! id) as [c|] eqn:Hc.
  - rewrite Z.geb_leb.
    destruct (Z.leb_spec (windowMs rl) (now - windowStart c)); [|lia].
    simpl. destruct (0 <? maxRequests rl); simpl; [|done].
    unfold set_clients; simpl. by rewrite insert_insert_eq.
  - simpl. destruct (0 <? maxRequests rl); simpl; [|done].
    unfold set_clients; simpl. by rewrite insert_insert_eq.
Qed.

(** Calls of one identifier inside one window: the [k]-th of them is
    allowed exactly while the counter is below the maximum. *)
Lemma checks_same_window times : ∀ id rl c t0,
  clients rl !! id = Some {| count := c; windowStart := t0 |} →
  0 <= c <= maxRequests rl →
  Forall (λ t, t - t0 < windowMs rl) times →
  (∀ k v, (checks times id rl).1 !! k = Some v →
          allowed v = bool_decide (c + Z.of_nat k < maxRequests rl))
  ∧ maxRequests (checks times id rl).2 = maxRequests rl
  ∧ windowMs (checks times id rl).2 = windowMs rl
  ∧ clients (checks times id rl).2 !! id =
      Some {| count := Z.min (c + Z.of_nat (List.length times))
                             (maxRequests rl);
              windowStart := t0 |}.
Proof.
  induction times as [|t times IH]; intros id rl c t0 Hc Hr Hall.
  - simpl. split; [intros k v; by rewrite lookup_nil|].
    repeat split; auto. rewrite Hc. do 2 f_equal. lia.
  - apply Forall_cons in Hall as [Ht Hall]. simpl.
    pose proof (check_same_window t id rl _ Hc Ht) as Hchk. simpl in Hchk.
    destruct (check t id rl) as [v rl1] eqn:E.
    destruct (Z.ltb_spec c (maxRequests rl)) as [Hlt|Hge];
      inversion Hchk; subst v rl1; clear Hchk.
    + specialize (IH id
        (set_clients rl (<[id := {| count := c + 1; windowStart := t0 |}]>
                           (clients rl))) (c + 1) t0).
      simpl in IH. rewrite lookup_insert_eq in IH.
      destruct IH as (IH1 & IH2 & IH3 & IH4); [done|lia|done|].
      destruct (checks times id _) as [vs rl2]. simpl in *.
      split; [|repeat split; auto].
      * intros [|k] v; simpl.
        -- intros [= <-]. simpl. rewrite bool_decide_eq_true_2; [done|lia].
        -- intros Hk. rewrite (IH1 _ _ Hk).
           apply bool_decide_ext. lia.
      * rewrite IH4. do 2 f_equal. lia.
    + specialize (IH id rl c t0 Hc Hr Hall).
      destruct IH as (IH1 & IH2 & IH3 & IH4).
      destruct (checks times id rl) as [vs rl2]. simpl in *.
      split; [|repeat split; auto].
      * intros [|k] v; simpl.
        -- intros [= <-]. simpl. rewrite bool_decide_eq_false_2; [done|lia].
        -- intros Hk. rewrite (IH1 _ _ Hk).
           rewrite !bool_decide_eq_false_2; [done|lia|lia].
      * rewrite IH4. do 2 f_equal. lia.
Qed.

End RateLimiterFacts.

(** C3.  A limiter with [maxRequests = 10] and [windowMs = 10000]: when a
    call at time [t0] opens a window for an identifier, the calls made for
    that identifier while [t - t0 < 10000] are answered [allowed: true] for
    the first ten (the opening call included) and [allowed: false] from the
    eleventh on; a call at a time [t'] with [t' - t0 >= 10000] finds the
    window expired, restarts the counter from 0 and is allowed again (it is
    the first call of the new window, leaving 9). *)
Theorem rate_limiter_fixed_window
    (id : jsstring) (rl : RateLimiter.t) (t0 : Z) (later : list Z) (t' : Z) :
  RateLimiter.maxRequests rl = 10 →
  RateLimiter.windowMs rl = 10000 →
  window_over t0 id rl →
  Forall (λ t, t - t0 < 10000) later →
  t' - t0 >= 10000 →
  let run := RateLimiter.checks (t0 :: later) id rl in
  let next := RateLimiter.check t' id run.2 in
  (∀ k v, run.1 !! k = Some v →
          RateLimiter.allowed v = bool_decide (k < 10)%nat)
  ∧ RateLimiter.allowed next.1 = true
  ∧ RateLimiter.remaining next.1 = 9
  ∧ RateLimiter.clients next.2 !! id =
      Some {| RateLimiter.count := 1; RateLimiter.windowStart := t' |}.
Proof.
  intros Hmax Hwin Hover Hlater Ht'. simpl.
  pose proof (check_new_window t0 id rl Hover) as Hfirst.
  rewrite Hmax in Hfirst. simpl in Hfirst.
  destruct (RateLimiter.check t0 id rl) as [v0 rl0] eqn:E0.
  inversion Hfirst; subst v0 rl0; clear Hfirst.
  set (rl1 := RateLimiter.set_clients rl _).
  destruct (checks_same_window later id rl1 1 t0) as (H1 & H2 & H3 & H4).
  { subst rl1. simpl. by rewrite lookup_insert_eq. }
  { subst rl1. simpl. lia. }
  { subst rl1. simpl. by rewrite Hwin. }
  destruct (RateLimiter.checks later id rl1) as [vs rl2]. simpl in *.
  split.
  - intros [|k] v; simpl.
    + by intros [= <-].
    + intros Hk. rewrite (H1 _ _ Hk). subst rl1; simpl. rewrite Hmax.
      apply bool_decide_ext. lia.
  - assert (Hover' : window_over t' id rl2).
    { unfold window_over. rewrite H4, H3. subst rl1; simpl. lia. }
    rewrite (check_new_window t' id rl2 Hover').
    rewrite H2. subst rl1; simpl. rewrite Hmax. simpl.
    split; [done|]. split; [done|]. by rewrite lookup_insert_eq.
Qed.

Lemma rate_limiter_fixed_window_witness :
  let id := lit "socket-1" in
  let run := RateLimiter.checks
               (0 :: [1; 2; 3; 4; 5; 6; 7; 8; 9; 9999; 9999])
               id (RateLimiter.new 10 10000) in
  let next := RateLimiter.check 10000 id run.2 in
  (∀ k v, run.1 !! k = Some v →
          RateLimiter.allowed v = bool_decide (k < 10)%nat)
  ∧ RateLimiter.allowed next.1 = true
  ∧ RateLimiter.remaining next.1 = 9
  ∧ RateLimiter.clients next.2 !! id =
      Some {| RateLimiter.count := 1; RateLimiter.windowStart := 10000 |}.
Proof.
  apply (rate_limiter_fixed_window (lit "socket-1")
           (RateLimiter.new 10 10000) 0
           [1; 2; 3; 4; 5; 6; 7; 8; 9; 9999; 9999] 10000).
  - reflexivity.
  - reflexivity.
  - exact I.
  - repeat constructor.
  - lia.
Defined.


(** ** The room manager: membership and the reverse index *)

Section RoomManagerFacts.
Import RoomManager.
Context (cfg : Config).

Implicit Types (s : RoomManager.t) (roomId socketId : jsstring).

(** [socketId] is a key of the [users] map of the live room [roomId]. *)
Definition member s roomId socketId : Prop :=
  ∃ room, rooms s !! roomId = Some room
          ∧ is_Some (Room.users room !! socketId).

(** The reverse index has an entry for a connection exactly when one and
    only one live room has it as a member, and the entry names that room. *)
Definition consistent s : Prop :=
  ∀ socketId,
    (is_Some (userSockets s !! socketId)
     ↔ exists! roomId, member s roomId socketId)
    ∧ (∀ e, userSockets s !! socketId = Some e →
            member s (SocketEntry.roomId e) socketId).

(** Every reverse entry names a room that has the connection, and every
    membership has a reverse entry that names its room; so no connection is
    a member of two rooms. *)
Definition in_sync s : Prop :=
  (∀ socketId e, userSockets s !! socketId = Some e →
                 member s (SocketEntry.roomId e) socketId)
  ∧ (∀ socketId roomId, member s roomId socketId →
       ∃ e, userSockets s !! socketId = Some e
            ∧ SocketEntry.roomId e = roomId).

Lemma in_sync_consistent s : in_sync s → consistent s.
Proof.
  intros [HA HB] socketId. split; [split|].
  - intros [e He]. exists (SocketEntry.roomId e). split; [by apply HA|].
    intros r Hr. destruct (HB _ _ Hr) as (e' & He' & <-). congruence.
  - intros (r & Hr & _). destruct (HB _ _ Hr) as (e & He & _). by eexists.
  - intros e He. by apply HA.
Qed.

Lemma lookup_foldr_delete {V} (m : gmap jsstring V) (l : list jsstring) k :
  foldr delete m l !! k = if decide (k ∈ l) then None else m !! k.
Proof.
  induction l as [|x l IH]; simpl.
  - destruct (decide (k ∈ [])) as [H|]; [by apply elem_of_nil in H|done].
  - rewrite lookup_delete, IH.
    destruct (decide (x = k)) as [->|Hne].
    + rewrite decide_True; [done|by left].
    + destruct (decide (k ∈ l)) as [Hin|Hnin].
      * rewrite decide_True; [done|by right].
      * rewrite decide_False; [done|].
        intros [?|?]%elem_of_cons; congruence.
Qed.

Lemma elem_of_keys {V} (m : gmap jsstring V) k :
  k ∈ (map_to_list m).*1 ↔ is_Some (m !! k).
Proof.
  rewrite list_elem_of_fmap. split.
  - intros ([k' v] & -> & Hin). apply elem_of_map_to_list in Hin. by eexists.
  - intros [v Hv]. exists (k, v). split; [done|]. by apply elem_of_map_to_list.
Qed.

(** *** What each operation does to [rooms] and [userSockets] *)

Lemma cancelRoomCleanup_rooms roomId s :
  rooms (cancelRoomCleanup roomId s) = rooms s
  ∧ userSockets (cancelRoomCleanup roomId s) = userSockets s.
Proof. unfold cancelRoomCleanup. by case_bool_decide. Qed.

Lemma member_ext s s' :
  rooms s' = rooms s → ∀ roomId socketId,
  member s' roomId socketId ↔ member s roomId socketId.
Proof. intros E roomId socketId. unfold member. by rewrite E. Qed.

Lemma in_sync_ext s s' :
  rooms s' = rooms s → userSockets s' = userSockets s →
  in_sync s → in_sync s'.
Proof.
  intros Er Eu [HA HB]. split.
  - intros socketId e. rewrite Eu. intros He.
    apply (member_ext s s' Er). by apply HA.
  - intros socketId roomId Hm. rewrite Eu. apply HB.
    by apply (member_ext s s' Er).
Qed.

Lemma cancelRoomCleanup_in_sync roomId s :
  in_sync s → in_sync (cancelRoomCleanup roomId s).
Proof.
  destruct (cancelRoomCleanup_rooms roomId s). by apply in_sync_ext.
Qed.

Lemma destroyRoom_rooms roomId s r :
  rooms (destroyRoom roomId s) !! r =
    if decide (r = roomId) then None else rooms s !! r.
Proof.
  unfold destroyRoom. destruct (rooms s !! roomId) as [room|] eqn:E.
  - cbv zeta. rewrite (proj1 (cancelRoomCleanup_rooms _ _)).
    simpl. rewrite lookup_delete.
    destruct (decide (roomId = r)), (decide (r = roomId)); congruence.
  - destruct (decide (r = roomId)); congruence.
Qed.

Lemma destroyRoom_userSockets roomId s k :
  userSockets (destroyRoom roomId s) !! k =
    match rooms s !! roomId with
    | Some room =>
        if decide (is_Some (Room.users room !! k)) then None
        else userSockets s !! k
    | None => userSockets s !! k
    end.
Proof.
  unfold destroyRoom. destruct (rooms s !! roomId) as [room|] eqn:E; [|done].
  cbv zeta. rewrite (proj2 (cancelRoomCleanup_rooms _ _)).
  simpl. rewrite lookup_foldr_delete.
  destruct (decide (k ∈ _)) as [H|H], (decide (is_Some _)) as [H'|H'];
    try done; rewrite elem_of_keys in H; tauto.
Qed.

Lemma destroyRoom_in_sync roomId s :
  in_sync s → in_sync (destroyRoom roomId s).
Proof.
  intros [HA HB].
  destruct (rooms s !! roomId) as [room|] eqn:E;
    [|unfold destroyRoom; rewrite E; by split].
  assert (Hmem : ∀ r k, member (destroyRoom roomId s) r k
                        ↔ r ≠ roomId ∧ member s r k).
  { intros r k. unfold member. rewrite destroyRoom_rooms.
    destruct (decide (r = roomId)) as [->|Hne]; [|naive_solver].
    split; [by intros (? & ? & ?)|by intros [? _]]. }
  split.
  - intros k e. rewrite destroyRoom_userSockets, E.
    destruct (decide (is_Some (Room.users room !! k))) as [Hin|Hnin];
      [done|].
    intros He. apply Hmem. split; [|by apply HA].
    intros Heq. apply HA in He as (room' & Hroom' & Hk).
    rewrite Heq, E in Hroom'. by injection Hroom' as <-.
  - intros k r [Hne Hm]%Hmem.
    destruct (HB _ _ Hm) as (e & He & Hr). exists e. split; [|done].
    rewrite destroyRoom_userSockets, E.
    destruct (decide (is_Some (Room.users room !! k))) as [Hin|Hnin];
      [|done].
    destruct (HB k roomId) as (e' & He' & Hr'); [by exists room|].
    congruence.
Qed.

Lemma scheduleRoomCleanup_in_sync roomId s :
  in_sync s → in_sync (scheduleRoomCleanup cfg roomId s).
Proof.
  intros H. unfold scheduleRoomCleanup.
  apply (cancelRoomCleanup_in_sync roomId) in H.
  destruct (ROOM_CLEANUP_DELAY_MS cfg <=? 0).
  - by apply destroyRoom_in_sync.
  - by apply (in_sync_ext (cancelRoomCleanup roomId s)).
Qed.

Lemma scheduleRoomCleanup_rooms roomId s r :
  r ≠ roomId →
  rooms (scheduleRoomCleanup cfg roomId s) !! r = rooms s !! r.
Proof.
  intros Hne. unfold scheduleRoomCleanup.
  destruct (ROOM_CLEANUP_DELAY_MS cfg <=? 0).
  - rewrite destroyRoom_rooms, decide_False by done.
    by rewrite (proj1 (cancelRoomCleanup_rooms _ _)).
  - simpl. by rewrite (proj1 (cancelRoomCleanup_rooms _ _)).
Qed.

Lemma cleanupTimerFired_in_sync roomId s :
  in_sync s → in_sync (cleanupTimerFired roomId s).
Proof.
  intros H. unfold cleanupTimerFired. case_bool_decide; [|done].
  assert (H' : in_sync
    match rooms s !! roomId with
    | Some room => if Room.userCount room =? 0 then destroyRoom roomId s else s
    | None => s
    end).
  { destruct (rooms s !! roomId) as [room|]; [|done].
    destruct (Room.userCount room =? 0); [by apply destroyRoom_in_sync|done]. }
  revert H'. by apply in_sync_ext.
Qed.

(** The state of [leaveRoom] after its two [delete] calls. *)
Definition removed roomId socketId (room : Room.t) s : RoomManager.t :=
  set_userSockets
    (set_rooms s
       (<[roomId := Room.set_users room (delete socketId (Room.users room))]>
          (rooms s)))
    (delete socketId (userSockets s)).

Lemma leaveRoom_unfold roomId socketId s :
  leaveRoom cfg roomId socketId s =
    match rooms s !! roomId with
    | None => (None, s)
    | Some room =>
        match Room.users room !! socketId with
        | None => (None, s)
        | Some userInfo =>
            (Some userInfo,
             if Z.of_nat (size (delete socketId (Room.users room))) =? 0
             then scheduleRoomCleanup cfg roomId
                    (removed roomId socketId room s)
             else removed roomId socketId room s)
        end
    end.
Proof.
  unfold leaveRoom. destruct (rooms s !! roomId) as [room|]; [|done].
  by destruct (Room.users room !! socketId).
Qed.

Lemma removed_in_sync roomId socketId room s :
  rooms s !! roomId = Some room →
  is_Some (Room.users room !! socketId) →
  in_sync s → in_sync (removed roomId socketId room s).
Proof.
  intros E Hin [HA HB].
  assert (Hmem : ∀ r k, member (removed roomId socketId room s) r k
                        ↔ member s r k ∧ ¬ (r = roomId ∧ k = socketId)).
  { intros r k. unfold member, removed. simpl.
    destruct (decide (r = roomId)) as [->|Hne].
    - rewrite lookup_insert_eq, E. split.
      + intros (room' & [= <-] & Hk). simpl in Hk.
        rewrite lookup_delete in Hk. case_decide; [by destruct Hk|].
        split; [by exists room|]. intros [_ ?]. congruence.
      + intros [(room' & [= <-] & Hk) Hn]. eexists. split; [done|]. simpl.
        rewrite lookup_delete_ne; [done|]. intros ->. by apply Hn.
    - rewrite lookup_insert_ne by done. naive_solver. }
  split.
  - intros k e. unfold removed at 1. simpl. rewrite lookup_delete.
    case_decide as Hk; [done|]. intros He. apply Hmem.
    split; [by apply HA|]. intros [_ ->]. done.
  - intros k r [Hm Hn]%Hmem. destruct (HB _ _ Hm) as (e & He & Hr).
    exists e. split; [|done]. unfold removed. simpl.
    rewrite lookup_delete_ne; [done|]. intros <-.
    destruct (decide (r = roomId)) as [->|Hne]; [tauto|].
    destruct (HB socketId roomId) as (e1 & He1 & Hr1); [by exists room|].
    congruence.
Qed.

Lemma removed_rooms roomId socketId room s r :
  r ≠ roomId → rooms (removed roomId socketId room s) !! r = rooms s !! r.
Proof. intros Hne. unfold removed. simpl. by rewrite lookup_insert_ne. Qed.

Lemma leaveRoom_in_sync roomId socketId s :
  in_sync s → in_sync (leaveRoom cfg roomId socketId s).2.
Proof.
  intros H. rewrite leaveRoom_unfold.
  destruct (rooms s !! roomId) as [room|] eqn:E; [|done].
  destruct (Room.users room !! socketId) as [userInfo|] eqn:Eu; [|done].
  simpl. pose proof (removed_in_sync roomId socketId room s E
                       (mk_is_Some _ _ Eu) H) as H'.
  destruct (_ =? 0); [by apply scheduleRoomCleanup_in_sync|done].
Qed.

(** [leaveRoom] touches no other room than the one it is called for. *)
Lemma leaveRoom_other_room roomId socketId s r :
  r ≠ roomId →
  rooms (leaveRoom cfg roomId socketId s).2 !! r = rooms s !! r.
Proof.
  intros Hne. rewrite leaveRoom_unfold.
  destruct (rooms s !! roomId) as [room|] eqn:E; [|done].
  destruct (Room.users room !! socketId) as [userInfo|] eqn:Eu; [|done].
  simpl. destruct (_ =? 0).
  - rewrite scheduleRoomCleanup_rooms by done. by apply removed_rooms.
  - by apply removed_rooms.
Qed.

(** After [leaveRoom] of a member, the connection has no reverse entry. *)
Lemma leaveRoom_userSockets roomId socketId s :
  member s roomId socketId →
  userSockets (leaveRoom cfg roomId socketId s).2 !! socketId = None.
Proof.
  intros (room & E & [userInfo Eu]). rewrite leaveRoom_unfold, E, Eu. simpl.
  assert (Hrem : userSockets (removed roomId socketId room s) !! socketId
                 = None) by (unfold removed; simpl; apply lookup_delete_eq).
  destruct (_ =? 0); [|done].
  unfold scheduleRoomCleanup. destruct (_ <=? 0).
  - rewrite destroyRoom_userSockets.
    rewrite (proj1 (cancelRoomCleanup_rooms _ _)),
            (proj2 (cancelRoomCleanup_rooms _ _)).
    rewrite Hrem. by repeat case_match.
  - simpl. by rewrite (proj2 (cancelRoomCleanup_rooms _ _)).
Qed.

(** In-place changes that keep the keys of every [users] map and the room
    named by every reverse entry. *)
Lemma in_sync_same_shape s s' :
  (∀ r k, member s' r k ↔ member s r k) →
  (∀ k, SocketEntry.roomId <$> userSockets s' !! k
        = SocketEntry.roomId <$> userSockets s !! k) →
  in_sync s → in_sync s'.
Proof.
  intros Hm Hu [HA HB]. split.
  - intros k e He. apply Hm. specialize (Hu k). rewrite He in Hu. simpl in Hu.
    destruct (userSockets s !! k) as [e0|] eqn:E0; [|done].
    injection Hu as ->. by apply HA.
  - intros k r Hr%Hm. destruct (HB _ _ Hr) as (e & He & <-).
    specialize (Hu k). rewrite He in Hu. simpl in Hu.
    destruct (userSockets s' !! k) as [e'|]; [|done].
    injection Hu as Hu. by exists e'.
Qed.

(** The state of [joinRoom] after its two [set] calls. *)
Definition added roomId socketId (room : Room.t) (userInfo : UserInfo.t)
    (entry : SocketEntry.t) s : RoomManager.t :=
  set_userSockets
    (set_rooms s
       (<[roomId := Room.set_users room
                      (<[socketId := userInfo]> (Room.users room))]>
          (rooms s)))
    (<[socketId := entry]> (userSockets s)).

Lemma added_in_sync roomId socketId room userInfo entry s :
  rooms s !! roomId = Some room →
  userSockets s !! socketId = None →
  SocketEntry.roomId entry = roomId →
  in_sync s → in_sync (added roomId socketId room userInfo entry s).
Proof.
  intros E Hnone Hentry [HA HB].
  assert (Hmem : ∀ r k, member (added roomId socketId room userInfo entry s) r k
                        ↔ member s r k ∨ (r = roomId ∧ k = socketId)).
  { intros r k. unfold member, added. simpl.
    destruct (decide (r = roomId)) as [->|Hne].
    - rewrite lookup_insert_eq, E. split.
      + intros (room' & [= <-] & Hk). simpl in Hk.
        rewrite lookup_insert in Hk. case_decide; [by right|].
        left. by exists room.
      + intros Hk. eexists. split; [done|]. simpl.
        rewrite lookup_insert. case_decide; [done|].
        destruct Hk as [(room' & [= <-] & Hk)|[_ ?]]; [done|congruence].
    - rewrite lookup_insert_ne by done. naive_solver. }
  split.
  - intros k e. unfold added at 1. simpl. rewrite lookup_insert.
    case_decide as Hk.
    + intros [= <-]. apply Hmem. right. by subst.
    + intros He. apply Hmem. left. by apply HA.
  - intros k r [Hm|[-> ->]]%Hmem.
    + destruct (HB _ _ Hm) as (e & He & Hr). exists e. split; [|done].
      unfold added. simpl. rewrite lookup_insert_ne; [done|].
      intros <-. congruence.
    + exists entry. split; [|done]. unfold added. simpl.
      apply lookup_insert_eq.
Qed.

Lemma joinRoom_in_sync roomId socketId preferredName bits s :
  in_sync s → in_sync (joinRoom cfg roomId socketId preferredName bits s).2.
Proof.
  intros H. unfold joinRoom.
  destruct (rooms s !! roomId) as [room|] eqn:E; [|done].
  destruct (_ && _); [done|]. cbv zeta.
  pose proof (cancelRoomCleanup_in_sync roomId s H) as H1.
  destruct (cancelRoomCleanup_rooms roomId s) as [Er Eu].
  set (s1 := cancelRoomCleanup roomId s) in *.
  set (s2 := match userSockets s1 !! socketId with
             | Some e => _ | None => _ end).
  assert (H2 : in_sync s2 ∧ rooms s2 !! roomId = Some room
               ∧ (Room.users room !! socketId = None →
                  userSockets s2 !! socketId = None)).
  { subst s2. destruct (userSockets s1 !! socketId) as [e|] eqn:Ee.
    - case_bool_decide as Hr.
      + split; [by apply leaveRoom_in_sync|]. split.
        * rewrite leaveRoom_other_room by done. by rewrite Er.
        * intros _. apply leaveRoom_userSockets. by apply (proj1 H1).
      + split; [done|]. split; [by rewrite Er|].
        intros Hnone. apply (proj1 H1) in Ee as (room' & Hroom' & Hk).
        assert (SocketEntry.roomId e = roomId) as Heq
          by (destruct (decide (SocketEntry.roomId e = roomId)); tauto).
        rewrite Heq, Er, E in Hroom'. injection Hroom' as <-.
        rewrite Hnone in Hk. by destruct Hk.
    - split; [done|]. by rewrite Er. }
  clearbody s2. destruct H2 as (H2 & E2 & Hn2).
  destruct (Room.users room !! socketId) as [userInfo|] eqn:Ek; [done|].
  simpl. by apply added_in_sync; auto.
Qed.

Lemma handleDisconnect_in_sync socketId s :
  in_sync s → in_sync (handleDisconnect cfg socketId s).2.
Proof.
  intros H. unfold handleDisconnect.
  destruct (userSockets s !! socketId) as [e|]; [|done].
  pose proof (leaveRoom_in_sync (SocketEntry.roomId e) socketId s H) as H'.
  by destruct (leaveRoom cfg _ socketId s) as [[removedUser|] s'].
Qed.

Lemma updateUserName_in_sync socketId newName s :
  in_sync s → in_sync (updateUserName socketId newName s).2.
Proof.
  intros H. unfold updateUserName.
  destruct (sanitizeUserName newName) as [sanitizedName|]; [|done].
  destruct (negb _); [done|].
  destruct (userSockets s !! socketId) as [e|] eqn:Ee; [|done].
  destruct (rooms s !! SocketEntry.roomId e) as [room|] eqn:E; [|done].
  destruct (Room.users room !! socketId) as [roomUser|] eqn:Ek; [|done].
  simpl. revert H. apply in_sync_same_shape; simpl.
  - intros r k. unfold member. simpl.
    destruct (decide (r = SocketEntry.roomId e)) as [->|Hne].
    + rewrite lookup_insert_eq, E. split.
      * intros (room' & [= <-] & Hk). simpl in Hk. exists room.
        split; [done|]. rewrite lookup_insert in Hk.
        case_decide; [subst; by eexists|done].
      * intros (room' & [= <-] & Hk). eexists. split; [done|]. simpl.
        rewrite lookup_insert. by case_decide.
    + by rewrite lookup_insert_ne.
  - intros k. rewrite lookup_insert. case_decide; [subst|done].
    by rewrite Ee.
Qed.

Lemma generateRoomCode_loop_fresh fuel : ∀ attempts rnd i rs code,
  generateRoomCode_loop fuel attempts rnd i rs = Some (Ok code) →
  rs !! code = None.
Proof.
  induction fuel as [|fuel IH]; intros attempts rnd i rs code; simpl; [done|].
  destruct (_ >=? _); [done|].
  destruct (rs !! Number_toString _) eqn:E; [by apply IH|].
  by intros [= <-].
Qed.

Lemma generateRoomCode_fresh rnd rs code :
  generateRoomCode rnd rs = Ok code → rs !! code = None.
Proof.
  unfold generateRoomCode.
  destruct (generateRoomCode_loop _ _ _ _ _) as [r|] eqn:E; [|done].
  intros ->. by eapply generateRoomCode_loop_fresh.
Qed.

Lemma createRoom_in_sync now rnd s :
  in_sync s → in_sync (createRoom cfg now rnd s).2.
Proof.
  intros H. unfold createRoom. destruct (_ && _); [done|].
  destruct (generateRoomCode rnd (rooms s)) as [code|] eqn:E; [|done].
  apply generateRoomCode_fresh in E. simpl.
  revert H. apply in_sync_same_shape; [|done].
  intros r k. unfold member. simpl.
  destruct (decide (r = code)) as [->|Hne].
  - rewrite lookup_insert_eq, E. split.
    + intros (room' & [= <-] & Hk). simpl in Hk.
      rewrite lookup_empty in Hk. by destruct Hk.
    + by intros (? & ? & _).
  - by rewrite lookup_insert_ne.
Qed.

Lemma addMessage_in_sync fuel roomId message s s' :
  addMessage cfg fuel roomId message s = Some s' →
  in_sync s → in_sync s'.
Proof.
  unfold addMessage.
  destruct (rooms s !! roomId) as [room|] eqn:E; [|by intros [= <-]].
  destruct (shift_while cfg fuel _) as [ms|]; [|done]. simpl.
  intros [= <-]. apply in_sync_same_shape; [|done].
  intros r k. unfold member. simpl.
  destruct (decide (r = roomId)) as [->|Hne].
  - rewrite lookup_insert_eq, E. split.
    + intros (room' & [= <-] & Hk). by exists room.
    + intros (room' & [= <-] & Hk). by eexists.
  - by rewrite lookup_insert_ne.
Qed.

Lemma new_in_sync : in_sync RoomManager.new.
Proof.
  split.
  - intros k e. unfold RoomManager.new. simpl. by rewrite lookup_empty.
  - intros k r (room & Hroom & _). simpl in Hroom.
    by rewrite lookup_empty in Hroom.
Qed.

Lemma step_in_sync s op : in_sync s → in_sync (step cfg s op).
Proof.
  destruct op; simpl.
  - apply createRoom_in_sync.
  - apply joinRoom_in_sync.
  - apply leaveRoom_in_sync.
  - apply handleDisconnect_in_sync.
  - apply destroyRoom_in_sync.
  - apply updateUserName_in_sync.
  - apply cleanupTimerFired_in_sync.
Qed.

Lemma run_in_sync ops : in_sync (run cfg ops).
Proof.
  unfold run. induction ops as [|op ops IH] using rev_ind.
  - apply new_in_sync.
  - rewrite foldl_app. simpl. by apply step_in_sync.
Qed.

(** *** [joinRoom]: failures and re-joining *)

(** The branch of [joinRoom] for a connection that is already in the room
    ('reconnection scenario') comes after the capacity guard.  When the
    guard passes ([MAX_USERS <= 0], or the room has fewer than [MAX_USERS]
    members), the branch returns the existing participant and leaves the
    room as it was; from a state in which the reverse index is in sync,
    every room and the whole reverse index are left as they were. *)
Theorem joinRoom_again_below_ceiling
    roomId socketId preferredName bits s room userInfo :
  rooms s !! roomId = Some room →
  Room.users room !! socketId = Some userInfo →
  ROOM_MAX_USERS cfg <= 0 ∨ Room.userCount room < ROOM_MAX_USERS cfg →
  let r := joinRoom cfg roomId socketId preferredName bits s in
  r.1 = Ok userInfo
  ∧ rooms r.2 !! roomId = Some room
  ∧ (in_sync s → rooms r.2 = rooms s ∧ userSockets r.2 = userSockets s).
Proof.
  intros E Ek Hcap. unfold joinRoom. rewrite E.
  assert ((ROOM_MAX_USERS cfg >? 0)
          && (Room.userCount room >=? ROOM_MAX_USERS cfg) = false) as ->.
  { apply andb_false_iff. rewrite Z.gtb_ltb, Z.geb_leb.
    rewrite Z.ltb_ge, Z.leb_gt. lia. }
  cbv zeta. rewrite Ek. simpl.
  destruct (cancelRoomCleanup_rooms roomId s) as [Er Eu].
  split; [done|]. rewrite Eu.
  destruct (userSockets s !! socketId) as [e|] eqn:Ee.
  - case_bool_decide as Hr.
    + split.
      * rewrite leaveRoom_other_room by done. by rewrite Er.
      * intros [HA HB]. exfalso. apply Hr.
        destruct (HB socketId roomId) as (e' & He' & <-);
          [by exists room|]. congruence.
    + split; [by rewrite Er|done].
  - split; [by rewrite Er|done].
Qed.

End RoomManagerFacts.

(** C1.  After any sequence of room-manager operations ([createRoom],
    [joinRoom], [leaveRoom], [handleDisconnect], [destroyRoom],
    [updateUserName], and the expiry of a cleanup timeout) on a new manager,
    for every connection: [userSockets] has an entry if and only if exactly
    one live room has the connection as a key of its [users] map, the
    entry's [roomId] names that room, and every key of a room's [users] map
    has such an entry. *)
Theorem reverse_index_consistent
    (cfg : Config) (ops : list RoomManager.operation) :
  consistent (RoomManager.run cfg ops) ∧ in_sync (RoomManager.run cfg ops).
Proof.
  split; [apply in_sync_consistent|]; apply run_in_sync.
Qed.

(** C7.  [joinRoom] on a code that is not a key of [rooms] throws
    'Room not found'; on a live room whose [users.size] has reached
    [MAX_USERS > 0] it throws 'Room is full'; in both cases the manager is
    left exactly as it was, so no membership is created. *)
Theorem joinRoom_not_found_or_full
    (cfg : Config) (roomId socketId : jsstring) (preferredName : value)
    (bits : Z) (s : RoomManager.t) :
  (RoomManager.rooms s !! roomId = None →
   RoomManager.joinRoom cfg roomId socketId preferredName bits s
   = (Throw RoomManager.err_not_found, s))
  ∧ (∀ room, RoomManager.rooms s !! roomId = Some room →
       ROOM_MAX_USERS cfg > 0 →
       Room.userCount room >= ROOM_MAX_USERS cfg →
       RoomManager.joinRoom cfg roomId socketId preferredName bits s
       = (Throw RoomManager.err_full, s)).
Proof.
  unfold RoomManager.joinRoom. split.
  - by intros ->.
  - intros room -> Hpos Hfull.
    destruct (Z.gtb_spec (ROOM_MAX_USERS cfg) 0); [|lia].
    rewrite Z.geb_leb.
    destruct (Z.leb_spec (ROOM_MAX_USERS cfg) (Room.userCount room)); [|lia].
    reflexivity.
Qed.

(** ** Concrete states *)

Definition sock (n : nat) : jsstring :=
  lit "socket-" ++ Number_toString (Z.of_nat n).

(** A room "1000" that holds the connections [sock 0 .. sock (n-1)]. *)
Definition room_of (cfg : Config) (n : nat) : RoomManager.t :=
  RoomManager.run cfg
    (RoomManager.CreateRoom 0 (λ _, 0)
     :: map (λ i, RoomManager.JoinRoom (lit "1000") (sock i) VNull 0)
            (seq 0 n)).

Lemma joinRoom_not_found_or_full_witness :
  RoomManager.joinRoom default_config (lit "1000") (sock 50) VNull 0
    RoomManager.new
  = (Throw RoomManager.err_not_found, RoomManager.new)
  ∧ RoomManager.joinRoom default_config (lit "1000") (sock 50) VNull 0
      (room_of default_config 50)
    = (Throw RoomManager.err_full, room_of default_config 50).
Proof.
  split.
  - apply (joinRoom_not_found_or_full default_config (lit "1000") (sock 50)
             VNull 0 RoomManager.new).
    reflexivity.
  - apply (proj2 (joinRoom_not_found_or_full default_config (lit "1000")
                    (sock 50) VNull 0 (room_of default_config 50))
             (default {| Room.id := []; Room.users := ∅;
                         Room.createdAt := 0; Room.messages := [] |}
                (RoomManager.rooms (room_of default_config 50)
                   !! lit "1000"))).
    + vm_compute. reflexivity.
    + reflexivity.
    + vm_compute. discriminate.
Defined.

Lemma joinRoom_again_below_ceiling_witness :
  let s := room_of default_config 2 in
  let userInfo := {| UserInfo.id := lit "user_socket-0";
                     UserInfo.name := lit "User_1000" |} in
  let r := RoomManager.joinRoom default_config (lit "1000") (sock 0)
             (VString (lit "Mallory")) 7 s in
  r.1 = Ok userInfo
  ∧ RoomManager.rooms r.2 !! lit "1000"
    = Some {| Room.id := lit "1000";
              Room.users := <[sock 0 := userInfo]>
                              (<[sock 1 := {| UserInfo.id := lit "user_socket-1";
                                              UserInfo.name := lit "User_1000" |}]> ∅);
              Room.createdAt := 0; Room.messages := [] |}
  ∧ (in_sync s → RoomManager.rooms r.2 = RoomManager.rooms s
                 ∧ RoomManager.userSockets r.2 = RoomManager.userSockets s).
Proof.
  apply (joinRoom_again_below_ceiling default_config (lit "1000") (sock 0)
           (VString (lit "Mallory")) 7 (room_of default_config 2)).
  - vm_compute. reflexivity.
  - vm_compute. reflexivity.
  - right. vm_compute. reflexivity.
Defined.

(** C2, at the failing input.  The room "1000" holds [MAX_USERS = 50]
    members and [sock 0] is one of them.  Its second [joinRoom] does not
    reach the branch that returns the existing participant: the capacity
    guard, which stands before that branch, throws 'Room is full', and the
    join-room handler answers the member with that error. *)
Lemma joinRoom_again_at_ceiling :
  let s := room_of default_config 50 in
  let srv := Socket.set_roomManager (Socket.init default_config) s in
  member s (lit "1000") (sock 0)
  ∧ RoomManager.getRoomUserCount (lit "1000") s
    = ROOM_MAX_USERS default_config
  ∧ RoomManager.joinRoom default_config (lit "1000") (sock 0) VNull 0 s
    = (Throw RoomManager.err_full, s)
  ∧ (Socket.on_join_room default_config (sock 0) 5 (lit "k3j9x0q1z") 0
       (VString (lit "1000")) true srv).2
    = [Socket.ConsoleError (lit "[Socket] Error joining room:")
         (lit "Room is full");
       Socket.Callback (Socket.ack_error (lit "Room is full"))].
Proof.
  split; [|split; [|split]].
  - exists (default {| Room.id := []; Room.users := ∅;
                       Room.createdAt := 0; Room.messages := [] |}
              (RoomManager.rooms (room_of default_config 50) !! lit "1000")).
    split.
    + vm_compute. reflexivity.
    + vm_compute. eexists. reflexivity.
  - vm_compute. reflexivity.
  - vm_compute. reflexivity.
  - vm_compute. reflexivity.
Qed.

(** ** Room codes *)

(** *** The two roundings of [random_4digit] *)

Lemma round53_exact n : n < 2 ^ 53 → round53 n = n.
Proof. intros Hn. unfold round53. by rewrite (proj2 (Z.ltb_lt _ _) Hn). Qed.

(** In the binade [2^(52+shift) <= n < 2^(53+shift)] a double is a
    multiple of [2^shift]. *)
Lemma round53_binade n shift :
  0 < shift → 2 ^ (52 + shift) <= n < 2 ^ (53 + shift) →
  round53 n =
    (if (2 ^ (shift - 1) <? n mod 2 ^ shift)
        || ((n mod 2 ^ shift =? 2 ^ (shift - 1)) && Z.odd (n / 2 ^ shift))
     then n / 2 ^ shift + 1 else n / 2 ^ shift) * 2 ^ shift.
Proof.
  intros Hshift [Hlo Hhi]. unfold round53.
  assert (2 ^ 53 <= 2 ^ (52 + shift)) by (apply Z.pow_le_mono_r; lia).
  rewrite (proj2 (Z.ltb_ge _ _)) by lia.
  assert (Z.log2 n = 52 + shift) as ->.
  { apply Z.log2_unique; [lia|]. split; [done|].
    by replace (Z.succ (52 + shift)) with (53 + shift) by lia. }
  cbv zeta. by replace (52 + shift - 52) with shift by lia.
Qed.

(** A number in a binade is rounded to a double of that binade or to the
    first one of the next. *)
Lemma round53_within n shift :
  0 < shift → 2 ^ (52 + shift) <= n < 2 ^ (53 + shift) →
  2 ^ (52 + shift) <= round53 n <= 2 ^ (53 + shift).
Proof.
  intros Hshift Hn. rewrite (round53_binade n shift) by done.
  assert (0 < 2 ^ shift) as Hpos by (apply Z.pow_pos_nonneg; lia).
  assert (2 ^ (52 + shift) = 2 ^ 52 * 2 ^ shift) as E52
    by (apply Z.pow_add_r; lia).
  assert (2 ^ (53 + shift) = 2 ^ 53 * 2 ^ shift) as E53
    by (apply Z.pow_add_r; lia).
  rewrite E52, E53 in *.
  assert (2 ^ 52 <= n / 2 ^ shift) by (apply Z.div_le_lower_bound; lia).
  assert (n / 2 ^ shift < 2 ^ 53) by (apply Z.div_lt_upper_bound; lia).
  destruct (_ || _); split; apply Z.mul_le_mono_nonneg_r; lia.
Qed.

(** Rounding keeps a number on its side of a double [c = c' * 2^shift] of
    its binade. *)
Lemma round53_above n shift c' :
  0 < shift → 2 ^ (52 + shift) <= n < 2 ^ (53 + shift) →
  c' * 2 ^ shift <= n → c' * 2 ^ shift <= round53 n.
Proof.
  intros Hshift Hn Hc. rewrite (round53_binade n shift) by done.
  assert (0 < 2 ^ shift) as Hpos by (apply Z.pow_pos_nonneg; lia).
  assert (c' <= n / 2 ^ shift) by (apply Z.div_le_lower_bound; lia).
  destruct (_ || _); apply Z.mul_le_mono_nonneg_r; lia.
Qed.

Lemma round53_below n shift c' :
  0 < shift → 2 ^ (52 + shift) <= n < 2 ^ (53 + shift) →
  n <= c' * 2 ^ shift → round53 n <= c' * 2 ^ shift.
Proof.
  intros Hshift Hn Hc. rewrite (round53_binade n shift) by done.
  assert (0 < 2 ^ shift) as Hpos by (apply Z.pow_pos_nonneg; lia).
  assert (0 < 2 ^ (shift - 1)) as Hhalf by (apply Z.pow_pos_nonneg; lia).
  pose proof (Z.div_mod n (2 ^ shift) ltac:(lia)) as Hdiv.
  pose proof (Z.mod_pos_bound n (2 ^ shift) Hpos) as Hmod.
  destruct (_ || _) eqn:Eup; apply Z.mul_le_mono_nonneg_r; try lia.
  - assert (0 < n mod 2 ^ shift) as Hr.
    { apply orb_true_iff in Eup as [Hgt|[Heq _]%andb_true_iff].
      - apply Z.ltb_lt in Hgt. lia.
      - apply Z.eqb_eq in Heq. lia. }
    assert (n / 2 ^ shift < c'); [|lia].
    apply Z.div_lt_upper_bound; [done|].
    destruct (Z.eq_dec n (c' * 2 ^ shift)) as [->|]; [|lia].
    rewrite Z.mod_mul in Hr by lia. lia.
  - apply Z.div_le_upper_bound; [done|]. lia.
Qed.

(** The product [Math.random() * 9000] is a double below [9000]: the
    largest draw gives [9000 - 9000 / 2^53], which is rounded down to
    [9000 - 2^-39]. *)
Lemma product_range random :
  0 <= random < 2 ^ 53 →
  0 <= round53 (random * 9000) <= 9000 * 2 ^ 53 - 2 ^ 14.
Proof.
  intros Hrandom. set (n := random * 9000).
  assert (0 <= n <= 9000 * 2 ^ 53 - 9000) as Hn by (subst n; lia).
  destruct (Z.lt_ge_cases n (2 ^ 53)) as [Hsmall|Hbig].
  { rewrite round53_exact by done. lia. }
  destruct (Z.lt_ge_cases n (2 ^ 66)) as [Hlow|Htop].
  - assert (53 <= Z.log2 n < 66) as Hlog.
    { split; [by apply Z.log2_le_pow2; lia|by apply Z.log2_lt_pow2; lia]. }
    pose proof (Z.log2_spec n ltac:(lia)) as Hspec.
    pose proof (round53_within n (Z.log2 n - 52) ltac:(lia)) as Hr.
    replace (52 + (Z.log2 n - 52)) with (Z.log2 n) in Hr by lia.
    replace (53 + (Z.log2 n - 52)) with (Z.succ (Z.log2 n)) in Hr by lia.
    specialize (Hr Hspec).
    assert (2 ^ Z.succ (Z.log2 n) <= 2 ^ 66)
      by (apply Z.pow_le_mono_r; lia).
    lia.
  - pose proof (round53_within n 14 ltac:(lia) ltac:(lia)) as Hr.
    split; [lia|].
    change (9000 * 2 ^ 53 - 2 ^ 14) with ((9000 * 2 ^ 39 - 1) * 2 ^ 14).
    rewrite (round53_binade n 14) by lia.
    pose proof (Z.div_mod n (2 ^ 14) ltac:(lia)) as Hdiv.
    pose proof (Z.mod_pos_bound n (2 ^ 14) ltac:(lia)) as Hmod.
    apply Z.mul_le_mono_nonneg_r; [lia|].
    destruct (_ || _) eqn:Eup; [|lia].
    assert (2 ^ (14 - 1) <= n mod 2 ^ 14) as Hr'.
    { apply orb_true_iff in Eup as [Hgt|[Heq _]%andb_true_iff].
      - apply Z.ltb_lt in Hgt. lia.
      - apply Z.eqb_eq in Heq. lia. }
    lia.
Qed.

(** The sum [1000 + product] is a double from [1000] to [10000 - 2^-39]. *)
Lemma sum_range product :
  0 <= product <= 9000 * 2 ^ 53 - 2 ^ 14 →
  1000 * 2 ^ 53 <= round53 (1000 * 2 ^ 53 + product)
                <= 10000 * 2 ^ 53 - 2 ^ 14.
Proof.
  intros Hproduct. set (m := 1000 * 2 ^ 53 + product).
  assert (1000 * 2 ^ 53 <= m <= 10000 * 2 ^ 53 - 2 ^ 14) as Hm
    by (subst m; lia).
  assert (∃ shift, 10 <= shift <= 14
                   ∧ 2 ^ (52 + shift) <= m < 2 ^ (53 + shift))
    as (shift & Hshift & Hbinade).
  { exists (Z.log2 m - 52).
    assert (62 <= Z.log2 m < 67) as Hlog.
    { split; [by apply Z.log2_le_pow2; lia|by apply Z.log2_lt_pow2; lia]. }
    split; [lia|].
    replace (52 + (Z.log2 m - 52)) with (Z.log2 m) by lia.
    replace (53 + (Z.log2 m - 52)) with (Z.succ (Z.log2 m)) by lia.
    apply Z.log2_spec. lia. }
  assert (2 ^ 14 = 2 ^ (14 - shift) * 2 ^ shift) as E14
    by (rewrite <- Z.pow_add_r by lia; f_equal; lia).
  assert (2 ^ 53 = 2 ^ (53 - shift) * 2 ^ shift) as E53
    by (rewrite <- Z.pow_add_r by lia; f_equal; lia).
  split.
  - replace (1000 * 2 ^ 53) with (1000 * 2 ^ (53 - shift) * 2 ^ shift)
      by lia.
    apply round53_above; [lia|done|lia].
  - replace (10000 * 2 ^ 53 - 2 ^ 14)
      with ((10000 * 2 ^ (53 - shift) - 2 ^ (14 - shift)) * 2 ^ shift)
      by lia.
    apply round53_below; [lia|done|lia].
Qed.

Lemma random_4digit_range bits : 1000 <= random_4digit bits <= 9999.
Proof.
  unfold random_4digit. cbv zeta.
  pose proof (Z.mod_pos_bound bits (2 ^ 53) eq_refl) as Hrandom.
  pose proof (sum_range _ (product_range _ Hrandom)) as [Hlo Hhi].
  split.
  - apply Z.div_le_lower_bound; lia.
  - assert (round53 (1000 * 2 ^ 53 + round53 (bits mod 2 ^ 53 * 9000))
              / 2 ^ 53 < 10000); [|lia].
    apply Z.div_lt_upper_bound; lia.
Qed.

(** The exact quotient [1000 + floor(9000 k / 2^53)] is not what the
    doubles give: for this draw the product is rounded up across 25. *)
Example random_4digit_rounds_up :
  random_4digit 25019997929836 = 1025
  ∧ 1000 + 9000 * 25019997929836 / 2 ^ 53 = 1024.
Proof. split; vm_compute; reflexivity. Qed.

Lemma is_digit_mod10 x : is_digit (Z.to_N (48 + x mod 10)) = true.
Proof.
  pose proof (Z.mod_pos_bound x 10 eq_refl) as [Hlo Hhi].
  unfold is_digit. apply andb_true_iff.
  split; apply N.leb_le; lia.
Qed.

Lemma digits_4 fuel n :
  1000 <= n <= 9999 →
  digits (S (S (S fuel))) n []
  = [Z.to_N (48 + (n / 10 / 10 / 10) mod 10);
     Z.to_N (48 + (n / 10 / 10) mod 10);
     Z.to_N (48 + (n / 10) mod 10);
     Z.to_N (48 + n mod 10)].
Proof.
  intros Hn.
  assert (100 <= n / 10 < 1000)
    by (split; [apply Z.div_le_lower_bound|apply Z.div_lt_upper_bound]; lia).
  assert (10 <= n / 10 / 10 < 100)
    by (split; [apply Z.div_le_lower_bound|apply Z.div_lt_upper_bound]; lia).
  assert (1 <= n / 10 / 10 / 10 < 10)
    by (split; [apply Z.div_le_lower_bound|apply Z.div_lt_upper_bound]; lia).
  assert (n / 10 / 10 / 10 / 10 = 0) as Hend by (apply Z.div_small; lia).
  destruct fuel as [|fuel]; cbn [digits];
    destruct (Z.eqb_spec (n / 10) 0); try lia;
    destruct (Z.eqb_spec (n / 10 / 10) 0); try lia;
    destruct (Z.eqb_spec (n / 10 / 10 / 10) 0); try lia;
    rewrite ?Hend; done.
Qed.

Lemma Number_toString_4digits n :
  1000 <= n <= 9999 → test_4digits (Number_toString n) = true.
Proof.
  intros Hn. unfold Number_toString.
  destruct (Z.ltb_spec n 0); [lia|].
  assert (Hlog : 9 <= Z.log2 n)
    by (change 9 with (Z.log2 1000); apply Z.log2_le_mono; lia).
  destruct (Z.to_nat (Z.log2 n)) as [|[|[|fuel]]] eqn:Ef; try lia.
  rewrite digits_4 by done.
  unfold test_4digits. simpl. by rewrite !is_digit_mod10.
Qed.

(** The code made from the [i]-th draw. *)
Definition code_at (rnd : nat → Z) (i : nat) : jsstring :=
  Number_toString (random_4digit (rnd i)).

(** The first of the draws [i, i+1, ..., i+n-1] whose code is free. *)
Fixpoint first_free (rnd : nat → Z) (rooms : gmap jsstring Room.t)
    (i n : nat) : option nat :=
  match n with
  | O => None
  | S n' =>
      match rooms !! code_at rnd i with
      | None => Some i
      | Some _ => first_free rnd rooms (S i) n'
      end
  end.

Lemma first_free_spec rnd rooms n : ∀ i j,
  first_free rnd rooms i n = Some j →
  (i <= j < i + n)%nat ∧ rooms !! code_at rnd j = None
  ∧ ∀ k, (i <= k < j)%nat → is_Some (rooms !! code_at rnd k).
Proof.
  induction n as [|n IH]; intros i j; simpl; [done|].
  destruct (rooms !! code_at rnd i) as [room|] eqn:E.
  - intros (Hj & Hfree & Hbusy)%IH. split; [lia|]. split; [done|].
    intros k Hk. destruct (decide (k = i)) as [->|]; [by eexists|].
    apply Hbusy. lia.
  - intros [= <-]. split; [lia|]. split; [done|]. intros k Hk. lia.
Qed.

Lemma first_free_none rnd rooms n : ∀ i,
  first_free rnd rooms i n = None →
  ∀ k, (i <= k < i + n)%nat → is_Some (rooms !! code_at rnd k).
Proof.
  induction n as [|n IH]; intros i; simpl; [intros _ k Hk; lia|].
  destruct (rooms !! code_at rnd i) as [room|] eqn:E; [|done].
  intros Hnone k Hk. destruct (decide (k = i)) as [->|]; [by eexists|].
  apply (IH (S i) Hnone). lia.
Qed.

(** The loop of [generateRoomCode] with [n] usable attempts left: it uses
    the first free code among the next [n] draws and throws otherwise (the
    draw made in the throwing iteration is never looked up). *)
Lemma generateRoomCode_loop_spec rnd rooms n : ∀ fuel attempts i,
  attempts = RoomManager.maxAttempts - 1 - Z.of_nat n →
  (n < fuel)%nat →
  RoomManager.generateRoomCode_loop fuel attempts rnd i rooms =
    Some match first_free rnd rooms i n with
         | Some j => Ok (code_at rnd j)
         | None => Throw RoomManager.err_code_space
         end.
Proof.
  unfold RoomManager.maxAttempts.
  induction n as [|n IH]; intros fuel attempts i Ha Hfuel;
    (destruct fuel as [|fuel]; [lia|]); simpl.
  - unfold RoomManager.maxAttempts. rewrite Z.geb_leb.
    destruct (Z.leb_spec 100 (attempts + 1)); [done|lia].
  - unfold RoomManager.maxAttempts. rewrite Z.geb_leb.
    destruct (Z.leb_spec 100 (attempts + 1)); [lia|].
    fold (code_at rnd i).
    destruct (rooms !! code_at rnd i); [|done].
    apply IH; lia.
Qed.

Lemma generateRoomCode_spec rnd rooms :
  RoomManager.generateRoomCode rnd rooms =
    match first_free rnd rooms 0 99 with
    | Some j => Ok (code_at rnd j)
    | None => Throw RoomManager.err_code_space
    end.
Proof.
  unfold RoomManager.generateRoomCode.
  rewrite (generateRoomCode_loop_spec rnd rooms 99);
    [done|done|unfold RoomManager.maxAttempts; lia].
Qed.

(** C4 (amended).  The loop of [generateRoomCode] ends within 100
    iterations whatever the draws are.  [createRoom] throws 'Server at
    capacity...' and changes nothing when [MAX_ROOMS > 0] and [rooms.size]
    has reached it; otherwise, if one of the first 99 draws gives a code
    that is not a key of [rooms], it stores and returns a new empty room
    whose code is the first such code, a string of four digits that is the
    decimal form of a number between 1000 and 9999, both included; and if
    all of them collide it throws 'Unable to generate unique room code...'
    and changes nothing. *)
Theorem createRoom_outcomes
    (cfg : Config) (now : Z) (rnd : nat → Z) (s : RoomManager.t) :
  (∀ fuel, (100 <= fuel)%nat →
     RoomManager.generateRoomCode_loop fuel 0 rnd 0 (RoomManager.rooms s)
     = Some (RoomManager.generateRoomCode rnd (RoomManager.rooms s)))
  ∧ let r := RoomManager.createRoom cfg now rnd s in
    if (ROOM_MAX_ROOMS cfg >? 0)
       && (Z.of_nat (size (RoomManager.rooms s)) >=? ROOM_MAX_ROOMS cfg)
    then r = (Throw RoomManager.err_capacity, s)
    else
      match first_free rnd (RoomManager.rooms s) 0 99 with
      | None => r = (Throw RoomManager.err_code_space, s)
      | Some j =>
          let code := code_at rnd j in
          let room := {| Room.id := code; Room.users := ∅;
                         Room.createdAt := now; Room.messages := [] |} in
          (j < 99)%nat
          ∧ (∀ k, (k < j)%nat →
                  is_Some (RoomManager.rooms s !! code_at rnd k))
          ∧ RoomManager.rooms s !! code = None
          ∧ 1000 <= random_4digit (rnd j) <= 9999
          ∧ code = Number_toString (random_4digit (rnd j))
          ∧ test_4digits code = true
          ∧ r = (Ok room,
                 RoomManager.set_rooms s
                   (<[code := room]> (RoomManager.rooms s)))
      end.
Proof.
  split.
  - intros fuel Hfuel. rewrite generateRoomCode_spec.
    apply generateRoomCode_loop_spec; [done|lia].
  - unfold RoomManager.createRoom. destruct (_ && _); [done|].
    rewrite generateRoomCode_spec.
    destruct (first_free rnd (RoomManager.rooms s) 0 99) as [j|] eqn:E;
      [|done].
    apply first_free_spec in E as (Hj & Hfree & Hbusy). simpl.
    split; [lia|]. split; [intros k Hk; apply Hbusy; lia|].
    split; [done|]. split; [apply random_4digit_range|].
    split; [done|]. split; [|done].
    apply Number_toString_4digits, random_4digit_range.
Qed.

Lemma createRoom_outcomes_witness :
  RoomManager.generateRoomCode_loop 100 0 (λ i, Z.of_nat i * 2 ^ 40) 0
    (RoomManager.rooms (room_of default_config 1))
  = Some (RoomManager.generateRoomCode (λ i, Z.of_nat i * 2 ^ 40)
            (RoomManager.rooms (room_of default_config 1))).
Proof.
  apply (proj1 (createRoom_outcomes default_config 0
                  (λ i, Z.of_nat i * 2 ^ 40) (room_of default_config 1))).
  lia.
Defined.

(** C4, as stated, fails: the largest draw gives the code "9999", which is
    outside the range [1000, 9999). *)
Lemma createRoom_code_9999 :
  ∃ room,
    (RoomManager.createRoom default_config 0 (λ _, 2 ^ 53 - 1)
       RoomManager.new).1 = Ok room
    ∧ Room.id room = Number_toString 9999
    ∧ ¬ (1000 <= 9999 < 9999).
Proof.
  eexists. split; [vm_compute; reflexivity|]. split; [reflexivity|lia].
Qed.

(** ** Message history *)

(** The last [n] elements of a list. *)
Definition most_recent {A} (n : nat) (l : list A) : list A :=
  drop (List.length l - n) l.

Lemma most_recent_snoc {A} (n : nat) (l : list A) (x : A) :
  most_recent n (most_recent n l ++ [x]) = most_recent n (l ++ [x]).
Proof.
  unfold most_recent. rewrite !length_app, length_drop. simpl.
  destruct (decide (List.length l <= n)%nat) as [Hle|Hgt].
  - replace (List.length l - n)%nat with 0%nat by lia. simpl.
    by rewrite Nat.sub_0_r.
  - destruct (decide (n = 0)%nat) as [->|Hn].
    + rewrite !Nat.sub_0_r.
      rewrite !drop_ge; [done| |]; rewrite ?length_app, ?length_drop;
        simpl; lia.
    + rewrite drop_app_le by (rewrite length_drop; lia).
      rewrite drop_drop.
      rewrite (drop_app_le l) by lia.
      do 2 f_equal. lia.
Qed.

Lemma most_recent_length {A} (n : nat) (l : list A) :
  List.length (most_recent n l) = Nat.min n (List.length l).
Proof. unfold most_recent. rewrite length_drop. lia. Qed.

Section History.
Context (cfg : Config).

Let limit : nat := Z.to_nat (MESSAGE_HISTORY_LIMIT cfg).

Lemma shift_while_spec fuel : ∀ messages,
  0 <= MESSAGE_HISTORY_LIMIT cfg →
  (List.length messages - limit <= fuel)%nat →
  RoomManager.shift_while cfg fuel messages
  = Some (most_recent limit messages).
Proof.
  unfold most_recent.
  induction fuel as [|fuel IH]; intros messages Hlim Hfuel; simpl;
    rewrite Z.gtb_ltb;
    destruct (Z.ltb_spec (MESSAGE_HISTORY_LIMIT cfg)
                (Z.of_nat (List.length messages))) as [Hlt|Hge].
  - subst limit. lia.
  - replace (List.length messages - limit)%nat with 0%nat
      by (subst limit; lia). done.
  - destruct messages as [|m messages]; [simpl in Hlt; lia|]. simpl tail.
    rewrite IH; [|done|simpl in Hfuel; lia]. f_equal.
    replace (List.length (m :: messages) - limit)%nat
      with (S (List.length messages - limit))
      by (simpl; subst limit; simpl in Hlt; lia).
    done.
  - replace (List.length messages - limit)%nat with 0%nat
      by (subst limit; lia). done.
Qed.

(** With a negative limit the loop never ends. *)
Lemma shift_while_negative_limit fuel : ∀ messages,
  MESSAGE_HISTORY_LIMIT cfg < 0 →
  RoomManager.shift_while cfg fuel messages = None.
Proof.
  induction fuel as [|fuel IH]; intros messages Hneg; simpl;
    rewrite Z.gtb_ltb;
    destruct (Z.ltb_spec (MESSAGE_HISTORY_LIMIT cfg)
                (Z.of_nat (List.length messages))); try lia; auto.
Qed.

Lemma addMessage_spec fuel roomId message s room :
  0 <= MESSAGE_HISTORY_LIMIT cfg →
  (List.length (Room.messages room) + 1 - limit <= fuel)%nat →
  RoomManager.rooms s !! roomId = Some room →
  RoomManager.addMessage cfg fuel roomId message s
  = Some (RoomManager.set_rooms s
            (<[roomId := Room.set_messages room
                           (most_recent limit
                              (Room.messages room ++ [message]))]>
               (RoomManager.rooms s))).
Proof.
  intros Hlim Hfuel E. unfold RoomManager.addMessage. rewrite E.
  rewrite shift_while_spec; [done|done|].
  rewrite length_app. simpl. done.
Qed.

Lemma addMessages_spec fuel roomId messages : ∀ s room earlier,
  0 <= MESSAGE_HISTORY_LIMIT cfg →
  (1 <= fuel)%nat →
  RoomManager.rooms s !! roomId = Some room →
  Room.messages room = most_recent limit earlier →
  ∃ s', RoomManager.addMessages cfg fuel roomId messages s = Some s'
        ∧ RoomManager.rooms s' !! roomId
          = Some (Room.set_messages room
                    (most_recent limit (earlier ++ messages))).
Proof.
  induction messages as [|m messages IH]; intros s room earlier Hlim Hfuel E Hm.
  - exists s. split; [done|]. rewrite app_nil_r, <- Hm, E.
    by destruct room.
  - simpl. rewrite (addMessage_spec fuel roomId m s room Hlim); [|
      rewrite Hm, most_recent_length; lia|done]. simpl.
    edestruct (IH (RoomManager.set_rooms s
                     (<[roomId := Room.set_messages room
                          (most_recent limit (Room.messages room ++ [m]))]>
                        (RoomManager.rooms s)))
                  (Room.set_messages room
                     (most_recent limit (Room.messages room ++ [m])))
                  (earlier ++ [m])) as (s' & Hs' & Hroom'); try done.
    + simpl. by rewrite lookup_insert_eq.
    + simpl. by rewrite Hm, most_recent_snoc.
    + exists s'. split; [done|]. rewrite Hroom'. by rewrite <- app_assoc.
Qed.

End History.

(** C5.  With a history limit that is not negative, in a room whose
    history holds at most [HISTORY_LIMIT] messages (as it does from its
    creation on), any sequence of [addMessage] calls ends, and the history
    then stored in the room holds at most [HISTORY_LIMIT] messages: the
    last [HISTORY_LIMIT] of the earlier history followed by the added
    messages, in insertion order, the oldest having been removed from the
    front; when more than [HISTORY_LIMIT] messages are added these are
    exactly the [HISTORY_LIMIT] most recent of them.  The id, the members
    and the creation time of the room stay as they were. *)
Theorem history_keeps_most_recent
    (cfg : Config) (fuel : nat) (roomId : jsstring)
    (messages : list Message.t) (s : RoomManager.t) (room : Room.t) :
  0 <= MESSAGE_HISTORY_LIMIT cfg →
  (1 <= fuel)%nat →
  RoomManager.rooms s !! roomId = Some room →
  (List.length (Room.messages room)
   <= Z.to_nat (MESSAGE_HISTORY_LIMIT cfg))%nat →
  let limit := Z.to_nat (MESSAGE_HISTORY_LIMIT cfg) in
  ∃ s' room',
    RoomManager.addMessages cfg fuel roomId messages s = Some s'
    ∧ RoomManager.rooms s' !! roomId = Some room'
    ∧ Room.messages room'
      = most_recent limit (Room.messages room ++ messages)
    ∧ (List.length (Room.messages room') <= limit)%nat
    ∧ ((limit < List.length messages)%nat →
       Room.messages room' = most_recent limit messages
       ∧ List.length (Room.messages room') = limit)
    ∧ Room.id room' = Room.id room
    ∧ Room.users room' = Room.users room
    ∧ Room.createdAt room' = Room.createdAt room.
Proof.
  intros Hlim Hfuel E Hlen limit.
  destruct (addMessages_spec cfg fuel roomId messages s room
              (Room.messages room)) as (s' & Hs' & Hroom'); try done.
  { unfold most_recent.
    replace (List.length (Room.messages room)
             - Z.to_nat (MESSAGE_HISTORY_LIMIT cfg))%nat with 0%nat by lia.
    done. }
  exists s', (Room.set_messages room
                (most_recent limit (Room.messages room ++ messages))).
  split; [done|]. split; [done|]. simpl. split; [done|].
  split; [|split; [|done]].
  - rewrite most_recent_length. lia.
  - intros Hmany. split; [|rewrite most_recent_length, length_app; lia].
    unfold most_recent. rewrite length_app.
    rewrite drop_app_ge by lia. f_equal. lia.
Qed.

(** A user message with the given text. *)
Definition text_message (n : Z) (text : string) : Message.t :=
  {| Message.id := lit "msg_" ++ Number_toString n ++ lit "_k3j9x0q1z";
     Message.type := Message.user;
     Message.senderId := lit "user_socket-0";
     Message.senderName := lit "User_1000";
     Message.content := lit text;
     Message.timestamp := n |}.

(** The default configuration with another history limit. *)
Definition with_history_limit (n : Z) : Config :=
  {| EVENT_RATE_LIMIT := EVENT_RATE_LIMIT default_config;
     EVENT_RATE_WINDOW_MS := EVENT_RATE_WINDOW_MS default_config;
     RATE_LIMIT_MAX_MESSAGES := RATE_LIMIT_MAX_MESSAGES default_config;
     RATE_LIMIT_WINDOW_MS := RATE_LIMIT_WINDOW_MS default_config;
     MESSAGE_MAX_LENGTH := MESSAGE_MAX_LENGTH default_config;
     MESSAGE_HISTORY_LIMIT := n;
     ROOM_MAX_USERS := ROOM_MAX_USERS default_config;
     ROOM_CLEANUP_DELAY_MS := ROOM_CLEANUP_DELAY_MS default_config;
     ROOM_MAX_ROOMS := ROOM_MAX_ROOMS default_config |}.

Lemma history_keeps_most_recent_witness :
  let cfg := with_history_limit 2 in
  let room := {| Room.id := lit "1000";
                 Room.users := {[ sock 0 :=
                   {| UserInfo.id := lit "user_socket-0";
                      UserInfo.name := lit "User_1000" |} ]};
                 Room.createdAt := 0; Room.messages := [] |} in
  let messages := [text_message 1 "one"; text_message 2 "two";
                   text_message 3 "three"] in
  ∃ s' room',
    RoomManager.addMessages cfg 1 (lit "1000") messages (room_of cfg 1)
    = Some s'
    ∧ RoomManager.rooms s' !! lit "1000" = Some room'
    ∧ Room.messages room' = most_recent 2 (Room.messages room ++ messages)
    ∧ (List.length (Room.messages room') <= 2)%nat
    ∧ ((2 < List.length messages)%nat →
       Room.messages room' = most_recent 2 messages
       ∧ List.length (Room.messages room') = 2%nat)
    ∧ Room.id room' = Room.id room
    ∧ Room.users room' = Room.users room
    ∧ Room.createdAt room' = Room.createdAt room.
Proof.
  apply (history_keeps_most_recent (with_history_limit 2) 1 (lit "1000")
           [text_message 1 "one"; text_message 2 "two";
            text_message 3 "three"]
           (room_of (with_history_limit 2) 1)).
  - vm_compute. discriminate.
  - lia.
  - vm_compute. reflexivity.
  - simpl. lia.
Defined.

(** The oldest of three messages is the one that a limit of two evicts. *)
Example addMessages_evicts_oldest :
  (s ← RoomManager.addMessages (with_history_limit 2) 1 (lit "1000")
         [text_message 1 "one"; text_message 2 "two"; text_message 3 "three"]
         (room_of (with_history_limit 2) 1);
   Room.messages <$> RoomManager.rooms s !! lit "1000")
  = Some [text_message 2 "two"; text_message 3 "three"].
Proof. vm_compute. reflexivity. Qed.

(** ** Message validation *)

(** What the chain of [replace] calls makes of one character. *)
Definition escape_char (c : N) : jsstring :=
  if (c =? Socket.amp)%N then lit "&amp;"
  else if (c =? Socket.lt)%N then lit "&lt;"
  else if (c =? Socket.gt)%N then lit "&gt;"
  else if (c =? Socket.quot)%N then lit "&quot;"
  else if (c =? Socket.apos)%N then lit "&#x27;"
  else [c].

Definition html_special : list N :=
  [Socket.amp; Socket.lt; Socket.gt; Socket.quot; Socket.apos].

Definition html_entities : list jsstring :=
  [lit "&amp;"; lit "&lt;"; lit "&gt;"; lit "&quot;"; lit "&#x27;"].

(** A string made of entities and of characters that are neither
    HTML-significant nor in the stripped class. *)
Definition escaped (out : jsstring) : Prop :=
  ∃ pieces : list jsstring,
    out = concat pieces
    ∧ Forall (λ p, p ∈ html_entities
                   ∨ ∃ c, p = [c] ∧ (c ∉ html_special)
                          ∧ Socket.is_stripped c = false) pieces.

Lemma replace_char_flat_map c r (f : N → jsstring) s :
  replace_char c r (flat_map f s)
  = flat_map (λ x, replace_char c r (f x)) s.
Proof.
  unfold replace_char. induction s as [|x s IH]; simpl; [done|].
  by rewrite flat_map_app, IH.
Qed.

Lemma escape_char_chain x :
  replace_char Socket.apos (lit "&#x27;")
    (replace_char Socket.quot (lit "&quot;")
      (replace_char Socket.gt (lit "&gt;")
        (replace_char Socket.lt (lit "&lt;")
          (if (x =? Socket.amp)%N then lit "&amp;" else [x]))))
  = escape_char x.
Proof.
  unfold escape_char.
  destruct (x =? Socket.amp)%N; [reflexivity|].
  unfold replace_char at 4. simpl.
  destruct (x =? Socket.lt)%N; [reflexivity|].
  unfold replace_char at 3. simpl.
  destruct (x =? Socket.gt)%N; [reflexivity|].
  unfold replace_char at 2. simpl.
  destruct (x =? Socket.quot)%N; [reflexivity|].
  unfold replace_char. simpl.
  destruct (x =? Socket.apos)%N; reflexivity.
Qed.

(** The five passes amount to one pass that escapes each character. *)
Lemma escape_html_flat_map s :
  Socket.escape_html s = flat_map escape_char s.
Proof.
  unfold Socket.escape_html.
  unfold replace_char at 5. rewrite !replace_char_flat_map.
  apply flat_map_ext, escape_char_chain.
Qed.

Lemma escape_char_escaped c :
  Socket.is_stripped c = false →
  (escape_char c ∈ html_entities
   ∨ ∃ c', escape_char c = [c'] ∧ (c' ∉ html_special)
            ∧ Socket.is_stripped c' = false)
  ∧ Forall (λ x, Socket.is_stripped x = false
                 ∧ x ∉ [Socket.lt; Socket.gt; Socket.quot; Socket.apos])
           (escape_char c).
Proof.
  intros Hc. unfold escape_char, html_entities.
  destruct (N.eqb_spec c Socket.amp);
    [split; [left; set_solver|repeat constructor; set_solver]|].
  destruct (N.eqb_spec c Socket.lt);
    [split; [left; set_solver|repeat constructor; set_solver]|].
  destruct (N.eqb_spec c Socket.gt);
    [split; [left; set_solver|repeat constructor; set_solver]|].
  destruct (N.eqb_spec c Socket.quot);
    [split; [left; set_solver|repeat constructor; set_solver]|].
  destruct (N.eqb_spec c Socket.apos);
    [split; [left; set_solver|repeat constructor; set_solver]|].
  split.
  - right. exists c. split; [done|]. split; [|done].
    unfold html_special. set_solver.
  - repeat constructor; [done|]. set_solver.
Qed.

Lemma sanitized_escaped s :
  let out := Socket.escape_html (remove_class Socket.is_stripped s) in
  escaped out
  ∧ Forall (λ x, Socket.is_stripped x = false
                 ∧ x ∉ [Socket.lt; Socket.gt; Socket.quot; Socket.apos]) out.
Proof.
  simpl. rewrite escape_html_flat_map.
  assert (Hkept : Forall (λ c, Socket.is_stripped c = false)
                         (remove_class Socket.is_stripped s)).
  { apply List.Forall_forall. intros c [_ Hc]%filter_In.
    by apply negb_true_iff in Hc. }
  split.
  - exists (map escape_char (remove_class Socket.is_stripped s)).
    split; [apply flat_map_concat_map|].
    apply Forall_map. eapply Forall_impl; [exact Hkept|].
    intros c Hc. by apply escape_char_escaped.
  - apply Forall_flat_map. eapply Forall_impl; [exact Hkept|].
    intros c Hc. by apply escape_char_escaped.
Qed.

Definition rejected (reason : jsstring) : Socket.validation :=
  {| Socket.valid := false; Socket.verror := Some reason;
     Socket.sanitized := None |}.

Definition accepted (out : jsstring) : Socket.validation :=
  {| Socket.valid := true; Socket.verror := None;
     Socket.sanitized := Some out |}.

Lemma validateMessage_string cfg s :
  Socket.validateMessage cfg (VString s) =
    if decide (s = []) then rejected (lit "Message cannot be empty")
    else if JS.length (trim s) <? MESSAGE_MIN_LENGTH then
      rejected (lit "Message too short")
    else if JS.length (trim s) >? MESSAGE_MAX_LENGTH cfg then
      rejected (lit "Message too long (max "
                ++ Number_toString (MESSAGE_MAX_LENGTH cfg)
                ++ lit " characters)")
    else accepted (Socket.escape_html
                     (remove_class Socket.is_stripped (trim s))).
Proof.
  unfold Socket.validateMessage. destruct s as [|c s]; [done|].
  rewrite decide_False by done. simpl negb. cbv iota.
  destruct (_ <? _); [done|]. by destruct (_ >? _).
Qed.

(** ** The send-message handler *)

Section SendMessage.
Context (cfg : Config).

(** The handler once the request has the right shape and the rate check
    has passed. *)
Lemma on_send_message_checked fuel socket_id now suffix data has_callback
    srv roomId :
  truthy data = true →
  typeof data = "object"%string →
  get "roomId" data = VString roomId →
  test_4digits roomId = true →
  RateLimiter.allowed
    (RateLimiter.check now socket_id (Socket.messageRateLimiter srv)).1
  = true →
  Socket.on_send_message cfg fuel socket_id now suffix data has_callback srv
  = let rl :=
      (RateLimiter.check now socket_id (Socket.messageRateLimiter srv)).2 in
    let srv1 := Socket.set_messageRateLimiter srv rl in
    let not_in_room :=
      Some (srv1,
            Socket.ConsoleWarn (lit "[Socket] User " ++ socket_id
                                ++ lit " not in room " ++ roomId)
            :: Socket.reply has_callback
                 (Socket.ack_error (lit "Not in room"))) in
    match RoomManager.userSockets (Socket.roomManager srv) !! socket_id with
    | None => not_in_room
    | Some userInfo =>
        if bool_decide (SocketEntry.roomId userInfo ≠ roomId)
        then not_in_room
        else
          let validation :=
            Socket.validateMessage cfg (get "content" data) in
          if negb (Socket.valid validation) then
            Some (srv1,
                  Socket.reply has_callback
                    {| Socket.success := false;
                       Socket.error := Socket.verror validation;
                       Socket.roomId := None; Socket.name := None |})
          else
            let message :=
              Socket.user_message now suffix userInfo
                (default [] (Socket.sanitized validation)) in
            rm ← RoomManager.addMessage cfg fuel roomId message
                   (Socket.roomManager srv);
            Some (Socket.set_roomManager srv1 rm,
                  Socket.Emit (Socket.ToRoom roomId)
                              (Socket.ChatMessage message)
                  :: Socket.reply has_callback Socket.ack_ok)
    end.
Proof.
  intros Htruthy Htypeof Hroom Htest Hallowed.
  unfold Socket.on_send_message, Socket.send_message_body.
  rewrite Htruthy, Htypeof, Hroom. simpl. rewrite Htest.
  destruct (RateLimiter.check now socket_id (Socket.messageRateLimiter srv))
    as [rateCheck rl]. simpl in *. rewrite Hallowed. simpl.
  unfold RoomManager.getUserInfo.
  destruct (RoomManager.userSockets (Socket.roomManager srv) !! socket_id)
    as [userInfo|]; [|done].
  case_bool_decide; [done|].
  destruct (Socket.valid _); simpl; [|done].
  by destruct (RoomManager.addMessage _ _ _ _ _).
Qed.

End SendMessage.

Lemma most_recent_last {A} (n : nat) (l : list A) (x : A) :
  (1 <= n)%nat → last (most_recent n (l ++ [x])) = Some x.
Proof.
  intros Hn. unfold most_recent. rewrite length_app. simpl.
  rewrite drop_app_le by lia. apply last_snoc.
Qed.

(** C6 (amended).  [validateMessage] rejects every value that is not a
    string and the empty string ('Message cannot be empty'), every string
    that is empty after trimming ('Message too short') and every string
    whose trimmed form is longer than [MAX_LENGTH] ('Message too long (max
    N characters)').  Every other string is accepted, and its sanitized
    form is the trimmed string without the characters of the class
    [\x00-\x08\x0B\x0C\x0E-\x1F\x7F] (tab, line feed and carriage return
    are kept) in which each of & < > " ' has been replaced by its entity:
    it is a sequence of entities and of other characters, and it contains
    no character of that class and no < > " ' at all.  An accepted
    send-message request stores in the room history and broadcasts to the
    room one message, whose content is the sanitized form. *)
Theorem validateMessage_sanitizes (cfg : Config) :
  (∀ content, (∀ s, content ≠ VString s) →
     Socket.validateMessage cfg content
     = rejected (lit "Message cannot be empty"))
  ∧ Socket.validateMessage cfg (VString [])
    = rejected (lit "Message cannot be empty")
  ∧ (∀ s, s ≠ [] → trim s = [] →
       Socket.validateMessage cfg (VString s)
       = rejected (lit "Message too short"))
  ∧ (∀ s, trim s ≠ [] → JS.length (trim s) > MESSAGE_MAX_LENGTH cfg →
       Socket.validateMessage cfg (VString s)
       = rejected (lit "Message too long (max "
                   ++ Number_toString (MESSAGE_MAX_LENGTH cfg)
                   ++ lit " characters)"))
  ∧ (∀ s, trim s ≠ [] → JS.length (trim s) <= MESSAGE_MAX_LENGTH cfg →
       let out :=
         Socket.escape_html (remove_class Socket.is_stripped (trim s)) in
       Socket.validateMessage cfg (VString s) = accepted out
       ∧ escaped out
       ∧ Forall (λ c, Socket.is_stripped c = false
                      ∧ c ∉ [Socket.lt; Socket.gt; Socket.quot; Socket.apos])
                out)
  ∧ (∀ fuel socket_id now suffix data has_callback srv roomId out entry room,
       truthy data = true →
       typeof data = "object"%string →
       get "roomId" data = VString roomId →
       test_4digits roomId = true →
       RateLimiter.allowed
         (RateLimiter.check now socket_id (Socket.messageRateLimiter srv)).1
       = true →
       RoomManager.userSockets (Socket.roomManager srv) !! socket_id
       = Some entry →
       SocketEntry.roomId entry = roomId →
       Socket.validateMessage cfg (get "content" data) = accepted out →
       RoomManager.rooms (Socket.roomManager srv) !! roomId = Some room →
       0 < MESSAGE_HISTORY_LIMIT cfg →
       (List.length (Room.messages room)
        <= Z.to_nat (MESSAGE_HISTORY_LIMIT cfg))%nat →
       (1 <= fuel)%nat →
       ∃ srv' message room',
         Socket.on_send_message cfg fuel socket_id now suffix data
           has_callback srv
         = Some (srv',
                 Socket.Emit (Socket.ToRoom roomId)
                             (Socket.ChatMessage message)
                 :: Socket.reply has_callback Socket.ack_ok)
         ∧ Message.content message = out
         ∧ RoomManager.rooms (Socket.roomManager srv') !! roomId
           = Some room'
         ∧ last (Room.messages room') = Some message).
Proof.
  split; [|split; [|split; [|split; [|split]]]].
  - intros content Hns. destruct content; try done. by destruct (Hns s).
  - done.
  - intros s Hs Htrim. rewrite validateMessage_string, decide_False by done.
    by rewrite Htrim.
  - intros s Htrim Hlong. rewrite validateMessage_string.
    rewrite decide_False by (intros ->; done).
    unfold MESSAGE_MIN_LENGTH, JS.length in *.
    destruct (Z.ltb_spec (Z.of_nat (List.length (trim s))) 1) as [Hlt|_].
    { destruct (trim s); [done|simpl in Hlt; lia]. }
    rewrite Z.gtb_ltb.
    destruct (Z.ltb_spec (MESSAGE_MAX_LENGTH cfg)
                (Z.of_nat (List.length (trim s)))); [done|lia].
  - intros s Htrim Hshort. cbv zeta. split; [|apply sanitized_escaped].
    rewrite validateMessage_string.
    rewrite decide_False by (intros ->; done).
    unfold MESSAGE_MIN_LENGTH, JS.length in *.
    destruct (Z.ltb_spec (Z.of_nat (List.length (trim s))) 1) as [Hlt|_].
    { destruct (trim s); [done|simpl in Hlt; lia]. }
    rewrite Z.gtb_ltb.
    destruct (Z.ltb_spec (MESSAGE_MAX_LENGTH cfg)
                (Z.of_nat (List.length (trim s)))); [lia|done].
  - intros fuel socket_id now suffix data has_callback srv roomId out entry
      room Htruthy Htypeof Hroom Htest Hallowed Hentry Hin Hvalid Hlive
      Hlimit Hlen Hfuel.
    rewrite (on_send_message_checked cfg fuel socket_id now suffix data
               has_callback srv roomId) by done.
    cbv zeta. rewrite Hentry, bool_decide_eq_false_2 by (by intros ?).
    rewrite Hvalid. simpl.
    rewrite (addMessage_spec cfg fuel roomId _ _ room) by (done || lia).
    simpl. eexists _, _, _. split; [done|]. split; [done|]. simpl.
    rewrite lookup_insert_eq. split; [done|]. simpl.
    apply most_recent_last. lia.
Qed.

(** The participant, reverse entry and room of [room_of cfg 1], and a server
    that holds this room. *)
Definition first_user : UserInfo.t :=
  {| UserInfo.id := lit "user_socket-0"; UserInfo.name := lit "User_1000" |}.

Definition first_entry : SocketEntry.t :=
  {| SocketEntry.roomId := lit "1000";
     SocketEntry.id := lit "user_socket-0";
     SocketEntry.name := lit "User_1000" |}.

Definition first_room : Room.t :=
  {| Room.id := lit "1000"; Room.users := {[ sock 0 := first_user ]};
     Room.createdAt := 0; Room.messages := [] |}.

Definition server_of (cfg : Config) (n : nat) : Socket.Server :=
  Socket.set_roomManager (Socket.init cfg) (room_of cfg n).

Definition send_request (roomId content : string) : value :=
  VObject [("roomId"%string, VString (lit roomId));
           ("content"%string, VString (lit content))].

Example validateMessage_script :
  Socket.validateMessage default_config (VString (lit "<script>"))
  = accepted (lit "&lt;script&gt;").
Proof. vm_compute. reflexivity. Qed.

Lemma validateMessage_sanitizes_witness :
  Socket.validateMessage default_config (VString (lit "   "))
  = rejected (lit "Message too short")
  ∧ (let out := Socket.escape_html
                  (remove_class Socket.is_stripped (trim (lit "<script>"))) in
     Socket.validateMessage default_config (VString (lit "<script>"))
     = accepted out
     ∧ escaped out
     ∧ Forall (λ c, Socket.is_stripped c = false
                    ∧ c ∉ [Socket.lt; Socket.gt; Socket.quot; Socket.apos])
              out)
  ∧ ∃ srv' message room',
      Socket.on_send_message default_config 1 (sock 0) 5 (lit "k3j9x0q1z")
        (send_request "1000" "<script>") true (server_of default_config 1)
      = Some (srv',
              Socket.Emit (Socket.ToRoom (lit "1000"))
                          (Socket.ChatMessage message)
              :: Socket.reply true Socket.ack_ok)
      ∧ Message.content message = lit "&lt;script&gt;"
      ∧ RoomManager.rooms (Socket.roomManager srv') !! lit "1000"
        = Some room'
      ∧ last (Room.messages room') = Some message.
Proof.
  destruct (validateMessage_sanitizes default_config)
    as (_ & _ & Hshort & _ & Hvalid & Hsend).
  split; [|split].
  - apply Hshort; [discriminate|reflexivity].
  - apply Hvalid; [vm_compute; discriminate|vm_compute; discriminate].
  - apply (Hsend 1%nat (sock 0) 5 (lit "k3j9x0q1z")
             (send_request "1000" "<script>") true
             (server_of default_config 1) (lit "1000")
             (lit "&lt;script&gt;") first_entry first_room).
    + reflexivity.
    + reflexivity.
    + reflexivity.
    + reflexivity.
    + reflexivity.
    + vm_compute. reflexivity.
    + reflexivity.
    + vm_compute. reflexivity.
    + vm_compute. reflexivity.
    + reflexivity.
    + simpl. lia.
    + lia.
Defined.

(** C6, as stated, fails: a line feed inside a message is accepted and
    kept, although it is a control character (it belongs to the class
    [\x00-\x1F\x7F] that [sanitizeUserName] strips), and the sanitized form
    contains the character & wherever an entity stands. *)
Lemma validateMessage_keeps_line_feed :
  let out := lit "a" ++ [10%N] ++ lit "b&amp;c" in
  Socket.validateMessage default_config
    (VString (lit "a" ++ [10%N] ++ lit "b&c")) = accepted out
  ∧ 10%N ∈ out
  ∧ RoomManager.is_control 10 = true
  ∧ Socket.amp ∈ out.
Proof.
  simpl. split; [vm_compute; reflexivity|].
  split; [|split; [reflexivity|]]; unfold lit; simpl; set_solver.
Qed.

(** ** The message-rate budget *)

(** How many further calls for [id] the limiter allows at time [now]. *)
Definition allowance (now : Z) (id : jsstring) (rl : RateLimiter.t) : Z :=
  match RateLimiter.clients rl !! id with
  | Some c =>
      if now - RateLimiter.windowStart c >=? RateLimiter.windowMs rl
      then Z.max 0 (RateLimiter.maxRequests rl)
      else Z.max 0 (RateLimiter.maxRequests rl - RateLimiter.count c)
  | None => Z.max 0 (RateLimiter.maxRequests rl)
  end.

Lemma check_allowed_allowance now id rl :
  0 < RateLimiter.windowMs rl →
  RateLimiter.allowed (RateLimiter.check now id rl).1 = true →
  allowance now id (RateLimiter.check now id rl).2
  = allowance now id rl - 1
  ∧ RateLimiter.remaining (RateLimiter.check now id rl).1
    = allowance now id rl - 1.
Proof.
  intros Hwin. unfold allowance.
  destruct (RateLimiter.clients rl !! id) as [c|] eqn:Hc.
  - rewrite Z.geb_leb.
    destruct (Z.leb_spec (RateLimiter.windowMs rl)
                (now - RateLimiter.windowStart c)) as [Hexp|Hcur].
    + rewrite check_new_window
        by (unfold window_over; rewrite Hc; lia).
      destruct (Z.ltb_spec 0 (RateLimiter.maxRequests rl)); [|done].
      simpl. rewrite lookup_insert_eq. simpl. intros _.
      rewrite Z.geb_leb.
      destruct (Z.leb_spec (RateLimiter.windowMs rl) (now - now)); lia.
    + rewrite (check_same_window now id rl c Hc) by lia.
      destruct (Z.ltb_spec (RateLimiter.count c)
                  (RateLimiter.maxRequests rl)); [|done].
      simpl. rewrite lookup_insert_eq. simpl. intros _.
      rewrite Z.geb_leb.
      destruct (Z.leb_spec (RateLimiter.windowMs rl)
                  (now - RateLimiter.windowStart c)); lia.
  - rewrite check_new_window by (unfold window_over; by rewrite Hc).
    destruct (Z.ltb_spec 0 (RateLimiter.maxRequests rl)); [|done].
    simpl. rewrite lookup_insert_eq. simpl. intros _.
    rewrite Z.geb_leb.
    destruct (Z.leb_spec (RateLimiter.windowMs rl) (now - now)); lia.
Qed.

(** C10.  In a send-message request of the right shape that the message
    limiter allows, the limiter is charged before membership and content
    are looked at: the sender's allowance for the current window goes down
    by one, and the request leaves the limiter in that state when it is
    answered 'Not in room', when it is answered with a validation error,
    and when it succeeds alike. *)
Theorem send_message_charges_budget_first
    (cfg : Config) (fuel : nat) (socket_id : jsstring) (now : Z)
    (suffix : jsstring) (data : value) (has_callback : bool)
    (srv : Socket.Server) (roomId : jsstring) :
  truthy data = true →
  typeof data = "object"%string →
  get "roomId" data = VString roomId →
  test_4digits roomId = true →
  0 < RateLimiter.windowMs (Socket.messageRateLimiter srv) →
  RateLimiter.allowed
    (RateLimiter.check now socket_id (Socket.messageRateLimiter srv)).1
  = true →
  let rl :=
    (RateLimiter.check now socket_id (Socket.messageRateLimiter srv)).2 in
  let charged := Socket.set_messageRateLimiter srv rl in
  let handled :=
    Socket.on_send_message cfg fuel socket_id now suffix data has_callback
      srv in
  allowance now socket_id rl
  = allowance now socket_id (Socket.messageRateLimiter srv) - 1
  ∧ ((∀ e, RoomManager.userSockets (Socket.roomManager srv) !! socket_id
           = Some e → SocketEntry.roomId e ≠ roomId) →
     handled
     = Some (charged,
             Socket.ConsoleWarn (lit "[Socket] User " ++ socket_id
                                 ++ lit " not in room " ++ roomId)
             :: Socket.reply has_callback
                  (Socket.ack_error (lit "Not in room"))))
  ∧ (∀ e reason,
       RoomManager.userSockets (Socket.roomManager srv) !! socket_id
       = Some e →
       SocketEntry.roomId e = roomId →
       Socket.validateMessage cfg (get "content" data) = rejected reason →
       handled
       = Some (charged,
               Socket.reply has_callback (Socket.ack_error reason)))
  ∧ (∀ e out,
       RoomManager.userSockets (Socket.roomManager srv) !! socket_id
       = Some e →
       SocketEntry.roomId e = roomId →
       Socket.validateMessage cfg (get "content" data) = accepted out →
       0 <= MESSAGE_HISTORY_LIMIT cfg →
       (∀ room,
          RoomManager.rooms (Socket.roomManager srv) !! roomId = Some room →
          (List.length (Room.messages room) + 1
           - Z.to_nat (MESSAGE_HISTORY_LIMIT cfg) <= fuel)%nat) →
       ∃ srv',
         handled
         = Some (srv',
                 Socket.Emit (Socket.ToRoom roomId)
                   (Socket.ChatMessage
                      (Socket.user_message now suffix e out))
                 :: Socket.reply has_callback Socket.ack_ok)
         ∧ Socket.messageRateLimiter srv' = rl).
Proof.
  intros Htruthy Htypeof Hroom Htest Hwin Hallowed rl charged handled.
  subst handled.
  rewrite (on_send_message_checked cfg fuel socket_id now suffix data
             has_callback srv roomId) by done.
  cbv zeta. fold rl. fold charged.
  split; [by apply check_allowed_allowance|].
  split; [|split].
  - intros Hother.
    destruct (RoomManager.userSockets _ !! socket_id) as [e|]; [|done].
    by rewrite bool_decide_eq_true_2 by (by apply Hother).
  - intros e reason -> Hin ->.
    by rewrite bool_decide_eq_false_2 by (by intros ?).
  - intros e out -> Hin -> Hlim Hfuel.
    rewrite bool_decide_eq_false_2 by (by intros ?). simpl.
    destruct (RoomManager.rooms (Socket.roomManager srv) !! roomId)
      as [room|] eqn:Hlive.
    + rewrite (addMessage_spec cfg fuel roomId _ _ room) by auto.
      simpl. by eexists.
    + unfold RoomManager.addMessage. rewrite Hlive. simpl. by eexists.
Qed.

Lemma send_message_charges_budget_first_witness :
  let srv := server_of default_config 1 in
  let rl := (RateLimiter.check 5 (sock 0) (Socket.messageRateLimiter srv)).2 in
  allowance 5 (sock 0) rl = 9
  ∧ Socket.on_send_message default_config 1 (sock 0) 5 (lit "k3j9x0q1z")
      (send_request "2000" "hello") true srv
    = Some (Socket.set_messageRateLimiter srv rl,
            [Socket.ConsoleWarn (lit "[Socket] User socket-0 not in room 2000");
             Socket.Callback (Socket.ack_error (lit "Not in room"))])
  ∧ Socket.on_send_message default_config 1 (sock 0) 5 (lit "k3j9x0q1z")
      (send_request "1000" "   ") true srv
    = Some (Socket.set_messageRateLimiter srv rl,
            [Socket.Callback (Socket.ack_error (lit "Message too short"))])
  ∧ ∃ srv',
      Socket.on_send_message default_config 1 (sock 0) 5 (lit "k3j9x0q1z")
        (send_request "1000" "hello") true srv
      = Some (srv',
              [Socket.Emit (Socket.ToRoom (lit "1000"))
                 (Socket.ChatMessage
                    (Socket.user_message 5 (lit "k3j9x0q1z") first_entry
                       (lit "hello")));
               Socket.Callback Socket.ack_ok])
      ∧ Socket.messageRateLimiter srv' = rl.
Proof.
  pose proof (send_message_charges_budget_first default_config 1 (sock 0) 5
                (lit "k3j9x0q1z") (send_request "2000" "hello") true
                (server_of default_config 1) (lit "2000")
                eq_refl eq_refl eq_refl eq_refl eq_refl eq_refl)
    as (Hcharge & Hother & _).
  pose proof (send_message_charges_budget_first default_config 1 (sock 0) 5
                (lit "k3j9x0q1z") (send_request "1000" "   ") true
                (server_of default_config 1) (lit "1000")
                eq_refl eq_refl eq_refl eq_refl eq_refl eq_refl)
    as (_ & _ & Hinvalid & _).
  pose proof (send_message_charges_budget_first default_config 1 (sock 0) 5
                (lit "k3j9x0q1z") (send_request "1000" "hello") true
                (server_of default_config 1) (lit "1000")
                eq_refl eq_refl eq_refl eq_refl eq_refl eq_refl)
    as (_ & _ & _ & Hsent).
  split; [exact Hcharge|]. split; [|split].
  - apply Hother. intros e He. vm_compute in He.
    injection He as <-. vm_compute. discriminate.
  - apply (Hinvalid first_entry (lit "Message too short")).
    + vm_compute. reflexivity.
    + reflexivity.
    + reflexivity.
  - apply (Hsent first_entry (lit "hello")).
    + vm_compute. reflexivity.
    + reflexivity.
    + reflexivity.
    + vm_compute. discriminate.
    + intros room Hroom. vm_compute in Hroom. injection Hroom as <-.
      simpl. lia.
Defined.

(** ** The update-username handler *)

Lemma test_4digits_truthy s :
  test_4digits s = true → truthy (VString s) = true.
Proof.
  unfold test_4digits. intros [Hlen _]%andb_true_iff.
  apply Nat.eqb_eq in Hlen. simpl. by rewrite Hlen.
Qed.

(** C9 (amended).  On a successful update-username request the renamer is
    sent their identity, the 'user-renamed' notice is broadcast to the room
    named in the request and the callback reports success, whether or not
    the name changed; the system message '<old> is now <new>' is broadcast
    before the notice if and only if the new name differs from the old
    one.  (When the request came without an acknowledgement function, the
    same notices are emitted; the call of the callback then throws, and the
    exception is logged and leaves the handler.) *)
Theorem update_username_notices
    (socket_id : jsstring) (now : Z) (suffix : jsstring)
    (data : value) (has_callback : bool) (srv : Socket.Server)
    (roomId newName : jsstring)
    (updated : UserInfo.t) (rm' : RoomManager.t) :
  truthy data = true →
  typeof data = "object"%string →
  get "roomId" data = VString roomId →
  test_4digits roomId = true →
  get "newName" data = VString newName →
  let sanitizedName := substring0 USERNAME_MAX_LENGTH (trim newName) in
  RoomManager.updateUserName socket_id (VString sanitizedName)
    (Socket.roomManager srv) = (Some updated, rm') →
  let oldName :=
    SocketEntry.name
      <$> RoomManager.userSockets (Socket.roomManager srv) !! socket_id in
  let renameMessage :=
    Socket.createSystemMessage now suffix roomId
      (Socket.show_name oldName ++ lit " is now " ++ UserInfo.name updated) in
  let notices :=
    [Socket.Emit Socket.ToSocket
       (Socket.Identity (UserInfo.id updated) (UserInfo.name updated))]
    ++ (if decide (oldName = Some (UserInfo.name updated)) then []
        else [Socket.Emit (Socket.ToRoom roomId)
                (Socket.ChatMessage renameMessage)])
    ++ [Socket.Emit (Socket.ToRoom roomId)
          (Socket.UserRenamed (UserInfo.id updated) oldName
             (UserInfo.name updated))] in
  is_Some oldName
  ∧ Socket.on_update_username socket_id now suffix data has_callback srv
    = if has_callback then
        (Ok tt, Socket.set_roomManager srv rm',
         notices
         ++ [Socket.Callback
               {| Socket.success := true; Socket.error := None;
                  Socket.roomId := None;
                  Socket.name := Some (UserInfo.name updated) |}])
      else
        (Throw Socket.err_not_a_function, Socket.set_roomManager srv rm',
         notices
         ++ [Socket.ConsoleError (lit "[Socket] Error updating username:")
               Socket.err_not_a_function]).
Proof.
  intros Htruthy Htypeof Hroom Htest Hname sanitizedName Hupdated oldName
    renameMessage notices.
  assert (Hlen : JS.length sanitizedName <? USERNAME_MIN_LENGTH = false
                 ∧ newName ≠ [] ∧ is_Some oldName).
  { revert Hupdated. unfold RoomManager.updateUserName.
    unfold RoomManager.sanitizeUserName. subst oldName.
    destruct sanitizedName as [|c rest] eqn:Es; [done|].
    split; [|split].
    - unfold JS.length, USERNAME_MIN_LENGTH. simpl List.length.
      apply Z.ltb_ge. lia.
    - intros ->. subst sanitizedName. done.
    - revert Hupdated. simpl negb. cbv iota.
      destruct (_ <? _); [done|]. destruct (negb _); [done|].
      destruct (RoomManager.userSockets _ !! socket_id); [by eexists|done]. }
  destruct Hlen as (Hlen & Hne & Hold). split; [done|].
  unfold Socket.on_update_username, Socket.update_username_body.
  rewrite Htruthy, Htypeof, Hroom, Hname. simpl orb. cbv iota.
  unfold Socket.valid_roomId. rewrite Htest.
  assert (truthy (VString newName) = true) as ->
    by (destruct newName; [done|reflexivity]).
  simpl negb. cbv iota. fold sanitizedName. rewrite Hlen.
  rewrite Hupdated. rewrite (test_4digits_truthy roomId Htest).
  unfold RoomManager.getUserInfo. fold oldName. fold renameMessage.
  assert ((if true && bool_decide (oldName ≠ Some (UserInfo.name updated))
           then [Socket.Emit (Socket.ToRoom roomId)
                   (Socket.ChatMessage renameMessage)]
           else [])
          = (if decide (oldName = Some (UserInfo.name updated)) then []
             else [Socket.Emit (Socket.ToRoom roomId)
                     (Socket.ChatMessage renameMessage)])) as ->.
  { destruct (decide (oldName = Some (UserInfo.name updated))) as [E|E].
    - by rewrite bool_decide_eq_false_2 by (by intros ?).
    - by rewrite bool_decide_eq_true_2. }
  fold notices. unfold Socket.answer, Socket.try_catch_rethrow,
    Socket.update_username_catch, Socket.log_and_answer.
  by destruct has_callback.
Qed.

Definition rename_request (roomId newName : string) : value :=
  VObject [("roomId"%string, VString (lit roomId));
           ("newName"%string, VString (lit newName))].

Definition renamed (name : string) : RoomManager.t :=
  (RoomManager.updateUserName (sock 0) (VString (lit name))
     (room_of default_config 1)).2.

Lemma update_username_notices_witness :
  let srv := server_of default_config 1 in
  let oldName := Some (lit "User_1000") in
  is_Some oldName
  ∧ Socket.on_update_username (sock 0) 5 (lit "k3j9x0q1z")
      (rename_request "1000" "  Alice ") true srv
    = (Ok tt, Socket.set_roomManager srv (renamed "Alice"),
       [Socket.Emit Socket.ToSocket
          (Socket.Identity (lit "user_socket-0") (lit "Alice"));
        Socket.Emit (Socket.ToRoom (lit "1000"))
          (Socket.ChatMessage
             (Socket.createSystemMessage 5 (lit "k3j9x0q1z") (lit "1000")
                (lit "User_1000 is now Alice")));
        Socket.Emit (Socket.ToRoom (lit "1000"))
          (Socket.UserRenamed (lit "user_socket-0") oldName (lit "Alice"));
        Socket.Callback
          {| Socket.success := true; Socket.error := None;
             Socket.roomId := None; Socket.name := Some (lit "Alice") |}]).
Proof.
  apply (update_username_notices (sock 0) 5 (lit "k3j9x0q1z")
           (rename_request "1000" "  Alice ") true
           (server_of default_config 1)
           (lit "1000") (lit "  Alice ")
           {| UserInfo.id := lit "user_socket-0";
              UserInfo.name := lit "Alice" |}
           (renamed "Alice")).
  - reflexivity.
  - reflexivity.
  - reflexivity.
  - reflexivity.
  - reflexivity.
  - vm_compute. reflexivity.
Defined.

(** C9, as stated, fails: a rename to the name the participant already has
    succeeds, sends no system message, and still broadcasts 'user-renamed'
    to the room. *)
Lemma update_username_same_name_notice :
  let srv := server_of default_config 1 in
  RoomManager.getUserInfo (sock 0) (Socket.roomManager srv)
  = Some first_entry
  ∧ (Socket.on_update_username (sock 0) 5 (lit "k3j9x0q1z")
       (rename_request "1000" "User_1000") true srv).2
    = [Socket.Emit Socket.ToSocket
         (Socket.Identity (lit "user_socket-0") (lit "User_1000"));
       Socket.Emit (Socket.ToRoom (lit "1000"))
         (Socket.UserRenamed (lit "user_socket-0") (Some (lit "User_1000"))
            (lit "User_1000"));
       Socket.Callback
         {| Socket.success := true; Socket.error := None;
            Socket.roomId := None; Socket.name := Some (lit "User_1000") |}].
Proof. split; vm_compute; reflexivity. Qed.

(** ** Exceptions at the handler boundary *)

Lemma createRoom_throw cfg now rnd s message :
  (RoomManager.createRoom cfg now rnd s).1 = Throw message →
  RoomManager.createRoom cfg now rnd s = (Throw message, s)
  ∧ (message = RoomManager.err_capacity
     ∨ message = RoomManager.err_code_space).
Proof.
  unfold RoomManager.createRoom. destruct (_ && _).
  - simpl. intros [= <-]. auto.
  - rewrite generateRoomCode_spec.
    destruct (first_free rnd (RoomManager.rooms s) 0 99); [done|].
    simpl. intros [= <-]. auto.
Qed.

Lemma joinRoom_throw cfg roomId socketId preferredName bits s message :
  (RoomManager.joinRoom cfg roomId socketId preferredName bits s).1
  = Throw message →
  RoomManager.joinRoom cfg roomId socketId preferredName bits s
  = (Throw message, s)
  ∧ (RoomManager.rooms s !! roomId = None
     ∧ message = RoomManager.err_not_found
     ∨ is_Some (RoomManager.rooms s !! roomId)
       ∧ message = RoomManager.err_full).
Proof.
  unfold RoomManager.joinRoom.
  destruct (RoomManager.rooms s !! roomId) as [room|] eqn:E.
  - destruct (_ && _).
    + simpl. intros [= <-]. split; [done|]. right. by split; [eexists|].
    + cbv zeta. by destruct (Room.users room !! socketId).
  - simpl. intros [= <-]. auto.
Qed.

(** The ways a join-room request names its room. *)
Definition join_request (data : value) (roomId : jsstring)
    (preferredName : value) : Prop :=
  data = VString roomId ∧ preferredName = VNull
  ∨ truthy data = true ∧ typeof data = "object"%string
    ∧ get "roomId" data = VString roomId
    ∧ get "preferredName" data = preferredName.

(** An event that comes without an acknowledgement function makes
    create-room, join-room and update-username throw on every path: the
    first call of [callback] throws a [TypeError] inside [try], the [catch]
    clause logs it and calls [callback] again, and that second [TypeError]
    leaves the handler.  With an acknowledgement function no exception
    leaves them. *)
Lemma handlers_throw_without_ack
    cfg socket_id now suffix bits rnd data srv :
  (Socket.on_create_room cfg socket_id now rnd false srv).1.1
  = Throw Socket.err_not_a_function
  ∧ (Socket.on_join_room cfg socket_id now suffix bits data false srv).1.1
    = Throw Socket.err_not_a_function
  ∧ (Socket.on_update_username socket_id now suffix data false srv).1.1
    = Throw Socket.err_not_a_function.
Proof.
  unfold Socket.on_create_room, Socket.create_room_body,
    Socket.on_join_room, Socket.join_room_body,
    Socket.on_update_username, Socket.update_username_body,
    Socket.try_catch_rethrow, Socket.answer, Socket.create_room_catch,
    Socket.join_room_catch, Socket.update_username_catch,
    Socket.log_and_answer.
  destruct (RateLimiter.check now socket_id (Socket.eventRateLimiter srv))
    as [rateCheck rl].
  split; [|split]; repeat case_match; simpl in *; congruence.
Qed.

Lemma handlers_return_with_ack
    cfg socket_id now suffix bits rnd data srv :
  (Socket.on_create_room cfg socket_id now rnd true srv).1.1 = Ok tt
  ∧ (Socket.on_join_room cfg socket_id now suffix bits data true srv).1.1
    = Ok tt
  ∧ (Socket.on_update_username socket_id now suffix data true srv).1.1
    = Ok tt.
Proof.
  unfold Socket.on_create_room, Socket.create_room_body,
    Socket.on_join_room, Socket.join_room_body,
    Socket.on_update_username, Socket.update_username_body,
    Socket.try_catch_rethrow, Socket.answer, Socket.create_room_catch,
    Socket.join_room_catch, Socket.update_username_catch,
    Socket.log_and_answer.
  destruct (RateLimiter.check now socket_id (Socket.eventRateLimiter srv))
    as [rateCheck rl].
  split; [|split]; repeat case_match; simpl in *; congruence.
Qed.

(** With an acknowledgement function, the errors that the room manager
    throws in create-room and join-room are logged and answered with a
    failure whose error field is the message of the error itself. *)
Lemma create_room_forwards_message cfg socket_id now rnd srv message :
  RateLimiter.allowed
    (RateLimiter.check now socket_id (Socket.eventRateLimiter srv)).1
  = true →
  (RoomManager.createRoom cfg now rnd (Socket.roomManager srv)).1
  = Throw message →
  (message = RoomManager.err_capacity
   ∨ message = RoomManager.err_code_space)
  ∧ Socket.on_create_room cfg socket_id now rnd true srv
    = (Ok tt,
       Socket.set_eventRateLimiter srv
         (RateLimiter.check now socket_id (Socket.eventRateLimiter srv)).2,
       [Socket.ConsoleError (lit "[Socket] Error creating room:") message;
        Socket.Callback (Socket.ack_error message)]).
Proof.
  intros Hallowed Hthrow.
  apply createRoom_throw in Hthrow as [Hthrow Hmsg]. split; [done|].
  unfold Socket.on_create_room, Socket.create_room_body.
  destruct (RateLimiter.check now socket_id (Socket.eventRateLimiter srv))
    as [rateCheck rl]. simpl in *. rewrite Hallowed. simpl.
  by rewrite Hthrow.
Qed.

Lemma join_room_forwards_message
    cfg socket_id now suffix bits data srv roomId preferredName message :
  join_request data roomId preferredName →
  test_4digits roomId = true →
  RateLimiter.allowed
    (RateLimiter.check now socket_id (Socket.eventRateLimiter srv)).1
  = true →
  is_Some (RoomManager.rooms (Socket.roomManager srv) !! roomId) →
  (RoomManager.joinRoom cfg roomId socket_id preferredName bits
     (Socket.roomManager srv)).1 = Throw message →
  message = RoomManager.err_full
  ∧ Socket.on_join_room cfg socket_id now suffix bits data true srv
    = (Ok tt,
       Socket.set_eventRateLimiter srv
         (RateLimiter.check now socket_id (Socket.eventRateLimiter srv)).2,
       [Socket.ConsoleError (lit "[Socket] Error joining room:") message;
        Socket.Callback (Socket.ack_error message)]).
Proof.
  intros Hreq Htest Hallowed Hlive Hthrow.
  apply joinRoom_throw in Hthrow as [Hthrow Hmsg].
  assert (message = RoomManager.err_full) as ->.
  { destruct Hmsg as [[Hnone _]|[_ ?]]; [|done].
    rewrite Hnone in Hlive. by destruct Hlive. }
  split; [done|].
  unfold Socket.on_join_room, Socket.join_room_body.
  destruct (RateLimiter.check now socket_id (Socket.eventRateLimiter srv))
    as [rateCheck rl]. simpl in *. rewrite Hallowed. simpl.
  assert (RoomManager.roomExists roomId (Socket.roomManager srv) = true)
    as Hexists by (by apply bool_decide_eq_true_2).
  destruct Hreq as [[-> ->]|(Htruthy & Htypeof & Hroom & Hpref)].
  - simpl. rewrite Htest, Hexists. simpl. by rewrite Hthrow.
  - rewrite Htruthy, Htypeof, Hroom, Hpref. simpl.
    destruct (typeof data =? "string")%string eqn:Es.
    { apply String.eqb_eq in Es. congruence. }
    rewrite Htest, Hexists. simpl. by rewrite Hthrow.
Qed.

(** C8, at the failing input.  A create-room event that is sent without an
    acknowledgement function to a new server passes the rate check and
    creates the room "1000"; [callback({ success: true, roomId })] then
    throws a [TypeError] inside [try].  The [catch] clause logs the message
    of that exception and calls [callback] again: the second [TypeError]
    leaves the handler, and nothing is sent to the client.  The same
    happens in join-room and in update-username, here for a socket that is
    in the room "1000".  And where create-room and join-room do answer an
    exception, the error field is the message of the exception, which
    differs from one exception to another. *)
Lemma handler_exception_leaves_handler :
  let type_error := lit "callback is not a function" in
  let created :=
    Socket.on_create_room default_config (sock 0) 5 (λ _, 0) false
      (Socket.init default_config) in
  let srv := server_of default_config 1 in
  let full := server_of default_config 50 in
  created.1.1 = Throw type_error
  ∧ is_Some (RoomManager.rooms (Socket.roomManager created.1.2)
               !! lit "1000")
  ∧ created.2
    = [Socket.ConsoleError (lit "[Socket] Error creating room:") type_error]
  ∧ (let joined :=
       Socket.on_join_room default_config (sock 1) 5 (lit "k3j9x0q1z") 0
         (VString (lit "1000")) false srv in
     joined.1.1 = Throw type_error
     ∧ last joined.2
       = Some (Socket.ConsoleError (lit "[Socket] Error joining room:")
                 type_error))
  ∧ (let updated :=
       Socket.on_update_username (sock 0) 5 (lit "k3j9x0q1z")
         (rename_request "1000" "Alice") false srv in
     updated.1.1 = Throw type_error
     ∧ last updated.2
       = Some (Socket.ConsoleError
                 (lit "[Socket] Error updating username:") type_error))
  ∧ (Socket.on_join_room default_config (sock 50) 5 (lit "k3j9x0q1z") 0
       (VString (lit "1000")) true full).2
    = [Socket.ConsoleError (lit "[Socket] Error joining room:")
         (lit "Room is full");
       Socket.Callback (Socket.ack_error (lit "Room is full"))]
  ∧ (Socket.on_create_room default_config (sock 50) 5 (λ _, 0) true full).2
    = [Socket.ConsoleError (lit "[Socket] Error creating room:")
         (lit "Unable to generate unique room code. Server at capacity.");
       Socket.Callback
         (Socket.ack_error
            (lit "Unable to generate unique room code. Server at capacity."))].
Proof.
  split; [vm_compute; reflexivity|].
  split; [vm_compute; eexists; reflexivity|].
  repeat split; vm_compute; reflexivity.
Qed.

(** ** Further facts and examples *)

(** Calls for another identifier leave an identifier's window alone. *)
Lemma check_other_identifier now id id' rl :
  id' ≠ id →
  RateLimiter.clients (RateLimiter.check now id' rl).2 !! id
  = RateLimiter.clients rl !! id.
Proof.
  intros Hne. unfold RateLimiter.check.
  destruct (RateLimiter.clients rl !! id') as [c|]; simpl;
    repeat (zcase; simpl); rewrite ?lookup_insert_ne by done; done.
Qed.

(** A join-room request for a well-formed code that names no live room is
    answered 'Room not found' before [joinRoom] is called; the room manager
    is left as it was. *)
Lemma on_join_room_not_found
    cfg socket_id now suffix bits data srv roomId preferredName :
  join_request data roomId preferredName →
  test_4digits roomId = true →
  RateLimiter.allowed
    (RateLimiter.check now socket_id (Socket.eventRateLimiter srv)).1
  = true →
  RoomManager.rooms (Socket.roomManager srv) !! roomId = None →
  Socket.on_join_room cfg socket_id now suffix bits data true srv
  = (Ok tt,
     Socket.set_eventRateLimiter srv
       (RateLimiter.check now socket_id (Socket.eventRateLimiter srv)).2,
     [Socket.Callback (Socket.ack_error (lit "Room not found"))]).
Proof.
  intros Hreq Htest Hallowed Hnone.
  unfold Socket.on_join_room, Socket.join_room_body.
  destruct (RateLimiter.check now socket_id (Socket.eventRateLimiter srv))
    as [rateCheck rl]. simpl in *. rewrite Hallowed. simpl.
  assert (RoomManager.roomExists roomId (Socket.roomManager srv) = false)
    as Hexists.
  { apply bool_decide_eq_false_2. rewrite Hnone. by intros [? ?]. }
  destruct Hreq as [[-> ->]|(Htruthy & Htypeof & Hroom & Hpref)].
  - simpl. by rewrite Htest, Hexists.
  - rewrite Htruthy, Htypeof, Hroom, Hpref. simpl.
    by rewrite Htest, Hexists.
Qed.

(** A connection that joins a second room is first taken out of the first
    one, which is then empty and, with no cleanup delay, destroyed at once;
    its reverse entry names the second room. *)
Example joinRoom_moves_connection :
  let s := RoomManager.run default_config
             [RoomManager.CreateRoom 0 (λ _, 0);
              RoomManager.CreateRoom 1 (λ _, 2 ^ 52);
              RoomManager.JoinRoom (lit "1000") (sock 0) VNull 0;
              RoomManager.JoinRoom (lit "5500") (sock 0)
                (VString (lit " Bob ")) 0] in
  RoomManager.rooms s !! lit "1000" = None
  ∧ RoomManager.getRoomUserCount (lit "5500") s = 1
  ∧ RoomManager.userSockets s !! sock 0
    = Some {| SocketEntry.roomId := lit "5500";
              SocketEntry.id := lit "user_socket-0";
              SocketEntry.name := lit "Bob" |}.
Proof. repeat split; vm_compute; reflexivity. Qed.

(** * Further properties *)

From Stdlib Require Import Sorted.

(** ** The rate limiter over arbitrary call sequences *)

Section RateLimiterRunFacts.
Import RateLimiter.

(** Every counter lies between 0 and the maximum. *)
Definition counts_bounded (rl : RateLimiter.t) : Prop :=
  ∀ id c, clients rl !! id = Some c → 0 <= count c <= maxRequests rl.

Lemma check_counts_bounded now id rl :
  0 <= maxRequests rl → counts_bounded rl →
  counts_bounded (check now id rl).2.
Proof.
  intros Hmax Hb id' c'.
  assert (Hp := proj1 (check_params now id rl)). rewrite Hp.
  destruct (decide (id' = id)) as [->|Hne];
    [|rewrite check_other_identifier by done; apply Hb].
  destruct (clients rl !! id) as [c|] eqn:Hc.
  - destruct (Z_lt_ge_dec (now - windowStart c) (windowMs rl)) as [Hin|Hout].
    + rewrite (check_same_window now id rl c Hc Hin).
      pose proof (Hb _ _ Hc).
      destruct (Z.ltb_spec (count c) (maxRequests rl)); simpl.
      * rewrite lookup_insert_eq. intros [= <-]. simpl. lia.
      * apply Hb.
    + rewrite check_new_window by (unfold window_over; by rewrite Hc).
      destruct (Z.ltb_spec 0 (maxRequests rl)); simpl;
        rewrite lookup_insert_eq; intros [= <-]; simpl; lia.
  - rewrite check_new_window by (unfold window_over; by rewrite Hc).
    destruct (Z.ltb_spec 0 (maxRequests rl)); simpl;
      rewrite lookup_insert_eq; intros [= <-]; simpl; lia.
Qed.

Lemma step_counts_bounded rl op :
  0 <= maxRequests rl → counts_bounded rl →
  maxRequests (RateLimiterRun.step rl op) = maxRequests rl
  ∧ windowMs (RateLimiterRun.step rl op) = windowMs rl
  ∧ counts_bounded (RateLimiterRun.step rl op).
Proof.
  intros Hmax Hb. destruct op as [now id|id|now]; simpl.
  - destruct (check_params now id rl) as [Em Ew].
    split; [done|]. split; [done|]. by apply check_counts_bounded.
  - split; [done|]. split; [done|]. intros id' c'. simpl.
    rewrite lookup_delete. case_decide; [done|apply Hb].
  - split; [done|]. split; [done|]. intros id' c'. simpl.
    intros [H _]%map_lookup_filter_Some. exact (Hb _ _ H).
Qed.

Lemma run_counts_bounded maxRequests' windowMs' ops :
  0 <= maxRequests' →
  maxRequests (RateLimiterRun.run maxRequests' windowMs' ops) = maxRequests'
  ∧ windowMs (RateLimiterRun.run maxRequests' windowMs' ops) = windowMs'
  ∧ counts_bounded (RateLimiterRun.run maxRequests' windowMs' ops).
Proof.
  intros Hmax. unfold RateLimiterRun.run.
  induction ops as [|op ops IH] using rev_ind.
  - simpl. split; [done|]. split; [done|]. intros id c. simpl.
    by rewrite lookup_empty.
  - rewrite foldl_app. simpl. destruct IH as (E1 & E2 & IH).
    destruct (step_counts_bounded _ op (eq_ind_r (λ z, 0 <= z) Hmax E1) IH)
      as (-> & -> & H).
    done.
Qed.

(** The verdict of [check] and the entry it leaves for the identifier
    depend only on the parameters and on the identifier's entry. *)
Lemma check_local now id rl1 rl2 :
  maxRequests rl1 = maxRequests rl2 →
  windowMs rl1 = windowMs rl2 →
  clients rl1 !! id = clients rl2 !! id →
  (check now id rl1).1 = (check now id rl2).1
  ∧ clients (check now id rl1).2 !! id = clients (check now id rl2).2 !! id.
Proof.
  destruct rl1 as [m1 w1 cs1], rl2 as [m2 w2 cs2]. simpl.
  intros -> -> Ec. unfold check. simpl. rewrite <- Ec.
  destruct (cs1 !! id) as [c|] eqn:Hc; simpl;
    repeat (zcase; simpl); rewrite ?lookup_insert_eq; try done;
    try (split; congruence); simpl in *; lia.
Qed.

End RateLimiterRunFacts.

(** X1.  Whatever calls a limiter with a non-negative maximum has
    received ([check], [remove], the periodic [cleanup], at any times and
    for any identifiers), every counter it holds lies between 0 and
    [maxRequests], and the next [check] answers with [remaining] between 0
    and [maxRequests] and, when the window is positive, with a positive
    [resetIn]. *)
Theorem limiter_counts_and_verdicts_bounded
    (maxRequests windowMs : Z) (ops : list RateLimiterRun.operation)
    (now : Z) (id : jsstring) :
  0 <= maxRequests →
  let rl := RateLimiterRun.run maxRequests windowMs ops in
  let verdict := (RateLimiter.check now id rl).1 in
  (∀ id' c, RateLimiter.clients rl !! id' = Some c →
            0 <= RateLimiter.count c <= maxRequests)
  ∧ 0 <= RateLimiter.remaining verdict <= maxRequests
  ∧ (RateLimiter.allowed verdict = false →
     RateLimiter.remaining verdict = 0)
  ∧ (0 < windowMs → 0 < RateLimiter.resetIn verdict).
Proof.
  intros Hmax rl verdict.
  destruct (run_counts_bounded maxRequests windowMs ops Hmax)
    as (Em & Ew & Hb). fold rl in Em, Ew, Hb.
  subst verdict. clearbody rl.
  split; [intros id' c Hc; rewrite <- Em; by eapply Hb|].
  destruct (RateLimiter.clients rl !! id) as [c|] eqn:Hc.
  - pose proof (Hb _ _ Hc) as Hc'.
    destruct (Z_lt_ge_dec (now - RateLimiter.windowStart c)
                (RateLimiter.windowMs rl)) as [Hin|Hout].
    + rewrite (check_same_window now id rl c Hc Hin).
      destruct (Z.ltb_spec (RateLimiter.count c)
                  (RateLimiter.maxRequests rl)); simpl;
        (split; [lia|split; [done|lia]]).
    + rewrite check_new_window by (unfold window_over; by rewrite Hc).
      destruct (Z.ltb_spec 0 (RateLimiter.maxRequests rl)); simpl;
        (split; [lia|split; [done|lia]]).
  - rewrite check_new_window by (unfold window_over; by rewrite Hc).
    destruct (Z.ltb_spec 0 (RateLimiter.maxRequests rl)); simpl;
      (split; [lia|split; [done|lia]]).
Qed.

Lemma limiter_counts_and_verdicts_bounded_witness :
  let rl := RateLimiterRun.run 2 1000
              [RateLimiterRun.Check 0 (lit "a");
               RateLimiterRun.Check 1 (lit "a");
               RateLimiterRun.Check 2 (lit "a");
               RateLimiterRun.CleanupTick 500;
               RateLimiterRun.Remove (lit "b")] in
  let verdict := (RateLimiter.check 3 (lit "a") rl).1 in
  (∀ id' c, RateLimiter.clients rl !! id' = Some c →
            0 <= RateLimiter.count c <= 2)
  ∧ 0 <= RateLimiter.remaining verdict <= 2
  ∧ (RateLimiter.allowed verdict = false →
     RateLimiter.remaining verdict = 0)
  ∧ (0 < 1000 → 0 < RateLimiter.resetIn verdict).
Proof.
  apply (limiter_counts_and_verdicts_bounded 2 1000
           [RateLimiterRun.Check 0 (lit "a");
            RateLimiterRun.Check 1 (lit "a");
            RateLimiterRun.Check 2 (lit "a");
            RateLimiterRun.CleanupTick 500;
            RateLimiterRun.Remove (lit "b")] 3 (lit "a")).
  lia.
Defined.

(** X2.  The periodic [cleanup] is invisible to callers: with a
    non-negative window, a [check] made at or after the time of the sweep
    gets the same verdict, and leaves the same entry for its identifier,
    as if the sweep had not run. *)
Theorem cleanup_changes_no_verdict
    (sweep now : Z) (id : jsstring) (rl : RateLimiter.t) :
  0 <= RateLimiter.windowMs rl →
  sweep <= now →
  (RateLimiter.check now id (RateLimiter.cleanup sweep rl)).1
  = (RateLimiter.check now id rl).1
  ∧ RateLimiter.clients
      (RateLimiter.check now id (RateLimiter.cleanup sweep rl)).2 !! id
    = RateLimiter.clients (RateLimiter.check now id rl).2 !! id.
Proof.
  intros Hw Hle.
  destruct (RateLimiter.clients rl !! id) as [c|] eqn:Hc.
  - destruct (decide (sweep - RateLimiter.windowStart c
                      > RateLimiter.windowMs rl * 2)) as [Hstale|Hfresh].
    + assert (RateLimiter.clients (RateLimiter.cleanup sweep rl) !! id
              = None) as Hgone.
      { simpl. apply map_lookup_filter_None. right.
        intros c' Hc'. simpl. rewrite Hc in Hc'. injection Hc' as <-.
        tauto. }
      rewrite (check_new_window now id (RateLimiter.cleanup sweep rl))
        by (unfold window_over; by rewrite Hgone).
      rewrite (check_new_window now id rl)
        by (unfold window_over; rewrite Hc; lia).
      simpl. destruct (0 <? RateLimiter.maxRequests rl); simpl;
        by rewrite !lookup_insert_eq.
    + apply check_local; try done. simpl. rewrite Hc.
      apply map_lookup_filter_Some. split; [done|]. simpl. lia.
  - apply check_local; try done. simpl. rewrite Hc.
    apply map_lookup_filter_None. by left.
Qed.

Lemma cleanup_changes_no_verdict_witness :
  let rl := RateLimiterRun.run 10 10000
              [RateLimiterRun.Check 0 (lit "a");
               RateLimiterRun.Check 25000 (lit "b")] in
  (RateLimiter.check 30000 (lit "a") (RateLimiter.cleanup 30000 rl)).1
  = (RateLimiter.check 30000 (lit "a") rl).1
  ∧ RateLimiter.clients
      (RateLimiter.check 30000 (lit "a") (RateLimiter.cleanup 30000 rl)).2
      !! lit "a"
    = RateLimiter.clients (RateLimiter.check 30000 (lit "a") rl).2
      !! lit "a".
Proof.
  apply (cleanup_changes_no_verdict 30000 30000 (lit "a")
           (RateLimiterRun.run 10 10000
              [RateLimiterRun.Check 0 (lit "a");
               RateLimiterRun.Check 25000 (lit "b")])).
  - vm_compute. discriminate.
  - lia.
Defined.

(** ** Bursts at the seam of two windows *)

Lemma checks_cons now times id rl :
  (RateLimiter.checks (now :: times) id rl).1
  = (RateLimiter.check now id rl).1
    :: (RateLimiter.checks times id (RateLimiter.check now id rl).2).1.
Proof.
  simpl. destruct (RateLimiter.check now id rl) as [v rl1]. simpl.
  by destruct (RateLimiter.checks times id rl1).
Qed.

Lemma allowed_count_cons v vs :
  RateLimiterRun.allowed_count (v :: vs)
  = (if RateLimiter.allowed v then 1 else 0)
    + RateLimiterRun.allowed_count vs.
Proof.
  unfold RateLimiterRun.allowed_count. simpl.
  destruct (RateLimiter.allowed v); simpl; lia.
Qed.

(** Inside one window no more calls are allowed than the counter leaves. *)
Lemma allowed_in_window_le times : ∀ rl id c,
  RateLimiter.clients rl !! id = Some c →
  0 <= RateLimiter.count c <= RateLimiter.maxRequests rl →
  Forall (λ t, t - RateLimiter.windowStart c < RateLimiter.windowMs rl)
         times →
  RateLimiterRun.allowed_count (RateLimiter.checks times id rl).1
  <= RateLimiter.maxRequests rl - RateLimiter.count c.
Proof.
  induction times as [|t times IH]; intros rl id c Hc Hb Hall.
  - simpl. unfold RateLimiterRun.allowed_count. simpl. lia.
  - apply Forall_cons in Hall as [Ht Hall].
    rewrite checks_cons, allowed_count_cons.
    rewrite (check_same_window t id rl c Hc Ht).
    destruct (Z.ltb_spec (RateLimiter.count c) (RateLimiter.maxRequests rl)).
    + simpl.
      specialize (IH (RateLimiter.set_clients rl
                        (<[id := {| RateLimiter.count := RateLimiter.count c + 1;
                                    RateLimiter.windowStart :=
                                      RateLimiter.windowStart c |}]>
                           (RateLimiter.clients rl))) id
                     {| RateLimiter.count := RateLimiter.count c + 1;
                        RateLimiter.windowStart := RateLimiter.windowStart c |}).
      simpl in IH. rewrite lookup_insert_eq in IH.
      specialize (IH eq_refl ltac:(lia) Hall). lia.
    + simpl. specialize (IH rl id c Hc Hb Hall). lia.
Qed.

(** What the identifier's counter still leaves in its current window. *)
Definition slack (id : jsstring) (rl : RateLimiter.t) : Z :=
  match RateLimiter.clients rl !! id with
  | Some c => RateLimiter.maxRequests rl - RateLimiter.count c
  | None => 0
  end.

(** Calls in time order, any call less than a window after the first:
    the window is restarted at most once, so the allowed calls are at most
    what the current counter leaves plus one full window. *)
Lemma allowed_in_span_le times : ∀ rl id,
  0 <= RateLimiter.maxRequests rl →
  counts_bounded rl →
  StronglySorted Z.le times →
  (∀ t1 rest, times = t1 :: rest →
     Forall (λ t, t - t1 < RateLimiter.windowMs rl) rest) →
  RateLimiterRun.allowed_count (RateLimiter.checks times id rl).1
  <= slack id rl + RateLimiter.maxRequests rl.
Proof.
  induction times as [|t times IH]; intros rl id Hmax Hb Hsorted Hspan.
  - assert (0 <= slack id rl).
    { unfold slack. destruct (RateLimiter.clients rl !! id) eqn:Hc; [|lia].
      pose proof (Hb _ _ Hc). lia. }
    simpl. unfold RateLimiterRun.allowed_count. simpl. lia.
  - rewrite checks_cons, allowed_count_cons.
    apply StronglySorted_inv in Hsorted as [Hsorted Hle].
    specialize (Hspan t times eq_refl).
    destruct (check_params t id rl) as [Em Ew].
    assert (Hslack : 0 <= slack id rl).
    { unfold slack. destruct (RateLimiter.clients rl !! id) eqn:Hc; [|lia].
      pose proof (Hb _ _ Hc). lia. }
    assert (Hopen : window_over t id rl →
      (if RateLimiter.allowed (RateLimiter.check t id rl).1 then 1 else 0)
      + RateLimiterRun.allowed_count
          (RateLimiter.checks times id (RateLimiter.check t id rl).2).1
      <= slack id rl + RateLimiter.maxRequests rl).
    { intros Hover. rewrite (check_new_window t id rl Hover).
      destruct (Z.ltb_spec 0 (RateLimiter.maxRequests rl)); simpl.
      - pose proof (allowed_in_window_le times
          (RateLimiter.set_clients rl
             (<[id := {| RateLimiter.count := 1;
                         RateLimiter.windowStart := t |}]>
                (RateLimiter.clients rl))) id
          {| RateLimiter.count := 1; RateLimiter.windowStart := t |}) as H1.
        simpl in H1. rewrite lookup_insert_eq in H1.
        specialize (H1 eq_refl ltac:(lia) Hspan). lia.
      - pose proof (allowed_in_window_le times
          (RateLimiter.set_clients rl
             (<[id := {| RateLimiter.count := 0;
                         RateLimiter.windowStart := t |}]>
                (RateLimiter.clients rl))) id
          {| RateLimiter.count := 0; RateLimiter.windowStart := t |}) as H1.
        simpl in H1. rewrite lookup_insert_eq in H1.
        specialize (H1 eq_refl ltac:(lia) Hspan). lia. }
    destruct (RateLimiter.clients rl !! id) as [c|] eqn:Hc;
      [|apply Hopen; unfold window_over; by rewrite Hc].
    destruct (Z_lt_ge_dec (t - RateLimiter.windowStart c)
                (RateLimiter.windowMs rl)) as [Hin|Hout];
      [|apply Hopen; unfold window_over; by rewrite Hc].
    assert (RateLimiterRun.allowed_count
              (RateLimiter.checks times id (RateLimiter.check t id rl).2).1
            <= slack id (RateLimiter.check t id rl).2
               + RateLimiter.maxRequests rl) as Hrest.
    { rewrite <- Em. apply IH; try done.
      - by rewrite Em.
      - apply check_counts_bounded; done.
      - intros t1 rest ->. rewrite Ew.
        apply Forall_cons in Hspan as [_ Hspan].
        apply Forall_cons in Hle as [Hle _].
        eapply Forall_impl; [exact Hspan|]. intros x Hx. simpl in Hx. lia. }
    revert Hrest. unfold slack. rewrite Em, Hc.
    rewrite (check_same_window t id rl c Hc Hin).
    destruct (Z.ltb_spec (RateLimiter.count c) (RateLimiter.maxRequests rl));
      simpl.
    + rewrite lookup_insert_eq. simpl. lia.
    + rewrite Hc. lia.
Qed.

(** X3.  The fixed window allows a burst at its seam, and no more than
    that: for calls of one identifier made in time order, any two of them
    less than [windowMs] apart, at most [2 * maxRequests] are allowed,
    whatever the limiter has seen before. *)
Theorem limiter_burst_at_most_twice_max
    (maxRequests windowMs : Z) (ops : list RateLimiterRun.operation)
    (times : list Z) (id : jsstring) :
  0 <= maxRequests →
  StronglySorted Z.le times →
  (∀ t t', t ∈ times → t' ∈ times → t' - t < windowMs) →
  RateLimiterRun.allowed_count
    (RateLimiter.checks times id
       (RateLimiterRun.run maxRequests windowMs ops)).1
  <= 2 * maxRequests.
Proof.
  intros Hmax Hsorted Hspan.
  destruct (run_counts_bounded maxRequests windowMs ops Hmax)
    as (Em & Ew & Hb).
  set (rl := RateLimiterRun.run maxRequests windowMs ops) in *.
  pose proof (allowed_in_span_le times rl id) as H.
  rewrite Em, Ew in H. specialize (H Hmax Hb Hsorted).
  assert (slack id rl <= maxRequests).
  { unfold slack. destruct (RateLimiter.clients rl !! id) eqn:Hc; [|lia].
    pose proof (Hb _ _ Hc). lia. }
  etrans; [apply H|lia].
  intros t1 rest ->. apply List.Forall_forall. intros t Ht.
  apply Hspan; [by left|]. right. by apply list_elem_of_In.
Qed.

Lemma limiter_burst_at_most_twice_max_witness :
  RateLimiterRun.allowed_count
    (RateLimiter.checks
       (replicate 10 9999 ++ replicate 11 10000) (lit "a")
       (RateLimiterRun.run 10 10000 [RateLimiterRun.Check 0 (lit "a")])).1
  <= 2 * 10.
Proof.
  apply (limiter_burst_at_most_twice_max 10 10000
           [RateLimiterRun.Check 0 (lit "a")]
           (replicate 10 9999 ++ replicate 11 10000) (lit "a")).
  - lia.
  - simpl. repeat (constructor; [|repeat constructor; lia]). constructor.
  - intros t t' Ht Ht'. simpl in Ht, Ht'.
    assert (t = 9999 ∨ t = 10000) by set_solver.
    assert (t' = 9999 ∨ t' = 10000) by set_solver. lia.
Defined.

(** The bound is nearly reached: one call at time 0, then nineteen of
    twenty-one calls made within one millisecond are allowed. *)
Example limiter_burst_of_nineteen :
  RateLimiterRun.allowed_count
    (RateLimiter.checks
       (replicate 10 9999 ++ replicate 11 10000) (lit "a")
       (RateLimiterRun.run 10 10000 [RateLimiterRun.Check 0 (lit "a")])).1
  = 19.
Proof. vm_compute. reflexivity. Qed.

(** ** The room manager: shape of rooms and participants *)

(** A display name as the manager stores it: not empty, at most
    [USERNAME.MAX_LENGTH] code units, no character of [\x00-\x1F\x7F]. *)
Definition good_name (n : jsstring) : Prop :=
  n ≠ []
  ∧ (List.length n <= Z.to_nat USERNAME_MAX_LENGTH)%nat
  ∧ Forall (λ c, RoomManager.is_control c = false) n.

(** A participant of connection [socketId]: its id is ['user_'] followed by
    the first 8 code units of the connection id. *)
Definition good_user (socketId : jsstring) (u : UserInfo.t) : Prop :=
  UserInfo.id u = lit "user_" ++ take 8 socketId
  ∧ good_name (UserInfo.name u).

Lemma generateUserName_good bits :
  good_name (RoomManager.generateUserName bits).
Proof.
  unfold RoomManager.generateUserName.
  pose proof (Number_toString_4digits _ (random_4digit_range bits)) as H4.
  unfold test_4digits in H4. apply andb_true_iff in H4 as [Hlen Hdig].
  apply Nat.eqb_eq in Hlen. split; [done|]. split.
  - rewrite length_app, Hlen. vm_compute. lia.
  - apply Forall_app. split; [by repeat constructor|].
    apply List.Forall_forall. intros c Hc.
    rewrite forallb_forall in Hdig. specialize (Hdig c Hc).
    unfold is_digit in Hdig. apply andb_true_iff in Hdig as [H1 H2].
    apply N.leb_le in H1, H2. unfold RoomManager.is_control.
    apply orb_false_iff. split; [apply N.leb_gt|apply N.eqb_neq]; lia.
Qed.

Lemma sanitizeUserName_good name n :
  RoomManager.sanitizeUserName name = Some n →
  (List.length n <= Z.to_nat USERNAME_MAX_LENGTH)%nat
  ∧ Forall (λ c, RoomManager.is_control c = false) n.
Proof.
  unfold RoomManager.sanitizeUserName. destruct name; try done.
  destruct (negb _); [done|]. destruct (_ <? _); [done|].
  intros [= <-]. split.
  - unfold remove_class, substring0.
    etrans; [apply filter_length_le|]. rewrite length_take. lia.
  - apply List.Forall_forall. intros c [_ Hc]%filter_In.
    by apply negb_true_iff in Hc.
Qed.

(** The participant that [joinRoom] creates. *)
Definition new_user (socketId : jsstring) (preferredName : value)
    (bits : Z) : UserInfo.t :=
  {| UserInfo.id := lit "user_" ++ take 8 socketId;
     UserInfo.name :=
       if truthy preferredName
       then RoomManager.or_else (RoomManager.sanitizeUserName preferredName)
                                (RoomManager.generateUserName bits)
       else RoomManager.generateUserName bits |}.

Lemma new_user_good socketId preferredName bits :
  good_user socketId (new_user socketId preferredName bits).
Proof.
  split; [done|]. simpl. destruct (truthy preferredName);
    [|apply generateUserName_good].
  unfold RoomManager.or_else.
  destruct (RoomManager.sanitizeUserName preferredName) as [n|] eqn:E;
    [|apply generateUserName_good].
  destruct n as [|c n]; [apply generateUserName_good|]. simpl.
  split; [done|]. by apply sanitizeUserName_good in E.
Qed.

Section RoomManagerShape.
Import RoomManager.
Context (cfg : Config).

Implicit Types (s : RoomManager.t) (roomId socketId : jsstring).

(** The state of [joinRoom] when it looks whether the caller is already in
    the room: the cleanup of the room is cancelled and a membership of the
    caller in another room is given up. *)
Definition before_join roomId socketId s : RoomManager.t :=
  let s := cancelRoomCleanup roomId s in
  match userSockets s !! socketId with
  | Some existingUserInfo =>
      if bool_decide (SocketEntry.roomId existingUserInfo ≠ roomId)
      then (leaveRoom cfg (SocketEntry.roomId existingUserInfo) socketId s).2
      else s
  | None => s
  end.

Definition entry_of roomId (u : UserInfo.t) : SocketEntry.t :=
  {| SocketEntry.roomId := roomId; SocketEntry.id := UserInfo.id u;
     SocketEntry.name := UserInfo.name u |}.

Definition room_full (room : Room.t) : bool :=
  (ROOM_MAX_USERS cfg >? 0) && (Room.userCount room >=? ROOM_MAX_USERS cfg).

Lemma joinRoom_unfold roomId socketId preferredName bits s :
  joinRoom cfg roomId socketId preferredName bits s =
    match rooms s !! roomId with
    | None => (Throw err_not_found, s)
    | Some room =>
        if room_full room then (Throw err_full, s)
        else
          match Room.users room !! socketId with
          | Some userInfo => (Ok userInfo, before_join roomId socketId s)
          | None =>
              let u := new_user socketId preferredName bits in
              (Ok u, added roomId socketId room u (entry_of roomId u)
                       (before_join roomId socketId s))
          end
    end.
Proof.
  unfold joinRoom, room_full. destruct (rooms s !! roomId) as [room|]; [|done].
  destruct (_ && _); [done|]. cbv zeta. fold (before_join roomId socketId s).
  by destruct (Room.users room !! socketId).
Qed.

(** [before_join] keeps the room that is being joined in place. *)
Lemma before_join_room roomId socketId s :
  rooms (before_join roomId socketId s) !! roomId = rooms s !! roomId.
Proof.
  unfold before_join. cbv zeta.
  destruct (cancelRoomCleanup_rooms roomId s) as [Er Eu].
  destruct (userSockets _ !! socketId) as [e|]; [|by rewrite Er].
  case_bool_decide; [|by rewrite Er].
  rewrite leaveRoom_other_room by done. by rewrite Er.
Qed.

(** How one call can change a room that it keeps. *)
Inductive room_step : Room.t → Room.t → Prop :=
| room_same room : room_step room room
| room_history room messages :
    room_step room (Room.set_messages room messages)
| room_loses room socketId :
    room_step room
      (Room.set_users room (delete socketId (Room.users room)))
| room_gains room socketId u :
    Room.users room !! socketId = None →
    room_full room = false →
    good_user socketId u →
    room_step room
      (Room.set_users room (<[socketId := u]> (Room.users room)))
| room_renames room socketId u n :
    Room.users room !! socketId = Some u →
    good_name n →
    room_step room
      (Room.set_users room
         (<[socketId := {| UserInfo.id := UserInfo.id u;
                           UserInfo.name := n |}]> (Room.users room))).

Lemma cancel_sub roomId s r room' :
  rooms (cancelRoomCleanup roomId s) !! r = Some room' →
  rooms s !! r = Some room'.
Proof. by rewrite (proj1 (cancelRoomCleanup_rooms _ _)). Qed.

Lemma destroyRoom_sub roomId s r room' :
  rooms (destroyRoom roomId s) !! r = Some room' →
  rooms s !! r = Some room'.
Proof. rewrite destroyRoom_rooms. by case_decide. Qed.

Lemma scheduleRoomCleanup_sub roomId s r room' :
  rooms (scheduleRoomCleanup cfg roomId s) !! r = Some room' →
  rooms s !! r = Some room'.
Proof.
  unfold scheduleRoomCleanup. destruct (_ <=? 0).
  - intros H%destroyRoom_sub. by apply cancel_sub in H.
  - simpl. apply cancel_sub.
Qed.

Lemma cleanupTimerFired_sub roomId s r room' :
  rooms (cleanupTimerFired roomId s) !! r = Some room' →
  rooms s !! r = Some room'.
Proof.
  unfold cleanupTimerFired. case_bool_decide; [|done]. simpl.
  destruct (rooms s !! roomId) as [room|]; [|done].
  destruct (_ =? 0); [apply destroyRoom_sub|done].
Qed.

Lemma leaveRoom_room_step roomId socketId s r room' :
  rooms (leaveRoom cfg roomId socketId s).2 !! r = Some room' →
  ∃ room, rooms s !! r = Some room ∧ room_step room room'.
Proof.
  rewrite leaveRoom_unfold.
  destruct (rooms s !! roomId) as [room|] eqn:E;
    [|intros H; exists room'; split; [done|constructor]].
  destruct (Room.users room !! socketId) as [userInfo|] eqn:Eu;
    [|intros H; exists room'; split; [done|constructor]].
  simpl. intros H.
  assert (rooms (removed roomId socketId room s) !! r = Some room') as H'.
  { destruct (_ =? 0); [by apply scheduleRoomCleanup_sub in H|done]. }
  unfold removed in H'. simpl in H'. rewrite lookup_insert in H'.
  case_decide as Hr.
  - subst r. injection H' as <-. exists room. split; [done|constructor].
  - exists room'. split; [done|constructor].
Qed.

Lemma before_join_room_step roomId socketId s r room' :
  rooms (before_join roomId socketId s) !! r = Some room' →
  ∃ room, rooms s !! r = Some room ∧ room_step room room'.
Proof.
  unfold before_join. cbv zeta.
  destruct (cancelRoomCleanup_rooms roomId s) as [Er Eu].
  destruct (userSockets _ !! socketId) as [e|].
  - case_bool_decide as Hne.
    + intros (room & Hroom & Hstep)%leaveRoom_room_step.
      exists room. by rewrite <- Er.
    + rewrite Er. intros Hr. exists room'. split; [done|constructor].
  - rewrite Er. intros Hr. exists room'. split; [done|constructor].
Qed.

Lemma generateRoomCode_4digits rnd rs code :
  generateRoomCode rnd rs = Ok code → test_4digits code = true.
Proof.
  rewrite generateRoomCode_spec.
  destruct (first_free rnd rs 0 99) as [j|]; [|done].
  intros [= <-]. apply Number_toString_4digits, random_4digit_range.
Qed.

(** Every room after an operation is a room from before, changed in one of
    the four ways, or the new empty room of [createRoom] under a code of
    four digits that was free. *)
Lemma step_room_step s op r room' :
  rooms (step cfg s op) !! r = Some room' →
  (∃ room, rooms s !! r = Some room ∧ room_step room room')
  ∨ (rooms s !! r = None ∧ test_4digits r = true
     ∧ Room.id room' = r ∧ Room.users room' = ∅ ∧ Room.messages room' = []
     ∧ ∃ now rnd, op = CreateRoom now rnd).
Proof.
  destruct op as [now rnd|roomId socketId preferredName bits|roomId socketId
                  |socketId|roomId|socketId newName|roomId]; simpl.
  - unfold createRoom. destruct (_ && _);
      [intros H; left; exists room'; split; [done|constructor]|].
    destruct (generateRoomCode rnd (rooms s)) as [code|] eqn:E;
      [|intros H; left; exists room'; split; [done|constructor]].
    simpl. rewrite lookup_insert. case_decide as Hr.
    + subst r. intros [= <-]. right. simpl.
      split; [by apply generateRoomCode_fresh in E|].
      split; [by apply generateRoomCode_4digits in E|]. eauto 10.
    + intros H. left. exists room'. split; [done|constructor].
  - rewrite joinRoom_unfold.
    destruct (rooms s !! roomId) as [room|] eqn:E;
      [|intros H; left; exists room'; split; [done|constructor]].
    destruct (room_full room) eqn:Ef;
      [intros H; left; exists room'; split; [done|constructor]|].
    destruct (Room.users room !! socketId) as [userInfo|] eqn:Eu; simpl.
    + intros H. left. by apply before_join_room_step in H.
    + unfold added. simpl. rewrite lookup_insert. case_decide as Hr.
      * subst r. intros [= <-]. left. exists room. split; [done|].
        constructor; [done|done|apply new_user_good].
      * intros H. left. by apply before_join_room_step in H.
  - intros H. left. by apply leaveRoom_room_step in H.
  - unfold handleDisconnect.
    destruct (userSockets s !! socketId) as [e|];
      [|intros H; left; exists room'; split; [done|constructor]].
    intros H. left. apply (leaveRoom_room_step (SocketEntry.roomId e)
                             socketId s r room').
    by destruct (leaveRoom cfg _ socketId s) as [[removedUser|] s'].
  - intros H%destroyRoom_sub. left. exists room'. split; [done|constructor].
  - unfold updateUserName.
    destruct (sanitizeUserName newName) as [n|] eqn:En;
      [|intros H; left; exists room'; split; [done|constructor]].
    destruct (negb _) eqn:Et;
      [intros H; left; exists room'; split; [done|constructor]|].
    destruct (userSockets s !! socketId) as [e|];
      [|intros H; left; exists room'; split; [done|constructor]].
    destruct (rooms s !! SocketEntry.roomId e) as [room|] eqn:E;
      [|intros H; left; exists room'; split; [done|constructor]].
    destruct (Room.users room !! socketId) as [roomUser|] eqn:Eu;
      [|intros H; left; exists room'; split; [done|constructor]].
    simpl. rewrite lookup_insert. case_decide as Hr.
    + subst r. intros [= <-]. left. exists room. split; [done|].
      apply room_renames; [done|].
      apply sanitizeUserName_good in En. split; [|done].
      intros ->. done.
    + intros H. left. exists room'. split; [done|constructor].
  - intros H%cleanupTimerFired_sub. left. exists room'.
    split; [done|constructor].
Qed.

(** [addMessage] keeps every room and changes the history of one. *)
Lemma addMessage_room_step fuel roomId message s s' r room' :
  addMessage cfg fuel roomId message s = Some s' →
  rooms s' !! r = Some room' →
  ∃ room, rooms s !! r = Some room ∧ room_step room room'.
Proof.
  unfold addMessage.
  destruct (rooms s !! roomId) as [room|] eqn:E.
  - destruct (shift_while cfg fuel _) as [messages|]; [|done]. simpl.
    intros [= <-]. simpl. rewrite lookup_insert. case_decide as Hr.
    + subst r. intros [= <-]. exists room. split; [done|constructor].
    + intros H. exists room'. split; [done|constructor].
  - intros [= <-] H. exists room'. split; [done|constructor].
Qed.

End RoomManagerShape.

(** ** The states that the room manager reaches *)

Section ReachableStates.
Import RoomManager.
Context (cfg : Config).

(** Induction over the calls that lead to a state: what holds of the new
    manager and survives every operation and every [addMessage] that
    returns, holds of every state that is reached. *)
Lemma reach_ind (P : RoomManager.t → Prop) :
  P new →
  (∀ s op, P s → P (step cfg s op)) →
  (∀ s fuel roomId message s',
     P s → addMessage cfg fuel roomId message s = Some s' → P s') →
  ∀ calls s, reach cfg calls = Some s → P s.
Proof.
  intros Hnew Hstep Hadd. unfold reach.
  induction calls as [|c calls IH] using rev_ind; intros s.
  - simpl. by intros [= <-].
  - rewrite foldl_app. simpl.
    destruct (foldl _ (Some new) calls) as [s0|]; [|done]. simpl.
    specialize (IH s0 eq_refl).
    destruct c as [op|fuel roomId message]; simpl.
    + intros [= <-]. by apply Hstep.
    + intros Ha. by eapply Hadd.
Qed.

(** The states of [run] are among them. *)
Lemma reach_operations ops :
  reach cfg (Operation <$> ops) = Some (run cfg ops).
Proof.
  unfold reach, run. induction ops as [|op ops IH] using rev_ind; [done|].
  rewrite fmap_app, !foldl_app. simpl. by rewrite IH.
Qed.

Lemma reach_in_sync calls s : reach cfg calls = Some s → in_sync s.
Proof.
  revert calls s. apply reach_ind.
  - apply new_in_sync.
  - intros s op. apply step_in_sync.
  - intros s fuel roomId message s' Hs Ha. by eapply addMessage_in_sync.
Qed.

(** A property of rooms that holds of new rooms and survives the five
    changes holds of every room of every state that is reached. *)
Lemma reach_rooms_ind (P : jsstring → Room.t → Prop) :
  (∀ r room, test_4digits r = true → Room.id room = r →
             Room.users room = ∅ → Room.messages room = [] → P r room) →
  (∀ r room room', P r room → room_step cfg room room' → P r room') →
  ∀ calls s, reach cfg calls = Some s →
  ∀ r room, rooms s !! r = Some room → P r room.
Proof.
  intros Hnew Hstep.
  apply (reach_ind (λ s, ∀ r room, rooms s !! r = Some room → P r room)).
  - intros r room. simpl. by rewrite lookup_empty.
  - intros s op IH r room
      [(room0 & H0 & Hs)|(_ & H4 & Hid & Hu & Hm & _)]%step_room_step.
    + eapply Hstep; [|exact Hs]. by apply IH.
    + by apply Hnew.
  - intros s fuel roomId message s' IH Ha r room Hr.
    destruct (addMessage_room_step cfg _ _ _ _ _ _ _ Ha Hr)
      as (room0 & H0 & Hs).
    eapply Hstep; [|exact Hs]. by apply IH.
Qed.

End ReachableStates.

Section RoomManagerInvariants.
Import RoomManager.
Context (cfg : Config).

Lemma room_step_id room room' :
  room_step cfg room room' → Room.id room' = Room.id room.
Proof. by destruct 1. Qed.

Lemma room_step_users room room' :
  room_step cfg room room' →
  (∀ socketId u, Room.users room !! socketId = Some u →
                 good_user socketId u) →
  ∀ socketId u, Room.users room' !! socketId = Some u → good_user socketId u.
Proof.
  destruct 1 as [room|room ms|room sid|room sid u Hn Hf Hu
                  |room sid u n Hs Hn];
    intros Hall socketId u'; simpl; try apply Hall.
  - rewrite lookup_delete. case_decide; [done|apply Hall].
  - rewrite lookup_insert. case_decide; [|apply Hall].
    intros [= <-]. by subst.
  - rewrite lookup_insert. case_decide; [|apply Hall].
    intros [= <-]. subst. destruct (Hall _ _ Hs) as [Hid _]. by split.
Qed.

Lemma room_step_count room room' :
  room_step cfg room room' →
  ROOM_MAX_USERS cfg > 0 →
  Room.userCount room <= ROOM_MAX_USERS cfg →
  Room.userCount room' <= ROOM_MAX_USERS cfg.
Proof.
  unfold Room.userCount.
  destruct 1 as [room|room ms|room sid|room sid u Hn Hf Hu
                  |room sid u n Hs Hn];
    intros Hpos Hle; simpl; try done.
  - rewrite map_size_delete. destruct (Room.users room !! sid); simpl; lia.
  - rewrite map_size_insert_None by done.
    unfold room_full, Room.userCount in Hf.
    apply andb_false_iff in Hf as [Hf|Hf].
    + rewrite Z.gtb_ltb in Hf. apply Z.ltb_ge in Hf. lia.
    + rewrite Z.geb_leb in Hf. apply Z.leb_gt in Hf. lia.
  - rewrite map_size_insert_Some by (by eexists). done.
Qed.

End RoomManagerInvariants.

(** Two members in the room "1000", one message stored, one rename. *)
Definition chat_calls : list RoomManager.method_call :=
  [RoomManager.Operation (RoomManager.CreateRoom 0 (λ _, 0));
   RoomManager.Operation
     (RoomManager.JoinRoom (lit "1000") (sock 0) (VString (lit "  Ada  ")) 0);
   RoomManager.Operation
     (RoomManager.JoinRoom (lit "1000") (sock 1) (VString (lit "Bob")) 0);
   RoomManager.AddMessage 1 (lit "1000") (text_message 1 "hello");
   RoomManager.Operation
     (RoomManager.UpdateUserName (sock 1) (VString (lit "Eve")))].

Definition chat_state : RoomManager.t :=
  default RoomManager.new (RoomManager.reach default_config chat_calls).

Definition chat_room : Room.t :=
  {| Room.id := lit "1000";
     Room.users :=
       <[sock 0 := {| UserInfo.id := lit "user_socket-0";
                      UserInfo.name := lit "Ada" |}]>
         (<[sock 1 := {| UserInfo.id := lit "user_socket-1";
                         UserInfo.name := lit "Eve" |}]> ∅);
     Room.createdAt := 0;
     Room.messages := [text_message 1 "hello"] |}.

Example chat_state_room :
  RoomManager.reach default_config chat_calls = Some chat_state
  ∧ RoomManager.rooms chat_state !! lit "1000" = Some chat_room.
Proof. split; vm_compute; reflexivity. Qed.

(** X4.  In every state that the room manager reaches by calls of
    createRoom, joinRoom, leaveRoom, handleDisconnect, destroyRoom,
    updateUserName and addMessage and by expiries of its timeouts, each
    live room is stored under a code of exactly four digits, and its [id]
    field is that code. *)
Theorem live_rooms_have_4digit_codes
    (cfg : Config) (calls : list RoomManager.method_call)
    (s : RoomManager.t) (roomId : jsstring) (room : Room.t) :
  RoomManager.reach cfg calls = Some s →
  RoomManager.rooms s !! roomId = Some room →
  test_4digits roomId = true ∧ Room.id room = roomId.
Proof.
  revert calls s. intros calls s Hreach. revert roomId room.
  revert calls s Hreach.
  apply (reach_rooms_ind cfg
           (λ r room, test_4digits r = true ∧ Room.id room = r)).
  - done.
  - intros r room room' [H4 Hid] ->%room_step_id. done.
Qed.

Lemma live_rooms_have_4digit_codes_witness :
  test_4digits (lit "1000") = true ∧ Room.id chat_room = lit "1000".
Proof.
  apply (live_rooms_have_4digit_codes default_config chat_calls chat_state
           (lit "1000") chat_room).
  - vm_compute. reflexivity.
  - vm_compute. reflexivity.
Defined.

(** X5.  In every state that the room manager reaches (by any of its
    calls, [addMessage] included), every participant of every room has
    the id ['user_'] followed by the first 8 code units of its connection
    id, and a display name that is not empty, has at most 20 code units
    and contains no character of [\x00-\x1F\x7F] - whether the name was
    generated, preferred at join time or set by a rename. *)
Theorem participants_are_well_formed
    (cfg : Config) (calls : list RoomManager.method_call)
    (s : RoomManager.t)
    (roomId socketId : jsstring) (room : Room.t) (u : UserInfo.t) :
  RoomManager.reach cfg calls = Some s →
  RoomManager.rooms s !! roomId = Some room →
  Room.users room !! socketId = Some u →
  good_user socketId u.
Proof.
  intros Hreach Hroom. revert socketId u. revert roomId room Hroom.
  revert calls s Hreach.
  apply (reach_rooms_ind cfg
           (λ r room, ∀ socketId u, Room.users room !! socketId = Some u →
                                    good_user socketId u)).
  - intros r room _ _ -> _ socketId u. by rewrite lookup_empty.
  - intros r room room' Hall Hstep. by eapply room_step_users.
Qed.

Lemma participants_are_well_formed_witness :
  good_user (sock 1)
    {| UserInfo.id := lit "user_socket-1"; UserInfo.name := lit "Eve" |}.
Proof.
  apply (participants_are_well_formed default_config chat_calls chat_state
           (lit "1000") (sock 1) chat_room).
  - vm_compute. reflexivity.
  - vm_compute. reflexivity.
  - vm_compute. reflexivity.
Defined.

Section RoomManagerLimits.
Import RoomManager.
Context (cfg : Config).

Lemma step_rooms_count s op :
  ROOM_MAX_ROOMS cfg > 0 →
  Z.of_nat (size (rooms s)) <= ROOM_MAX_ROOMS cfg →
  Z.of_nat (size (rooms (step cfg s op))) <= ROOM_MAX_ROOMS cfg.
Proof.
  intros Hpos Hle.
  assert ((∃ now rnd, op = CreateRoom now rnd)
          ∨ ¬ (∃ now rnd, op = CreateRoom now rnd))
    as [(now & rnd & ->)|Hother]
    by (destruct op; eauto; right; by intros (? & ? & ?)).
  - simpl. unfold createRoom.
    destruct (Z.gtb_spec (ROOM_MAX_ROOMS cfg) 0); [|lia]. rewrite Z.geb_leb.
    destruct (Z.leb_spec (ROOM_MAX_ROOMS cfg) (Z.of_nat (size (rooms s))));
      simpl; [done|].
    destruct (generateRoomCode rnd (rooms s)) as [code|] eqn:E; [|done].
    apply generateRoomCode_fresh in E. simpl.
    rewrite map_size_insert_None by done. lia.
  - assert (dom (rooms (step cfg s op)) ⊆ dom (rooms s)) as Hsub.
    { intros r [room' Hr]%elem_of_dom.
      apply step_room_step in Hr as [(room & Hroom & _)|(_ & _ & _ & _ & _ & Hc)].
      - apply elem_of_dom. by eexists.
      - by destruct Hother. }
    apply subseteq_size in Hsub. rewrite !size_dom in Hsub. lia.
Qed.

(** [addMessage] adds and removes no room. *)
Lemma addMessage_rooms_size fuel roomId message s s' :
  addMessage cfg fuel roomId message s = Some s' →
  size (rooms s') = size (rooms s).
Proof.
  unfold addMessage.
  destruct (rooms s !! roomId) as [room|] eqn:E; [|by intros [= <-]].
  destruct (shift_while cfg fuel _) as [messages|]; [|done]. simpl.
  intros [= <-]. simpl. by rewrite map_size_insert_Some by (by eexists).
Qed.

Lemma reach_rooms_count calls s :
  ROOM_MAX_ROOMS cfg > 0 → reach cfg calls = Some s →
  Z.of_nat (size (rooms s)) <= ROOM_MAX_ROOMS cfg.
Proof.
  intros Hpos. revert calls s. apply reach_ind.
  - simpl. rewrite map_size_empty. lia.
  - intros s op. by apply step_rooms_count.
  - intros s fuel roomId message s' Hle Ha.
    by rewrite (addMessage_rooms_size _ _ _ _ _ Ha).
Qed.

End RoomManagerLimits.

(** X6.  The two capacity ceilings are never exceeded: in every state
    that the room manager reaches (by any of its calls, [addMessage]
    included), when [MAX_ROOMS > 0] there are at most [MAX_ROOMS] live
    rooms, and when [MAX_USERS > 0] every live room has at most
    [MAX_USERS] members. *)
Theorem capacity_ceilings_hold
    (cfg : Config) (calls : list RoomManager.method_call)
    (s : RoomManager.t) :
  RoomManager.reach cfg calls = Some s →
  (ROOM_MAX_ROOMS cfg > 0 →
   Z.of_nat (size (RoomManager.rooms s)) <= ROOM_MAX_ROOMS cfg)
  ∧ (ROOM_MAX_USERS cfg > 0 →
     ∀ roomId room,
       RoomManager.rooms s !! roomId = Some room →
       Room.userCount room <= ROOM_MAX_USERS cfg).
Proof.
  intros Hreach. split.
  - intros Hpos. by eapply reach_rooms_count.
  - intros Hpos. revert calls s Hreach.
    apply (reach_rooms_ind cfg
             (λ _ room, Room.userCount room <= ROOM_MAX_USERS cfg)).
    + intros r room _ _ Hu _. unfold Room.userCount.
      rewrite Hu, map_size_empty. lia.
    + intros r room room' Hle Hstep. by eapply room_step_count.
Qed.

(** Sixty connections try to join the room "1000", and a message is
    stored in it. *)
Definition crowded_calls : list RoomManager.method_call :=
  (RoomManager.Operation
     <$> RoomManager.CreateRoom 0 (λ _, 0)
         :: map (λ i, RoomManager.JoinRoom (lit "1000") (sock i) VNull 0)
                (seq 0 60))
  ++ [RoomManager.AddMessage 1 (lit "1000") (text_message 1 "hello")].

Definition crowded_state : RoomManager.t :=
  default RoomManager.new (RoomManager.reach default_config crowded_calls).

Lemma capacity_ceilings_hold_witness :
  (ROOM_MAX_ROOMS default_config > 0 →
   Z.of_nat (size (RoomManager.rooms crowded_state)) <= 1000)
  ∧ (ROOM_MAX_USERS default_config > 0 →
     ∀ roomId room,
       RoomManager.rooms crowded_state !! roomId = Some room →
       Room.userCount room <= 50).
Proof.
  apply (capacity_ceilings_hold default_config crowded_calls crowded_state).
  vm_compute. reflexivity.
Defined.

(** Sixty connections try to join one room: fifty get in. *)
Example sixty_join_fifty_stay :
  RoomManager.getRoomUserCount (lit "1000") (room_of default_config 60) = 50.
Proof. vm_compute. reflexivity. Qed.

(** ** The reverse index holds the participant's data *)

Section ReverseEntries.
Import RoomManager.
Context (cfg : Config).

Implicit Types (s : RoomManager.t) (roomId socketId : jsstring).

(** Every reverse entry carries the id and the name that the room it names
    has for the connection. *)
Definition entries_agree s : Prop :=
  ∀ socketId e, userSockets s !! socketId = Some e →
    ∃ room, rooms s !! SocketEntry.roomId e = Some room
            ∧ Room.users room !! socketId
              = Some {| UserInfo.id := SocketEntry.id e;
                        UserInfo.name := SocketEntry.name e |}.

Lemma entries_agree_ext s s' :
  rooms s' = rooms s → userSockets s' = userSockets s →
  entries_agree s → entries_agree s'.
Proof. intros Er Eu H socketId e. rewrite Er, Eu. apply H. Qed.

Lemma destroyRoom_agree roomId s :
  entries_agree s → entries_agree (destroyRoom roomId s).
Proof.
  intros H socketId e. rewrite destroyRoom_userSockets.
  destruct (rooms s !! roomId) as [room|] eqn:E.
  - case_decide as Hin; [done|]. intros He.
    destruct (H _ _ He) as (room0 & Hroom0 & Hu). exists room0.
    split; [|done]. rewrite destroyRoom_rooms. case_decide as Hr; [|done].
    rewrite Hr, E in Hroom0. injection Hroom0 as <-.
    destruct Hin. by eexists.
  - intros He. destruct (H _ _ He) as (room0 & Hroom0 & Hu). exists room0.
    split; [|done]. rewrite destroyRoom_rooms. case_decide as Hr; [|done].
    congruence.
Qed.

Lemma scheduleRoomCleanup_agree roomId s :
  entries_agree s → entries_agree (scheduleRoomCleanup cfg roomId s).
Proof.
  intros H. unfold scheduleRoomCleanup.
  destruct (cancelRoomCleanup_rooms roomId s) as [Er Eu].
  assert (entries_agree (cancelRoomCleanup roomId s)) as H'
    by (by apply (entries_agree_ext s)).
  destruct (_ <=? 0); [by apply destroyRoom_agree|].
  by apply (entries_agree_ext (cancelRoomCleanup roomId s)).
Qed.

Lemma removed_agree roomId socketId room s :
  rooms s !! roomId = Some room →
  entries_agree s → entries_agree (removed roomId socketId room s).
Proof.
  intros E H k e. unfold removed. simpl. rewrite lookup_delete.
  case_decide as Hk; [done|]. intros He.
  destruct (H _ _ He) as (room0 & Hroom0 & Hu).
  rewrite lookup_insert. case_decide as Hr.
  - rewrite <- Hr, E in Hroom0. injection Hroom0 as <-.
    eexists. split; [done|]. simpl. by rewrite lookup_delete_ne.
  - by exists room0.
Qed.

Lemma leaveRoom_agree roomId socketId s :
  entries_agree s → entries_agree (leaveRoom cfg roomId socketId s).2.
Proof.
  intros H. rewrite leaveRoom_unfold.
  destruct (rooms s !! roomId) as [room|] eqn:E; [|done].
  destruct (Room.users room !! socketId) as [userInfo|] eqn:Eu; [|done].
  simpl. pose proof (removed_agree roomId socketId room s E H) as H'.
  destruct (_ =? 0); [by apply scheduleRoomCleanup_agree|done].
Qed.

Lemma before_join_agree roomId socketId s :
  entries_agree s → entries_agree (before_join cfg roomId socketId s).
Proof.
  intros H. unfold before_join. cbv zeta.
  destruct (cancelRoomCleanup_rooms roomId s) as [Er Eu].
  assert (entries_agree (cancelRoomCleanup roomId s)) as H'
    by (by apply (entries_agree_ext s)).
  destruct (userSockets _ !! socketId) as [e|]; [|done].
  case_bool_decide; [by apply leaveRoom_agree|done].
Qed.

Lemma added_agree roomId socketId room u s :
  rooms s !! roomId = Some room →
  entries_agree s →
  entries_agree (added roomId socketId room u (entry_of roomId u) s).
Proof.
  intros E H k e. unfold added. simpl. rewrite lookup_insert.
  case_decide as Hk.
  - intros [= <-]. subst k. simpl. rewrite lookup_insert_eq.
    eexists. split; [done|]. simpl. rewrite lookup_insert_eq.
    by destruct u.
  - intros He. destruct (H _ _ He) as (room0 & Hroom0 & Hu).
    rewrite lookup_insert. case_decide as Hr.
    + rewrite <- Hr, E in Hroom0. injection Hroom0 as <-.
      eexists. split; [done|]. simpl. by rewrite lookup_insert_ne.
    + by exists room0.
Qed.

Lemma step_agree s op : entries_agree s → entries_agree (step cfg s op).
Proof.
  intros H.
  destruct op as [now rnd|roomId socketId preferredName bits|roomId socketId
                  |socketId|roomId|socketId newName|roomId]; simpl.
  - unfold createRoom. destruct (_ && _); [done|].
    destruct (generateRoomCode rnd (rooms s)) as [code|] eqn:E; [|done].
    apply generateRoomCode_fresh in E. simpl. intros k e He.
    destruct (H _ _ He) as (room0 & Hroom0 & Hu). exists room0.
    split; [|done]. simpl. rewrite lookup_insert_ne; [done|]. congruence.
  - rewrite joinRoom_unfold.
    destruct (rooms s !! roomId) as [room|] eqn:E; [|done].
    destruct (room_full cfg room); [done|].
    destruct (Room.users room !! socketId) as [userInfo|]; simpl.
    + by apply before_join_agree.
    + apply added_agree; [|by apply before_join_agree].
      by rewrite before_join_room.
  - by apply leaveRoom_agree.
  - unfold handleDisconnect.
    destruct (userSockets s !! socketId) as [e|]; [|done].
    pose proof (leaveRoom_agree (SocketEntry.roomId e) socketId s H) as H'.
    by destruct (leaveRoom cfg _ socketId s) as [[removedUser|] s'].
  - by apply destroyRoom_agree.
  - unfold updateUserName.
    destruct (sanitizeUserName newName) as [n|]; [|done].
    destruct (negb _); [done|].
    destruct (userSockets s !! socketId) as [e|] eqn:Ee; [|done].
    destruct (rooms s !! SocketEntry.roomId e) as [room|] eqn:E; [|done].
    destruct (Room.users room !! socketId) as [roomUser|] eqn:Eu; [|done].
    simpl. intros k e'. simpl. rewrite lookup_insert.
    case_decide as Hk.
    + intros [= <-]. subst k. simpl. rewrite lookup_insert_eq.
      eexists. split; [done|]. simpl. rewrite lookup_insert_eq.
      destruct (H _ _ Ee) as (room0 & Hroom0 & Hu).
      rewrite E in Hroom0. injection Hroom0 as <-.
      rewrite Eu in Hu. by injection Hu as ->.
    + intros He'. destruct (H _ _ He') as (room0 & Hroom0 & Hu).
      rewrite lookup_insert. case_decide as Hr.
      * rewrite <- Hr, E in Hroom0. injection Hroom0 as <-.
        eexists. split; [done|]. simpl. by rewrite lookup_insert_ne.
      * by exists room0.
  - unfold cleanupTimerFired. case_bool_decide; [|done].
    eapply (entries_agree_ext
              match rooms s !! roomId with
              | Some room =>
                  if Room.userCount room =? 0 then destroyRoom roomId s else s
              | None => s
              end); [done|done|].
    destruct (rooms s !! roomId) as [room|]; [|done].
    destruct (_ =? 0); [by apply destroyRoom_agree|done].
Qed.

Lemma addMessage_agree fuel roomId message s s' :
  addMessage cfg fuel roomId message s = Some s' →
  entries_agree s → entries_agree s'.
Proof.
  unfold addMessage.
  destruct (rooms s !! roomId) as [room|] eqn:E; [|by intros [= <-]].
  destruct (shift_while cfg fuel _) as [messages|]; [|done]. simpl.
  intros [= <-] Hagree socketId e He. simpl in He |- *.
  destruct (Hagree _ _ He) as (room' & Hroom & Hu).
  destruct (decide (SocketEntry.roomId e = roomId)) as [Hr|Hne].
  - rewrite Hr, lookup_insert_eq. rewrite Hr, E in Hroom.
    injection Hroom as <-. by eexists.
  - rewrite lookup_insert_ne by done. by exists room'.
Qed.

Lemma reach_agree calls s : reach cfg calls = Some s → entries_agree s.
Proof.
  revert calls s. apply reach_ind.
  - intros socketId e. simpl. by rewrite lookup_empty.
  - intros s op. apply step_agree.
  - intros s fuel roomId message s' Hs Ha. by eapply addMessage_agree.
Qed.

Lemma run_agree ops : entries_agree (run cfg ops).
Proof.
  unfold run. induction ops as [|op ops IH] using rev_ind.
  - intros k e. simpl. by rewrite lookup_empty.
  - rewrite foldl_app. simpl. by apply step_agree.
Qed.

End ReverseEntries.

(** X7.  In every state that the room manager reaches (by any of its
    calls, [addMessage] included) the reverse index and the rooms agree on
    the participant's data too: the entry of a connection carries exactly
    the id and the display name that the room it names holds for that
    connection, also after renames. *)
Theorem reverse_entries_carry_participant
    (cfg : Config) (calls : list RoomManager.method_call)
    (s : RoomManager.t) (socketId : jsstring) (e : SocketEntry.t) :
  RoomManager.reach cfg calls = Some s →
  RoomManager.userSockets s !! socketId = Some e →
  ∃ room,
    RoomManager.rooms s !! SocketEntry.roomId e = Some room
    ∧ Room.users room !! socketId
      = Some {| UserInfo.id := SocketEntry.id e;
                UserInfo.name := SocketEntry.name e |}.
Proof. intros Hreach. by apply (reach_agree cfg calls). Qed.

Lemma reverse_entries_carry_participant_witness :
  ∃ room,
    RoomManager.rooms chat_state !! lit "1000" = Some room
    ∧ Room.users room !! sock 1
      = Some {| UserInfo.id := lit "user_socket-1";
                UserInfo.name := lit "Eve" |}.
Proof.
  apply (reverse_entries_carry_participant default_config chat_calls
           chat_state (sock 1)
           {| SocketEntry.roomId := lit "1000";
              SocketEntry.id := lit "user_socket-1";
              SocketEntry.name := lit "Eve" |}).
  - vm_compute. reflexivity.
  - vm_compute. reflexivity.
Defined.

(** ** Cleanup timers *)

Section CleanupTimers.
Import RoomManager.
Context (cfg : Config).

Implicit Types (s : RoomManager.t) (roomId socketId : jsstring).

(** [roomId] is a live room without members. *)
Definition empty_room s roomId : Prop :=
  ∃ room, rooms s !! roomId = Some room ∧ Room.users room = ∅.

(** A timeout is pending only for live rooms without members, and never
    when the cleanup delay is zero or less. *)
Definition timers_ok s : Prop :=
  (∀ r, r ∈ cleanupTimers s → empty_room s r)
  ∧ (ROOM_CLEANUP_DELAY_MS cfg <= 0 → cleanupTimers s = ∅).

Lemma userCount_0 room : Room.userCount room = 0 ↔ Room.users room = ∅.
Proof.
  unfold Room.userCount. rewrite <- map_size_empty_iff. lia.
Qed.

Lemma cancel_timers r0 s r :
  r ∈ cleanupTimers (cancelRoomCleanup r0 s) ↔ r ∈ cleanupTimers s ∧ r ≠ r0.
Proof.
  unfold cancelRoomCleanup. case_bool_decide; simpl; set_solver.
Qed.

Lemma timers_ok_sub s s' :
  (∀ r, r ∈ cleanupTimers s' → r ∈ cleanupTimers s) →
  (∀ r, r ∈ cleanupTimers s' → empty_room s r → empty_room s' r) →
  timers_ok s → timers_ok s'.
Proof.
  intros Hsub Hkeep [H1 H2]. split.
  - intros r Hr. apply Hkeep; [done|]. by apply H1, Hsub.
  - intros Hd. specialize (H2 Hd). apply set_eq. intros r.
    split; [|set_solver]. intros Hr%Hsub. by rewrite H2 in Hr.
Qed.

Lemma cancel_timers_ok r0 s :
  timers_ok s → timers_ok (cancelRoomCleanup r0 s).
Proof.
  apply timers_ok_sub.
  - by intros r [? _]%cancel_timers.
  - intros r _. unfold empty_room.
    by rewrite (proj1 (cancelRoomCleanup_rooms _ _)).
Qed.

Lemma destroy_timers r0 s r :
  r ∈ cleanupTimers (destroyRoom r0 s) →
  r ∈ cleanupTimers s ∧ (r = r0 → rooms s !! r0 = None).
Proof.
  unfold destroyRoom. destruct (rooms s !! r0) as [room|]; [|done].
  cbv zeta. intros [Hr Hne]%cancel_timers. simpl in Hr. by split.
Qed.

Lemma destroy_timers_ok r0 s : timers_ok s → timers_ok (destroyRoom r0 s).
Proof.
  apply timers_ok_sub.
  - by intros r [? _]%destroy_timers.
  - intros r [_ Hne]%destroy_timers (room & Hroom & Hu). exists room.
    split; [|done]. rewrite destroyRoom_rooms. case_decide as Hr; [|done].
    subst r. rewrite (Hne eq_refl) in Hroom. done.
Qed.

Lemma schedule_timers_ok r0 s :
  empty_room s r0 → timers_ok s → timers_ok (scheduleRoomCleanup cfg r0 s).
Proof.
  intros Hempty H. unfold scheduleRoomCleanup.
  pose proof (cancel_timers_ok r0 s H) as [H1 H2].
  destruct (Z.leb_spec (ROOM_CLEANUP_DELAY_MS cfg) 0) as [Hd|Hd].
  - by apply destroy_timers_ok.
  - split; [|lia]. intros r. simpl. unfold empty_room. simpl.
    rewrite (proj1 (cancelRoomCleanup_rooms _ _)).
    intros [->%elem_of_singleton|Hr]%elem_of_union; [done|].
    specialize (H1 r Hr). unfold empty_room in H1.
    by rewrite (proj1 (cancelRoomCleanup_rooms _ _)) in H1.
Qed.

Lemma removed_timers_ok roomId socketId room s :
  rooms s !! roomId = Some room →
  is_Some (Room.users room !! socketId) →
  timers_ok s → timers_ok (removed roomId socketId room s).
Proof.
  intros E Hin. apply timers_ok_sub; [done|].
  intros r _ (room0 & Hroom0 & Hu). exists room0. split; [|done].
  unfold removed. simpl. rewrite lookup_insert_ne; [done|].
  intros <-. rewrite E in Hroom0. injection Hroom0 as <-.
  rewrite Hu, lookup_empty in Hin. by destruct Hin.
Qed.

Lemma leaveRoom_timers_ok roomId socketId s :
  timers_ok s → timers_ok (leaveRoom cfg roomId socketId s).2.
Proof.
  intros H. rewrite leaveRoom_unfold.
  destruct (rooms s !! roomId) as [room|] eqn:E; [|done].
  destruct (Room.users room !! socketId) as [userInfo|] eqn:Eu; [|done].
  simpl. pose proof (removed_timers_ok roomId socketId room s E
                       (mk_is_Some _ _ Eu) H) as H'.
  destruct (Z.eqb_spec (Z.of_nat (size (delete socketId (Room.users room))))
              0) as [H0|]; [|done].
  apply schedule_timers_ok; [|done].
  eexists. split; [unfold removed; simpl; apply lookup_insert_eq|].
  simpl. apply map_size_empty_iff. lia.
Qed.

(** [leaveRoom] sets or clears no timeout of another room. *)
Lemma leaveRoom_timers_other roomId socketId s r :
  r ≠ roomId →
  r ∈ cleanupTimers (leaveRoom cfg roomId socketId s).2
  ↔ r ∈ cleanupTimers s.
Proof.
  intros Hne. rewrite leaveRoom_unfold.
  destruct (rooms s !! roomId) as [room|] eqn:E; [|done].
  destruct (Room.users room !! socketId) as [userInfo|] eqn:Eu; [|done].
  simpl. destruct (_ =? 0); [|done].
  unfold scheduleRoomCleanup. destruct (_ <=? 0).
  - unfold destroyRoom.
    destruct (rooms (cancelRoomCleanup roomId _) !! roomId); cbv zeta;
      rewrite ?cancel_timers; simpl; rewrite ?cancel_timers; simpl;
      set_solver.
  - simpl. rewrite elem_of_union, cancel_timers. simpl. set_solver.
Qed.

Lemma before_join_timers_ok roomId socketId s :
  timers_ok s →
  timers_ok (before_join cfg roomId socketId s)
  ∧ roomId ∉ cleanupTimers (before_join cfg roomId socketId s).
Proof.
  intros H. unfold before_join. cbv zeta.
  pose proof (cancel_timers_ok roomId s H) as H'.
  assert (roomId ∉ cleanupTimers (cancelRoomCleanup roomId s)) as Hn
    by (rewrite cancel_timers; tauto).
  destruct (userSockets _ !! socketId) as [e|]; [|done].
  case_bool_decide as Hr; [|done].
  split; [by apply leaveRoom_timers_ok|].
  by rewrite leaveRoom_timers_other.
Qed.

Lemma added_timers_ok roomId socketId room u entry s :
  roomId ∉ cleanupTimers s →
  timers_ok s → timers_ok (added roomId socketId room u entry s).
Proof.
  intros Hn. apply timers_ok_sub; [done|].
  intros r Hr (room0 & Hroom0 & Hu). exists room0. split; [|done].
  unfold added. simpl. rewrite lookup_insert_ne; [done|].
  intros <-. by apply Hn.
Qed.

Lemma cleanupTimerFired_timers_ok r0 s :
  timers_ok s → timers_ok (cleanupTimerFired r0 s).
Proof.
  intros H. unfold cleanupTimerFired. case_bool_decide; [|done].
  assert (timers_ok
    match rooms s !! r0 with
    | Some room => if Room.userCount room =? 0 then destroyRoom r0 s else s
    | None => s
    end) as H'.
  { destruct (rooms s !! r0) as [room|]; [|done].
    destruct (_ =? 0); [by apply destroy_timers_ok|done]. }
  revert H'. apply timers_ok_sub; simpl; [set_solver|done].
Qed.

Lemma step_timers_ok s op : timers_ok s → timers_ok (step cfg s op).
Proof.
  intros H.
  destruct op as [now rnd|roomId socketId preferredName bits|roomId socketId
                  |socketId|roomId|socketId newName|roomId]; simpl.
  - unfold createRoom. destruct (_ && _); [done|].
    destruct (generateRoomCode rnd (rooms s)) as [code|] eqn:E; [|done].
    apply generateRoomCode_fresh in E. simpl. revert H.
    apply timers_ok_sub; [done|].
    intros r _ (room0 & Hroom0 & Hu). exists room0. split; [|done].
    simpl. rewrite lookup_insert_ne; [done|]. congruence.
  - rewrite joinRoom_unfold.
    destruct (rooms s !! roomId) as [room|] eqn:E; [|done].
    destruct (room_full cfg room); [done|].
    destruct (before_join_timers_ok roomId socketId s H) as [H' Hn].
    destruct (Room.users room !! socketId) as [userInfo|]; simpl; [done|].
    by apply added_timers_ok.
  - by apply leaveRoom_timers_ok.
  - unfold handleDisconnect.
    destruct (userSockets s !! socketId) as [e|]; [|done].
    pose proof (leaveRoom_timers_ok (SocketEntry.roomId e) socketId s H)
      as H'.
    by destruct (leaveRoom cfg _ socketId s) as [[removedUser|] s'].
  - by apply destroy_timers_ok.
  - unfold updateUserName.
    destruct (sanitizeUserName newName) as [n|]; [|done].
    destruct (negb _); [done|].
    destruct (userSockets s !! socketId) as [e|] eqn:Ee; [|done].
    destruct (rooms s !! SocketEntry.roomId e) as [room|] eqn:E; [|done].
    destruct (Room.users room !! socketId) as [roomUser|] eqn:Eu; [|done].
    simpl. revert H. apply timers_ok_sub; [done|].
    intros r _ (room0 & Hroom0 & Hu). exists room0. split; [|done].
    simpl. rewrite lookup_insert_ne; [done|].
    intros <-. rewrite E in Hroom0. injection Hroom0 as <-.
    by rewrite Hu, lookup_empty in Eu.
  - by apply cleanupTimerFired_timers_ok.
Qed.

Lemma addMessage_timers_ok fuel roomId message s s' :
  addMessage cfg fuel roomId message s = Some s' →
  timers_ok s → timers_ok s'.
Proof.
  unfold addMessage.
  destruct (rooms s !! roomId) as [room|] eqn:E; [|by intros [= <-]].
  destruct (shift_while cfg fuel _) as [messages|]; [|done]. simpl.
  intros [= <-]. apply timers_ok_sub; [done|].
  intros r _ (room' & Hroom & Hu). unfold empty_room. simpl.
  destruct (decide (r = roomId)) as [->|Hne].
  - rewrite lookup_insert_eq. rewrite E in Hroom. injection Hroom as <-.
    by eexists.
  - rewrite lookup_insert_ne by done. by exists room'.
Qed.

Lemma reach_timers_ok calls s : reach cfg calls = Some s → timers_ok s.
Proof.
  revert calls s. apply reach_ind.
  - split; [|done]. intros r. simpl. set_solver.
  - intros s op. apply step_timers_ok.
  - intros s fuel roomId message s' Hs Ha. by eapply addMessage_timers_ok.
Qed.

End CleanupTimers.

(** X8.  In every state that the room manager reaches (by any of its
    calls, [addMessage] included) a cleanup timeout is pending only for a
    live room that has no members, so its expiry always destroys that
    room; and with a cleanup delay of zero or less no timeout is ever
    pending. *)
Theorem pending_timers_name_empty_rooms
    (cfg : Config) (calls : list RoomManager.method_call)
    (s : RoomManager.t) :
  RoomManager.reach cfg calls = Some s →
  (∀ roomId, roomId ∈ RoomManager.cleanupTimers s →
     (∃ room, RoomManager.rooms s !! roomId = Some room
              ∧ Room.users room = ∅)
     ∧ RoomManager.rooms (RoomManager.cleanupTimerFired roomId s) !! roomId
       = None
     ∧ roomId ∉ RoomManager.cleanupTimers
                  (RoomManager.cleanupTimerFired roomId s))
  ∧ (ROOM_CLEANUP_DELAY_MS cfg <= 0 → RoomManager.cleanupTimers s = ∅).
Proof.
  intros Hreach. destruct (reach_timers_ok cfg calls s Hreach) as [H1 H2].
  split; [|done]. intros roomId Hr.
  destruct (H1 _ Hr) as (room & Hroom & Hu). split; [by exists room|].
  unfold RoomManager.cleanupTimerFired.
  rewrite bool_decide_eq_true_2 by done. rewrite Hroom.
  rewrite (proj2 (userCount_0 room) Hu). simpl.
  split; [|set_solver].
  rewrite destroyRoom_rooms. by rewrite decide_True.
Qed.

(** The default configuration with another cleanup delay. *)
Definition with_cleanup_delay (n : Z) : Config :=
  {| EVENT_RATE_LIMIT := EVENT_RATE_LIMIT default_config;
     EVENT_RATE_WINDOW_MS := EVENT_RATE_WINDOW_MS default_config;
     RATE_LIMIT_MAX_MESSAGES := RATE_LIMIT_MAX_MESSAGES default_config;
     RATE_LIMIT_WINDOW_MS := RATE_LIMIT_WINDOW_MS default_config;
     MESSAGE_MAX_LENGTH := MESSAGE_MAX_LENGTH default_config;
     MESSAGE_HISTORY_LIMIT := MESSAGE_HISTORY_LIMIT default_config;
     ROOM_MAX_USERS := ROOM_MAX_USERS default_config;
     ROOM_CLEANUP_DELAY_MS := n;
     ROOM_MAX_ROOMS := ROOM_MAX_ROOMS default_config |}.

(** A room with a stored message that its only member has left, while
    the cleanup delay is five seconds. *)
Definition deserted_calls : list RoomManager.method_call :=
  [RoomManager.Operation (RoomManager.CreateRoom 0 (λ _, 0));
   RoomManager.Operation
     (RoomManager.JoinRoom (lit "1000") (sock 0) VNull 0);
   RoomManager.AddMessage 1 (lit "1000") (text_message 1 "hello");
   RoomManager.Operation (RoomManager.LeaveRoom (lit "1000") (sock 0))].

Definition deserted_state (delay : Z) : RoomManager.t :=
  default RoomManager.new
    (RoomManager.reach (with_cleanup_delay delay) deserted_calls).

Lemma pending_timers_name_empty_rooms_witness :
  let s := deserted_state 5000 in
  lit "1000" ∈ RoomManager.cleanupTimers s
  ∧ (∃ room, RoomManager.rooms s !! lit "1000" = Some room
             ∧ Room.users room = ∅)
  ∧ RoomManager.rooms (RoomManager.cleanupTimerFired (lit "1000") s)
      !! lit "1000" = None
  ∧ lit "1000" ∉ RoomManager.cleanupTimers
                   (RoomManager.cleanupTimerFired (lit "1000") s)
  ∧ RoomManager.cleanupTimers (deserted_state 0) = ∅.
Proof.
  assert (lit "1000" ∈ RoomManager.cleanupTimers (deserted_state 5000))
    as Hpending by (vm_compute; set_solver).
  split; [exact Hpending|].
  destruct (pending_timers_name_empty_rooms (with_cleanup_delay 5000)
              deserted_calls (deserted_state 5000) eq_refl) as [H _].
  destruct (H _ Hpending) as (H1 & H2 & H3).
  split; [exact H1|]. split; [exact H2|]. split; [exact H3|].
  apply (proj2 (pending_timers_name_empty_rooms (with_cleanup_delay 0)
                  deserted_calls (deserted_state 0) eq_refl)).
  vm_compute. discriminate.
Defined.

(** ** The last member leaves; rejoining within the grace delay *)

(** X9.  When the only member of a room leaves, [leaveRoom] returns that
    participant and drops its reverse entry; with a cleanup delay of zero
    or less the room is destroyed at once, and with a positive delay the
    room stays, without members and with its history, and a timeout is
    pending for it. *)
Theorem last_member_leaves
    (cfg : Config) (roomId socketId : jsstring) (s : RoomManager.t)
    (room : Room.t) (u : UserInfo.t) :
  RoomManager.rooms s !! roomId = Some room →
  Room.users room = {[ socketId := u ]} →
  let r := RoomManager.leaveRoom cfg roomId socketId s in
  r.1 = Some u
  ∧ RoomManager.userSockets r.2 !! socketId = None
  ∧ (ROOM_CLEANUP_DELAY_MS cfg <= 0 →
     RoomManager.rooms r.2 !! roomId = None
     ∧ roomId ∉ RoomManager.cleanupTimers r.2)
  ∧ (ROOM_CLEANUP_DELAY_MS cfg > 0 →
     RoomManager.rooms r.2 !! roomId = Some (Room.set_users room ∅)
     ∧ roomId ∈ RoomManager.cleanupTimers r.2).
Proof.
  intros E Hu r. subst r. rewrite leaveRoom_unfold, E, Hu.
  rewrite lookup_singleton_eq, delete_singleton_eq, map_size_empty.
  change (Z.of_nat 0 =? 0) with true. cbv iota. cbn [fst snd].
  split; [done|].
  set (s1 := removed roomId socketId room s).
  assert (RoomManager.rooms s1 !! roomId = Some (Room.set_users room ∅))
    as E1.
  { subst s1. unfold removed. simpl. rewrite lookup_insert_eq.
    by rewrite Hu, delete_singleton_eq. }
  assert (RoomManager.userSockets s1 !! socketId = None) as U1
    by (subst s1; unfold removed; simpl; apply lookup_delete_eq).
  unfold RoomManager.scheduleRoomCleanup. cbv zeta.
  destruct (Z.leb_spec (ROOM_CLEANUP_DELAY_MS cfg) 0) as [Hd|Hd].
  - split; [|split; [|lia]].
    + rewrite destroyRoom_userSockets.
      rewrite (proj1 (cancelRoomCleanup_rooms _ _)),
              (proj2 (cancelRoomCleanup_rooms _ _)), E1, U1.
      by case_decide.
    + intros _. split.
      * rewrite destroyRoom_rooms. by rewrite decide_True.
      * intros [_ Hn]%destroy_timers. specialize (Hn eq_refl).
        by rewrite (proj1 (cancelRoomCleanup_rooms _ _)), E1 in Hn.
  - simpl. rewrite (proj1 (cancelRoomCleanup_rooms _ _)),
                   (proj2 (cancelRoomCleanup_rooms _ _)).
    split; [done|]. split; [lia|]. intros _. split; [done|set_solver].
Qed.

Lemma last_member_leaves_witness :
  let cfg := with_cleanup_delay 5000 in
  let r := RoomManager.leaveRoom cfg (lit "1000") (sock 0) (room_of cfg 1) in
  r.1 = Some first_user
  ∧ RoomManager.userSockets r.2 !! sock 0 = None
  ∧ (5000 <= 0 →
     RoomManager.rooms r.2 !! lit "1000" = None
     ∧ lit "1000" ∉ RoomManager.cleanupTimers r.2)
  ∧ (5000 > 0 →
     RoomManager.rooms r.2 !! lit "1000"
     = Some (Room.set_users first_room ∅)
     ∧ lit "1000" ∈ RoomManager.cleanupTimers r.2).
Proof.
  apply (last_member_leaves (with_cleanup_delay 5000) (lit "1000") (sock 0)
           (room_of (with_cleanup_delay 5000) 1) first_room first_user).
  - vm_compute. reflexivity.
  - reflexivity.
Defined.

(** X10.  While the timeout of an empty room is pending, a connection
    that is in no room can join it: the timeout is cancelled, the room
    holds the joiner alone and still has its history, and a later expiry
    of the cancelled timeout changes nothing. *)
Theorem rejoin_cancels_cleanup
    (cfg : Config) (roomId socketId : jsstring) (preferredName : value)
    (bits : Z) (s : RoomManager.t) (room : Room.t) :
  RoomManager.rooms s !! roomId = Some room →
  Room.users room = ∅ →
  roomId ∈ RoomManager.cleanupTimers s →
  RoomManager.userSockets s !! socketId = None →
  let u := new_user socketId preferredName bits in
  let r := RoomManager.joinRoom cfg roomId socketId preferredName bits s in
  r.1 = Ok u
  ∧ RoomManager.rooms r.2 !! roomId
    = Some (Room.set_users room {[ socketId := u ]})
  ∧ Room.messages (Room.set_users room {[ socketId := u ]})
    = Room.messages room
  ∧ roomId ∉ RoomManager.cleanupTimers r.2
  ∧ RoomManager.cleanupTimerFired roomId r.2 = r.2.
Proof.
  intros E Hu Htimer Hnone u r. subst r. rewrite joinRoom_unfold, E.
  assert (room_full cfg room = false) as ->.
  { unfold room_full, Room.userCount. rewrite Hu, map_size_empty. simpl.
    apply andb_false_iff. rewrite Z.gtb_ltb, Z.geb_leb.
    destruct (Z.ltb_spec 0 (ROOM_MAX_USERS cfg)); [right|by left].
    apply Z.leb_gt. lia. }
  rewrite Hu, lookup_empty. simpl.
  assert (before_join cfg roomId socketId s
          = RoomManager.cancelRoomCleanup roomId s) as ->.
  { unfold before_join. cbv zeta.
    by rewrite (proj2 (cancelRoomCleanup_rooms _ _)), Hnone. }
  split; [done|]. fold u.
  assert (roomId ∉ RoomManager.cleanupTimers
                     (added roomId socketId room u (entry_of roomId u)
                        (RoomManager.cancelRoomCleanup roomId s))) as Hn.
  { unfold added. simpl. rewrite cancel_timers. tauto. }
  split; [|split; [done|split; [done|]]].
  - unfold added. simpl. rewrite lookup_insert_eq. by rewrite Hu.
  - unfold RoomManager.cleanupTimerFired.
    by rewrite bool_decide_eq_false_2.
Qed.

Lemma rejoin_cancels_cleanup_witness :
  let cfg := with_cleanup_delay 5000 in
  let s := (RoomManager.leaveRoom cfg (lit "1000") (sock 0)
              (room_of cfg 1)).2 in
  let u := new_user (sock 0) (VString (lit "Ada")) 0 in
  let r := RoomManager.joinRoom cfg (lit "1000") (sock 0)
             (VString (lit "Ada")) 0 s in
  r.1 = Ok u
  ∧ RoomManager.rooms r.2 !! lit "1000"
    = Some (Room.set_users (Room.set_users first_room ∅) {[ sock 0 := u ]})
  ∧ Room.messages
      (Room.set_users (Room.set_users first_room ∅) {[ sock 0 := u ]})
    = Room.messages (Room.set_users first_room ∅)
  ∧ lit "1000" ∉ RoomManager.cleanupTimers r.2
  ∧ RoomManager.cleanupTimerFired (lit "1000") r.2 = r.2.
Proof.
  apply (rejoin_cancels_cleanup (with_cleanup_delay 5000) (lit "1000")
           (sock 0) (VString (lit "Ada")) 0
           (RoomManager.leaveRoom (with_cleanup_delay 5000) (lit "1000")
              (sock 0) (room_of (with_cleanup_delay 5000) 1)).2
           (Room.set_users first_room ∅)).
  - vm_compute. reflexivity.
  - reflexivity.
  - apply (bool_decide_unpack _). vm_compute. reflexivity.
  - vm_compute. reflexivity.
Defined.

(** ** Leaving, disconnecting and joining on reachable states *)

Section OneConnection.
Import RoomManager.
Context (cfg : Config).

Implicit Types (s : RoomManager.t) (roomId socketId : jsstring).

(** In a synchronised state the reverse index decides membership. *)
Lemma in_sync_member_iff s r k :
  in_sync s →
  member s r k ↔ ∃ e, userSockets s !! k = Some e ∧ SocketEntry.roomId e = r.
Proof.
  intros [HA HB]. split; [apply HB|].
  intros (e & He & <-). by apply HA.
Qed.

(** [leaveRoom] never touches the reverse entry of another connection:
    when it destroys the room, the room has no member left. *)
Lemma leaveRoom_userSockets_other roomId socketId s k :
  k ≠ socketId →
  userSockets (leaveRoom cfg roomId socketId s).2 !! k = userSockets s !! k.
Proof.
  intros Hne. rewrite leaveRoom_unfold.
  destruct (rooms s !! roomId) as [room|] eqn:E; [|done].
  destruct (Room.users room !! socketId) as [userInfo|] eqn:Eu; [|done].
  cbn [snd].
  assert (Hrem : userSockets (removed roomId socketId room s) !! k
                 = userSockets s !! k)
    by (unfold removed; simpl; by apply lookup_delete_ne).
  destruct (_ =? 0) eqn:Esize; [|done].
  unfold scheduleRoomCleanup. cbv zeta. destruct (_ <=? 0).
  - rewrite destroyRoom_userSockets.
    rewrite (proj1 (cancelRoomCleanup_rooms _ _)),
            (proj2 (cancelRoomCleanup_rooms _ _)), Hrem.
    unfold removed. simpl. rewrite lookup_insert_eq. simpl.
    apply Z.eqb_eq in Esize.
    assert (delete socketId (Room.users room) = ∅) as ->
      by (apply map_size_empty_iff; lia).
    rewrite lookup_empty. case_decide as Hs; [by destruct Hs|done].
  - simpl. by rewrite (proj2 (cancelRoomCleanup_rooms _ _)).
Qed.

Lemma before_join_userSockets_other roomId socketId s k :
  k ≠ socketId →
  userSockets (before_join cfg roomId socketId s) !! k = userSockets s !! k.
Proof.
  intros Hne. unfold before_join. cbv zeta.
  destruct (cancelRoomCleanup_rooms roomId s) as [Er Eu].
  destruct (userSockets _ !! socketId) as [e|]; [|by rewrite Eu].
  case_bool_decide; [|by rewrite Eu].
  rewrite leaveRoom_userSockets_other by done. by rewrite Eu.
Qed.

Lemma joinRoom_userSockets_other roomId socketId preferredName bits s k :
  k ≠ socketId →
  userSockets (joinRoom cfg roomId socketId preferredName bits s).2 !! k
  = userSockets s !! k.
Proof.
  intros Hne. rewrite joinRoom_unfold.
  destruct (rooms s !! roomId) as [room|]; [|done].
  destruct (room_full cfg room); [done|].
  destruct (Room.users room !! socketId); cbn [snd].
  - by apply before_join_userSockets_other.
  - unfold added. simpl. rewrite lookup_insert_ne by done.
    by apply before_join_userSockets_other.
Qed.

Lemma handleDisconnect_unfold socketId s :
  handleDisconnect cfg socketId s =
    match userSockets s !! socketId with
    | None => (None, s)
    | Some e =>
        let r := leaveRoom cfg (SocketEntry.roomId e) socketId s in
        ((λ u, (SocketEntry.roomId e, u)) <$> r.1, r.2)
    end.
Proof.
  unfold handleDisconnect. destruct (userSockets s !! socketId); [|done].
  cbv zeta. by destruct (leaveRoom _ _ _ _) as [[u|] s'].
Qed.

End OneConnection.

(** The participant and the room that a reverse entry stands for. *)
Definition left_room (e : SocketEntry.t) : jsstring * UserInfo.t :=
  (SocketEntry.roomId e,
   {| UserInfo.id := SocketEntry.id e; UserInfo.name := SocketEntry.name e |}).

(** X11.  In every state that the room manager reaches (by any of its
    calls, [addMessage] included) [handleDisconnect] returns the room and
    the participant of the connection's reverse entry, or [null] when
    there is none; afterwards the connection has no reverse entry and is
    a member of no room, every other connection keeps its entry and its
    memberships, and a second [handleDisconnect] returns [null] and
    changes nothing. *)
Theorem handleDisconnect_cleans_up
    (cfg : Config) (calls : list RoomManager.method_call)
    (s : RoomManager.t) (socketId : jsstring) :
  RoomManager.reach cfg calls = Some s →
  let r := RoomManager.handleDisconnect cfg socketId s in
  r.1 = left_room <$> RoomManager.userSockets s !! socketId
  ∧ RoomManager.userSockets r.2 !! socketId = None
  ∧ (∀ roomId, ¬ member r.2 roomId socketId)
  ∧ (∀ k, k ≠ socketId →
       RoomManager.userSockets r.2 !! k = RoomManager.userSockets s !! k
       ∧ ∀ roomId, member r.2 roomId k ↔ member s roomId k)
  ∧ RoomManager.handleDisconnect cfg socketId r.2 = (None, r.2).
Proof.
  intros Hreach r.
  pose proof (reach_in_sync cfg calls s Hreach) as Hsync.
  pose proof (reach_agree cfg calls s Hreach) as Hagree.
  assert (in_sync r.2) as Hsync'
    by apply (step_in_sync cfg s (RoomManager.HandleDisconnect socketId)
                Hsync).
  assert (RoomManager.userSockets r.2 !! socketId = None) as Hnone.
  { subst r. rewrite handleDisconnect_unfold.
    destruct (RoomManager.userSockets s !! socketId) as [e|] eqn:E; [|done].
    cbn [snd]. apply leaveRoom_userSockets. by apply Hsync. }
  assert (∀ k, k ≠ socketId →
            RoomManager.userSockets r.2 !! k
            = RoomManager.userSockets s !! k) as Hother.
  { intros k Hne. subst r. rewrite handleDisconnect_unfold.
    destruct (RoomManager.userSockets s !! socketId) as [e|]; [|done].
    cbn [snd]. by apply leaveRoom_userSockets_other. }
  split; [|split; [done|split; [|split]]].
  - subst r. rewrite handleDisconnect_unfold.
    destruct (RoomManager.userSockets s !! socketId) as [e|] eqn:E; [|done].
    cbn [fst]. destruct (Hagree _ _ E) as (room & Er & Eu).
    by rewrite leaveRoom_unfold, Er, Eu.
  - intros roomId (e & He & _)%in_sync_member_iff; [|done]. congruence.
  - intros k Hne. split; [by apply Hother|]. intros roomId.
    rewrite !in_sync_member_iff by done. by rewrite Hother.
  - rewrite handleDisconnect_unfold. by rewrite Hnone.
Qed.

Lemma handleDisconnect_cleans_up_witness :
  let s := chat_state in
  let r := RoomManager.handleDisconnect default_config (sock 1) s in
  sock 0 ≠ sock 1
  ∧ r.1 = left_room <$> RoomManager.userSockets s !! sock 1
  ∧ RoomManager.userSockets r.2 !! sock 1 = None
  ∧ RoomManager.userSockets r.2 !! sock 0
    = RoomManager.userSockets s !! sock 0
  ∧ (∀ roomId, member r.2 roomId (sock 0) ↔ member s roomId (sock 0))
  ∧ RoomManager.handleDisconnect default_config (sock 1) r.2 = (None, r.2).
Proof.
  assert (sock 0 ≠ sock 1) as Hne by (vm_compute; discriminate).
  assert (RoomManager.reach default_config chat_calls = Some chat_state)
    as Hreach by (vm_compute; reflexivity).
  destruct (handleDisconnect_cleans_up default_config chat_calls chat_state
              (sock 1) Hreach) as (H1 & H2 & _ & H4 & H5).
  destruct (H4 (sock 0) Hne) as [H6 H7].
  split; [exact Hne|]. split; [exact H1|]. split; [exact H2|].
  split; [exact H6|]. split; [exact H7|exact H5].
Defined.

(** X12.  When [joinRoom] succeeds in a state that the room manager has
    reached (by any of its calls, [addMessage] included), the room holds
    the returned participant for the connection, the reverse entry of the
    connection names this room with the participant's id and name, the
    connection is a member of no other room, and every other connection
    keeps its reverse entry and its memberships. *)
Theorem joinRoom_places_connection
    (cfg : Config) (calls : list RoomManager.method_call)
    (s : RoomManager.t)
    (roomId socketId : jsstring) (preferredName : value) (bits : Z)
    (u : UserInfo.t) :
  RoomManager.reach cfg calls = Some s →
  let r := RoomManager.joinRoom cfg roomId socketId preferredName bits s in
  r.1 = Ok u →
  (∃ room, RoomManager.rooms r.2 !! roomId = Some room
           ∧ Room.users room !! socketId = Some u)
  ∧ RoomManager.userSockets r.2 !! socketId = Some (entry_of roomId u)
  ∧ (∀ r', member r.2 r' socketId → r' = roomId)
  ∧ (∀ k, k ≠ socketId →
       RoomManager.userSockets r.2 !! k = RoomManager.userSockets s !! k
       ∧ ∀ r', member r.2 r' k ↔ member s r' k).
Proof.
  intros Hreach r Hok.
  pose proof (reach_in_sync cfg calls s Hreach) as Hsync.
  pose proof (reach_agree cfg calls s Hreach) as Hagree.
  assert (in_sync r.2 ∧ entries_agree r.2) as [Hsync' Hagree'].
  { split.
    - apply (step_in_sync cfg s (RoomManager.JoinRoom roomId socketId
                                   preferredName bits) Hsync).
    - apply (step_agree cfg s (RoomManager.JoinRoom roomId socketId
                                 preferredName bits) Hagree). }
  assert (∃ room, RoomManager.rooms r.2 !! roomId = Some room
                  ∧ Room.users room !! socketId = Some u) as Hroom.
  { subst r. rewrite joinRoom_unfold in Hok |- *.
    destruct (RoomManager.rooms s !! roomId) as [room|] eqn:E; [|done].
    destruct (room_full cfg room); [done|].
    destruct (Room.users room !! socketId) as [u0|] eqn:Eu.
    - injection Hok as ->. cbn [snd]. exists room.
      by rewrite before_join_room.
    - cbv zeta in Hok |- *. injection Hok as Hu. cbn [snd]. rewrite Hu.
      eexists. unfold added. simpl. rewrite lookup_insert_eq.
      split; [done|]. simpl. apply lookup_insert_eq. }
  destruct Hroom as (room & Er & Eu).
  assert (member r.2 roomId socketId) as Hm by (exists room; by rewrite Eu).
  destruct (proj2 Hsync' _ _ Hm) as (e & He & Hr).
  split; [by exists room|]. split; [|split].
  - rewrite He. f_equal. destruct (Hagree' _ _ He) as (room' & Er' & Eu').
    rewrite Hr, Er in Er'. injection Er' as <-. rewrite Eu in Eu'.
    injection Eu' as ->. destruct e. simpl in Hr. by subst.
  - intros r' (e' & He' & <-)%in_sync_member_iff; [|done]. congruence.
  - intros k Hne.
    assert (RoomManager.userSockets r.2 !! k
            = RoomManager.userSockets s !! k) as Hk
      by (by apply joinRoom_userSockets_other).
    split; [done|]. intros r'. rewrite !in_sync_member_iff by done.
    by rewrite Hk.
Qed.

(** The room "1000" with two members and a stored message, and an
    empty room "5500". *)
Definition two_rooms_calls : list RoomManager.method_call :=
  [RoomManager.Operation (RoomManager.CreateRoom 0 (λ _, 0));
   RoomManager.Operation (RoomManager.CreateRoom 1 (λ _, 2 ^ 52));
   RoomManager.Operation
     (RoomManager.JoinRoom (lit "1000") (sock 0) (VString (lit "Ada")) 0);
   RoomManager.Operation
     (RoomManager.JoinRoom (lit "1000") (sock 1) (VString (lit "Bob")) 0);
   RoomManager.AddMessage 1 (lit "1000") (text_message 1 "hello")].

Definition two_rooms_state : RoomManager.t :=
  default RoomManager.new
    (RoomManager.reach default_config two_rooms_calls).

Lemma joinRoom_places_connection_witness :
  let s := two_rooms_state in
  let u := new_user (sock 0) (VString (lit " Bob ")) 0 in
  let r := RoomManager.joinRoom default_config (lit "5500") (sock 0)
             (VString (lit " Bob ")) 0 s in
  r.1 = Ok u
  ∧ (∃ room, RoomManager.rooms r.2 !! lit "5500" = Some room
             ∧ Room.users room !! sock 0 = Some u)
  ∧ RoomManager.userSockets r.2 !! sock 0 = Some (entry_of (lit "5500") u)
  ∧ (∀ r', member r.2 r' (sock 0) → r' = lit "5500")
  ∧ (∀ k, k ≠ sock 0 →
       RoomManager.userSockets r.2 !! k = RoomManager.userSockets s !! k
       ∧ ∀ r', member r.2 r' k ↔ member s r' k).
Proof.
  assert ((RoomManager.joinRoom default_config (lit "5500") (sock 0)
             (VString (lit " Bob ")) 0 two_rooms_state).1
          = Ok (new_user (sock 0) (VString (lit " Bob ")) 0)) as Hok
    by (vm_compute; reflexivity).
  assert (RoomManager.reach default_config two_rooms_calls
          = Some two_rooms_state) as Hreach by (vm_compute; reflexivity).
  split; [exact Hok|].
  exact (joinRoom_places_connection default_config two_rooms_calls
           two_rooms_state (lit "5500") (sock 0) (VString (lit " Bob ")) 0
           _ Hreach Hok).
Defined.

(** ** The per-address connection counter *)

(** The live sockets whose handshake gives the address [ip]. *)
Definition live_from (ip : jsstring)
    (live : list (jsstring * Session.handshake)) : Z :=
  Z.of_nat (List.length (filter (λ p, Session.clientIP p.2 = ip) live)).

Section Gateway.
Import Session.
Context (cfg : Config) (MAX : Z).

Implicit Types (live : list (jsstring * handshake)).

Lemma live_from_nonneg ip live : 0 <= live_from ip live.
Proof. unfold live_from. lia. Qed.

Lemma live_from_cons ip socket_id h live :
  live_from ip ((socket_id, h) :: live)
  = (if decide (clientIP h = ip) then 1 else 0) + live_from ip live.
Proof.
  unfold live_from. rewrite filter_cons. simpl.
  destruct (decide (clientIP h = ip)); simpl; lia.
Qed.

Lemma live_from_app ip live1 live2 :
  live_from ip (live1 ++ live2) = live_from ip live1 + live_from ip live2.
Proof. unfold live_from. rewrite filter_app, length_app. lia. Qed.

Lemma live_from_delete ip index socket_id h live :
  live !! index = Some (socket_id, h) →
  live_from ip live
  = (if decide (clientIP h = ip) then 1 else 0)
    + live_from ip (delete index live).
Proof.
  intros E. rewrite delete_take_drop.
  rewrite <- (take_drop_middle live index (socket_id, h) E) at 1.
  rewrite !live_from_app, live_from_cons. lia.
Qed.

(** The counter has, for every address, the number of live sockets from
    it, and no entry when there is none. *)
Definition counted (acc : State * list (jsstring * handshake)) : Prop :=
  ∀ ip, connectionsByIP acc.1 !! ip
        = (if live_from ip acc.2 =? 0 then None
           else Some (live_from ip acc.2))
        ∧ live_from ip acc.2 <= Z.max 0 MAX.

Lemma counted_connections st live ip :
  counted (st, live) → connections ip st = live_from ip live.
Proof.
  intros H. destruct (H ip) as [E _]. simpl in E. unfold connections.
  rewrite E. destruct (live_from ip live =? 0) eqn:E0; [|by rewrite E0].
  apply Z.eqb_eq in E0. lia.
Qed.

Lemma on_disconnect_connectionsByIP socket_id h now suffix st :
  connectionsByIP (on_disconnect cfg socket_id h now suffix st).1
  = if connections (clientIP h) st <=? 1
    then delete (clientIP h) (connectionsByIP st)
    else <[clientIP h := connections (clientIP h) st - 1]>
           (connectionsByIP st).
Proof.
  unfold on_disconnect. cbv zeta.
  by destruct (RoomManager.handleDisconnect _ _ _) as [[[r u]|] rm].
Qed.

Lemma transport_step_counted acc ev :
  counted acc → counted (transport_step cfg MAX acc ev).
Proof.
  destruct acc as [st live]. intros H.
  destruct ev as [socket_id h bits|index now suffix]; simpl.
  - unfold on_connection. cbv zeta.
    rewrite (counted_connections _ _ _ H).
    set (ip0 := clientIP h). set (n := live_from ip0 live).
    pose proof (live_from_nonneg ip0 live) as Hn. fold n in Hn.
    destruct (Z.geb_spec n MAX) as [Hge|Hlt]; [done|].
    intros ip. simpl. rewrite live_from_cons. fold ip0.
    destruct (H ip) as [E Hle]. simpl in E, Hle.
    destruct (decide (ip0 = ip)) as [<-|Hne].
    + rewrite lookup_insert_eq. fold n.
      destruct (Z.eqb_spec (1 + n) 0); [lia|].
      split; [f_equal; lia|lia].
    + rewrite lookup_insert_ne by done. by rewrite Z.add_0_l.
  - destruct (live !! index) as [[socket_id h]|] eqn:El; [|done].
    intros ip. simpl. rewrite on_disconnect_connectionsByIP.
    rewrite (counted_connections _ _ _ H).
    set (ip0 := clientIP h).
    pose proof (live_from_delete ip0 _ _ _ _ El) as Hd0.
    pose proof (live_from_delete ip _ _ _ _ El) as Hd.
    fold ip0 in Hd0, Hd. rewrite decide_True in Hd0 by done.
    pose proof (live_from_nonneg ip0 (delete index live)) as Hn.
    destruct (H ip) as [E Hle]. simpl in E, Hle.
    destruct (decide (ip0 = ip)) as [<-|Hne].
    + destruct (Z.leb_spec (live_from ip0 live) 1) as [H1|H1].
      * rewrite lookup_delete_eq.
        destruct (Z.eqb_spec (live_from ip0 (delete index live)) 0); [|lia].
        split; [done|lia].
      * rewrite lookup_insert_eq.
        destruct (Z.eqb_spec (live_from ip0 (delete index live)) 0); [lia|].
        split; [f_equal; lia|lia].
    + rewrite Z.add_0_l in Hd. rewrite <- Hd.
      destruct (Z.leb_spec (live_from ip0 live) 1).
      * by rewrite lookup_delete_ne.
      * by rewrite lookup_insert_ne.
Qed.

Lemma transport_run_counted events :
  counted (foldl (transport_step cfg MAX) (init cfg, []) events).
Proof.
  induction events as [|ev events IH] using rev_ind.
  - intros ip. cbn [foldl fst snd]. change (live_from ip []) with 0.
    split; [done|lia].
  - rewrite foldl_app. simpl. by apply transport_step_counted.
Qed.

End Gateway.

(** X13.  After any sequence of connections and disconnections, the
    counter [connectionsByIP] holds for every address exactly the number
    of live sockets from it, with no entry for an address without one;
    this number never exceeds [MAX_CONNECTIONS_PER_IP] (nor zero, when the
    limit is negative), and a new connection is admitted exactly when the
    address has fewer live sockets than the limit. *)
Theorem connections_counted_per_address
    (cfg : Config) (MAX_CONNECTIONS_PER_IP : Z)
    (events : list Session.transport_event) :
  let acc := foldl (Session.transport_step cfg MAX_CONNECTIONS_PER_IP)
               (Session.init cfg, []) events in
  (∀ ip,
     Session.connectionsByIP acc.1 !! ip
     = (if live_from ip acc.2 =? 0 then None else Some (live_from ip acc.2))
     ∧ live_from ip acc.2 <= Z.max 0 MAX_CONNECTIONS_PER_IP)
  ∧ ∀ socket_id h bits,
      (Session.on_connection MAX_CONNECTIONS_PER_IP socket_id h bits
         acc.1).1.1
      = bool_decide
          (live_from (Session.clientIP h) acc.2 < MAX_CONNECTIONS_PER_IP).
Proof.
  intros acc.
  pose proof (transport_run_counted cfg MAX_CONNECTIONS_PER_IP events) as H.
  fold acc in H. split; [exact H|].
  intros socket_id h bits. unfold Session.on_connection. cbv zeta.
  destruct acc as [st live]. rewrite (counted_connections _ _ _ _ H).
  simpl. destruct (Z.geb_spec (live_from (Session.clientIP h) live)
                              MAX_CONNECTIONS_PER_IP).
  - by rewrite bool_decide_eq_false_2 by lia.
  - by rewrite bool_decide_eq_true_2 by lia.
Qed.

(** With a limit of two, the third socket of an address is turned away,
    and admitted again once one of the two has disconnected. *)
Example third_connection_refused :
  let h := {| Session.x_forwarded_for := Some (lit " 10.0.0.7 , 10.0.0.1");
              Session.address := Some (lit "127.0.0.1") |} in
  let two := foldl (Session.transport_step default_config 2)
               (Session.init default_config, [])
               [Session.Connects (sock 0) h 0;
                Session.Connects (sock 1) h 0] in
  let one := Session.transport_step default_config 2 two
               (Session.Disconnects 0 0 []) in
  Session.clientIP h = lit "10.0.0.7"
  ∧ (Session.on_connection 2 (sock 2) h 0 two.1).1.1 = false
  ∧ (Session.on_connection 2 (sock 2) h 0 one.1).1.1 = true.
Proof. repeat split; vm_compute; reflexivity. Qed.

(** ** From the client's code entry to check-room *)

Lemma digits_only_4digits (code : jsstring) :
  test_4digits code = true → StartChat.digits_only code = code.
Proof.
  unfold test_4digits. intros [_ Hall]%andb_true_iff.
  unfold StartChat.digits_only, remove_class.
  induction code as [|c code IH]; [done|].
  simpl in Hall |- *. apply andb_true_iff in Hall as [Hc Hall].
  rewrite Hc. simpl. by rewrite IH.
Qed.

Lemma digits_only_digits (roomCode : jsstring) :
  forallb is_digit (StartChat.digits_only roomCode) = true.
Proof.
  unfold StartChat.digits_only, remove_class.
  apply forallb_forall. intros c [_ Hc]%filter_In.
  by rewrite negb_involutive in Hc.
Qed.

(** X14.  Whatever is typed into the code field, a code that the client
    sends with check-room is the digits of the input and passes the
    server's format test, so that the answer is whether that room is
    live; a well-formed code is sent unchanged.  (The client sends
    check-room with an acknowledgement function.) *)
Theorem client_code_passes_format_test
    (roomCode code : jsstring) (st : Session.State) :
  StartChat.code_to_check roomCode = Some code →
  code = StartChat.digits_only roomCode
  ∧ Session.on_check_room (VString code) true st
    = (Ok tt,
       [Session.CallbackExists
          (RoomManager.roomExists code
             (Socket.roomManager (Session.server st)))])
  ∧ StartChat.code_to_check code = Some code.
Proof.
  unfold StartChat.code_to_check. cbv zeta.
  destruct (Nat.eqb_spec (List.length (StartChat.digits_only roomCode)) 4)
    as [Hlen|]; [|done].
  simpl. intros [= <-].
  assert (test_4digits (StartChat.digits_only roomCode) = true) as Ht.
  { unfold test_4digits. rewrite Hlen. simpl. apply digits_only_digits. }
  split; [done|]. split.
  - unfold Session.on_check_room, Socket.valid_roomId. by rewrite Ht.
  - rewrite (digits_only_4digits _ Ht). by rewrite Hlen.
Qed.

Lemma client_code_passes_format_test_witness :
  let st := Session.init default_config in
  StartChat.code_to_check (lit "12-34 ") = Some (lit "1234")
  ∧ lit "1234" = StartChat.digits_only (lit "12-34 ")
  ∧ Session.on_check_room (VString (lit "1234")) true st
    = (Ok tt,
       [Session.CallbackExists
          (RoomManager.roomExists (lit "1234")
             (Socket.roomManager (Session.server st)))])
  ∧ StartChat.code_to_check (lit "1234") = Some (lit "1234").
Proof.
  split; [reflexivity|].
  apply (client_code_passes_format_test (lit "12-34 ") (lit "1234")
           (Session.init default_config)).
  reflexivity.
Defined.

(** X15.  When create-room acknowledges with a room code, the code was
    free before, now names a new room without members or messages,
    check-room answers [exists: true] for it, and the client's code entry
    sends it unchanged. *)
Theorem created_room_is_found
    (cfg : Config) (socket_id : jsstring) (now : Z) (rnd : nat → Z)
    (has_callback : bool) (srv : Socket.Server) (byIP : gmap jsstring Z)
    (code : jsstring) :
  let r := Socket.on_create_room cfg socket_id now rnd has_callback srv in
  Socket.Callback {| Socket.success := true; Socket.error := None;
                     Socket.roomId := Some code; Socket.name := None |}
    ∈ r.2 →
  RoomManager.rooms (Socket.roomManager srv) !! code = None
  ∧ RoomManager.rooms (Socket.roomManager r.1.2) !! code
    = Some {| Room.id := code; Room.users := ∅;
              Room.createdAt := now; Room.messages := [] |}
  ∧ Session.on_check_room (VString code) true
      {| Session.server := r.1.2; Session.connectionsByIP := byIP |}
    = (Ok tt, [Session.CallbackExists true])
  ∧ StartChat.code_to_check code = Some code.
Proof.
  intros r. subst r.
  unfold Socket.on_create_room, Socket.create_room_body,
    Socket.create_room_catch, Socket.log_and_answer, Socket.answer.
  destruct (RateLimiter.check now socket_id (Socket.eventRateLimiter srv))
    as [rateCheck rl].
  destruct (RateLimiter.allowed rateCheck); simpl.
  2: { destruct has_callback; simpl.
       - intros [=]%list_elem_of_singleton.
       - intros [=]%list_elem_of_singleton. }
  unfold RoomManager.createRoom.
  destruct (_ && _); simpl.
  { destruct has_callback; simpl.
    - intros [[=]|[=]%list_elem_of_singleton]%elem_of_cons.
    - intros [=]%list_elem_of_singleton. }
  destruct (RoomManager.generateRoomCode rnd
              (RoomManager.rooms (Socket.roomManager srv)))
    as [code'|m] eqn:E; simpl.
  2: { destruct has_callback; simpl.
       - intros [[=]|[=]%list_elem_of_singleton]%elem_of_cons.
       - intros [=]%list_elem_of_singleton. }
  destruct has_callback; simpl.
  2: { intros [=]%list_elem_of_singleton. }
  intros [= <-]%list_elem_of_singleton.
  pose proof (generateRoomCode_4digits _ _ _ E) as Ht.
  split; [by apply generateRoomCode_fresh in E|].
  split; [apply lookup_insert_eq|]. split.
  - unfold Session.on_check_room, Socket.valid_roomId. rewrite Ht. simpl.
    unfold RoomManager.roomExists. simpl. rewrite lookup_insert_eq.
    by rewrite bool_decide_eq_true_2.
  - unfold StartChat.code_to_check. cbv zeta.
    rewrite (digits_only_4digits _ Ht).
    unfold test_4digits in Ht. apply andb_true_iff in Ht as [Hlen _].
    by rewrite Hlen.
Qed.

Lemma created_room_is_found_witness :
  let r := Socket.on_create_room default_config (sock 0) 7
             (λ _, 25019997929836) true (Socket.init default_config) in
  RoomManager.rooms (Socket.roomManager (Socket.init default_config))
    !! lit "1025" = None
  ∧ RoomManager.rooms (Socket.roomManager r.1.2) !! lit "1025"
    = Some {| Room.id := lit "1025"; Room.users := ∅;
              Room.createdAt := 7; Room.messages := [] |}
  ∧ Session.on_check_room (VString (lit "1025")) true
      {| Session.server := r.1.2; Session.connectionsByIP := ∅ |}
    = (Ok tt, [Session.CallbackExists true])
  ∧ StartChat.code_to_check (lit "1025") = Some (lit "1025").
Proof.
  apply (created_room_is_found default_config (sock 0) 7
           (λ _, 25019997929836) true (Socket.init default_config) ∅
           (lit "1025")).
  vm_compute. constructor.
Defined.

(** ** Which handler spends which budget *)

(** What create-room and join-room do when the rate check refuses the
    request: with an acknowledgement function they call it with 'Too many
    requests. Please wait.'; without one, that call throws, the [catch]
    clause logs the [TypeError] under [prefix] and throws in its turn. *)
Definition refused (has_callback : bool) (prefix : jsstring)
    (srv : Socket.Server) : result unit * Socket.Server * list Socket.effect :=
  if has_callback then
    (Ok tt, srv,
     [Socket.Callback
        (Socket.ack_error (lit "Too many requests. Please wait."))])
  else
    (Throw Socket.err_not_a_function, srv,
     [Socket.ConsoleError prefix Socket.err_not_a_function]).

(** X16.  create-room and join-room each spend one check of the event
    limiter for the calling socket before they look at anything else, the
    payload of join-room included, and never touch the message limiter.
    When the check is refused, nothing else changes: a request that came
    with an acknowledgement function is answered 'Too many requests. Please
    wait.' and that is the only effect; for a request without one, the
    only effect is the log of the [TypeError], which leaves the handler.
    update-username spends no budget at all. *)
Theorem event_budget_spent_by_create_and_join
    (cfg : Config) (socket_id : jsstring) (now : Z) (suffix : jsstring)
    (bits : Z) (rnd : nat → Z) (data : value) (has_callback : bool)
    (srv : Socket.Server) :
  let charged :=
    RateLimiter.check now socket_id (Socket.eventRateLimiter srv) in
  let c := Socket.on_create_room cfg socket_id now rnd has_callback srv in
  let j := Socket.on_join_room cfg socket_id now suffix bits data
             has_callback srv in
  let u := Socket.on_update_username socket_id now suffix data
             has_callback srv in
  (Socket.eventRateLimiter c.1.2 = charged.2
   ∧ Socket.messageRateLimiter c.1.2 = Socket.messageRateLimiter srv)
  ∧ (Socket.eventRateLimiter j.1.2 = charged.2
     ∧ Socket.messageRateLimiter j.1.2 = Socket.messageRateLimiter srv)
  ∧ (RateLimiter.allowed charged.1 = false →
     c = refused has_callback (lit "[Socket] Error creating room:")
           (Socket.set_eventRateLimiter srv charged.2)
     ∧ j = refused has_callback (lit "[Socket] Error joining room:")
             (Socket.set_eventRateLimiter srv charged.2))
  ∧ (Socket.eventRateLimiter u.1.2 = Socket.eventRateLimiter srv
     ∧ Socket.messageRateLimiter u.1.2 = Socket.messageRateLimiter srv).
Proof.
  intros charged c j u. subst charged c j u.
  unfold Socket.on_create_room, Socket.create_room_body,
    Socket.on_join_room, Socket.join_room_body,
    Socket.on_update_username, Socket.update_username_body,
    Socket.try_catch_rethrow, Socket.answer, Socket.create_room_catch,
    Socket.join_room_catch, Socket.update_username_catch,
    Socket.log_and_answer, refused.
  destruct (RateLimiter.check now socket_id (Socket.eventRateLimiter srv))
    as [rateCheck rl].
  cbn [fst snd]. split; [|split; [|split]].
  - destruct (RateLimiter.allowed rateCheck), has_callback; simpl; try done;
      by destruct (RoomManager.createRoom _ _ _ _) as [[room|m] rm].
  - destruct (RateLimiter.allowed rateCheck), has_callback; simpl; try done;
      repeat case_match; simplify_eq/=; done.
  - intros ->. by destruct has_callback.
  - destruct has_callback; repeat case_match; simplify_eq/=; done.
Qed.

Lemma event_budget_spent_by_create_and_join_witness :
  let srv := (RateLimiter.checks (repeat 0 10) (sock 0)
                (Socket.eventRateLimiter (Socket.init default_config))).2 in
  let srv := Socket.set_eventRateLimiter (Socket.init default_config) srv in
  let charged :=
    RateLimiter.check 5 (sock 0) (Socket.eventRateLimiter srv) in
  RateLimiter.allowed charged.1 = false
  ∧ Socket.on_create_room default_config (sock 0) 5 (λ _, 0) false srv
    = refused false (lit "[Socket] Error creating room:")
        (Socket.set_eventRateLimiter srv charged.2)
  ∧ Socket.on_join_room default_config (sock 0) 5 [] 0 VUndefined false srv
    = refused false (lit "[Socket] Error joining room:")
        (Socket.set_eventRateLimiter srv charged.2).
Proof.
  split; [vm_compute; reflexivity|].
  apply (event_budget_spent_by_create_and_join default_config (sock 0) 5 []
           0 (λ _, 0) VUndefined false).
  vm_compute. reflexivity.
Defined.

(** ** What leave-room and disconnect announce *)

Section Announcements.
Import RoomManager.
Context (cfg : Config).

Implicit Types (s : RoomManager.t) (roomId socketId : jsstring).

(** Leaving takes one off the count of the room, whether the room is
    kept or destroyed. *)
Lemma leaveRoom_count roomId socketId s :
  member s roomId socketId →
  getRoomUserCount roomId (leaveRoom cfg roomId socketId s).2
  = getRoomUserCount roomId s - 1.
Proof.
  intros (room & E & [u Eu]). rewrite leaveRoom_unfold, E, Eu. cbn [snd].
  unfold getRoomUserCount at 2. rewrite E. unfold Room.userCount.
  pose proof (map_size_delete_Some socketId (Room.users room)
                (mk_is_Some _ _ Eu)) as Hsize.
  pose proof (map_size_ne_0_lookup_2 (Room.users room) socketId
                (mk_is_Some _ _ Eu)) as Hne.
  destruct (Z.eqb_spec (Z.of_nat (size (delete socketId (Room.users room))))
                       0) as [H0|H0].
  - unfold getRoomUserCount, scheduleRoomCleanup. cbv zeta.
    destruct (_ <=? 0).
    + rewrite destroyRoom_rooms, decide_True by done. lia.
    + simpl. rewrite (proj1 (cancelRoomCleanup_rooms _ _)).
      unfold removed. simpl. rewrite lookup_insert_eq.
      unfold Room.userCount. simpl. lia.
  - unfold getRoomUserCount, removed. simpl. rewrite lookup_insert_eq.
    unfold Room.userCount. simpl. lia.
Qed.

(** [leaveRoom] of a room that does not have the connection returns
    [null] and changes nothing. *)
Lemma leaveRoom_not_member roomId socketId s :
  ¬ member s roomId socketId →
  leaveRoom cfg roomId socketId s = (None, s).
Proof.
  intros Hn. rewrite leaveRoom_unfold.
  destruct (rooms s !! roomId) as [room|] eqn:E; [|done].
  destruct (Room.users room !! socketId) as [u|] eqn:Eu; [|done].
  destruct Hn. exists room. by rewrite Eu.
Qed.

(** [leaveRoom] of the room that a reverse entry names returns the
    participant of the entry. *)
Lemma leaveRoom_entry socketId s e :
  entries_agree s → userSockets s !! socketId = Some e →
  (leaveRoom cfg (SocketEntry.roomId e) socketId s).1
  = Some {| UserInfo.id := SocketEntry.id e;
            UserInfo.name := SocketEntry.name e |}.
Proof.
  intros Hagree He. destruct (Hagree _ _ He) as (room & Er & Eu).
  by rewrite leaveRoom_unfold, Er, Eu.
Qed.

End Announcements.

(** The three effects of a departure: the socket leaves the transport
    room, the room is told by a system message, and the new count is
    sent with the participant's id and name. *)
Definition departure (now : Z) (suffix code : jsstring) (e : SocketEntry.t)
    (userCount : Z) : list Session.effect :=
  [Session.SocketLeave code;
   Session.Emit (Socket.ToRoom code)
     (Socket.ChatMessage
        (Socket.createSystemMessage now suffix code
           (SocketEntry.name e ++ lit " left the room")));
   Session.EmitUserLeft (Socket.ToRoom code)
     (Some (SocketEntry.id e)) (Some (SocketEntry.name e)) userCount].

(** X17.  With the room manager in a state that it has reached (by any
    of its calls, [addMessage] included), a leave-room request for a
    well-formed code does nothing at all unless the socket is in that
    room; when it is, the socket is taken out, and the room is sent the
    system message '<name> left the room' and a user-left notice with the
    participant's id and name (neither is ever undefined) and a count
    that is one less than before. *)
Theorem leave_room_announces_departure
    (cfg : Config) (calls : list RoomManager.method_call)
    (socket_id : jsstring) (now : Z) (suffix : jsstring) (payload : value)
    (code : jsstring) (st : Session.State) :
  RoomManager.reach cfg calls
  = Some (Socket.roomManager (Session.server st)) →
  Socket.valid_roomId payload = Some code →
  let rm := Socket.roomManager (Session.server st) in
  let r := Session.on_leave_room cfg socket_id now suffix payload st in
  match RoomManager.userSockets rm !! socket_id with
  | Some e =>
      if decide (SocketEntry.roomId e = code) then
        r = ({| Session.server :=
                  Socket.set_roomManager (Session.server st)
                    (RoomManager.leaveRoom cfg code socket_id rm).2;
                Session.connectionsByIP := Session.connectionsByIP st |},
             departure now suffix code e
               (RoomManager.getRoomUserCount code rm - 1))
        ∧ RoomManager.userSockets (Socket.roomManager (Session.server r.1))
            !! socket_id = None
      else r = (st, [])
  | None => r = (st, [])
  end.
Proof.
  intros Hreach Hvalid rm r.
  pose proof (reach_in_sync cfg calls _ Hreach) as Hsync.
  pose proof (reach_agree cfg calls _ Hreach) as Hagree.
  fold rm in Hsync, Hagree.
  assert (∀ code', ¬ member rm code' socket_id →
            Session.on_leave_room cfg socket_id now suffix payload st
            = (st, []) ∨ code' ≠ code) as Hnot.
  { intros code' Hn. destruct (decide (code' = code)) as [->|]; [|by right].
    left. unfold Session.on_leave_room. rewrite Hvalid. cbv zeta.
    fold rm. rewrite (leaveRoom_not_member cfg _ _ _ Hn).
    destruct st as [[rm0 ml el] byIP]. done. }
  destruct (RoomManager.userSockets rm !! socket_id) as [e|] eqn:He.
  - case_decide as Hr.
    + subst code. subst r. unfold Session.on_leave_room.
      rewrite Hvalid. cbv zeta. fold rm.
      pose proof (leaveRoom_entry cfg _ _ _ Hagree He) as Hfst.
      pose proof (leaveRoom_count cfg _ _ _ (proj1 Hsync _ _ He)) as Hcount.
      pose proof (leaveRoom_userSockets cfg _ _ _ (proj1 Hsync _ _ He))
        as Hnone.
      unfold RoomManager.getUserInfo. rewrite He.
      destruct (RoomManager.leaveRoom cfg (SocketEntry.roomId e) socket_id rm)
        as [[u|] rm']; [|done].
      cbn [fst snd] in *. by rewrite Hcount.
    + destruct (Hnot code) as [?|?]; [|done..].
      intros (e' & He' & Hr')%in_sync_member_iff; [|done]. congruence.
  - destruct (Hnot code) as [?|?]; [|done..].
    intros (e' & He' & Hr')%in_sync_member_iff; [|done]. congruence.
Qed.

(** A server with the given room manager. *)
Definition session_with (rm : RoomManager.t) : Session.State :=
  {| Session.server :=
       Socket.set_roomManager (Socket.init default_config) rm;
     Session.connectionsByIP := ∅ |}.

Lemma leave_room_announces_departure_witness :
  let st := session_with chat_state in
  let rm := Socket.roomManager (Session.server st) in
  let e := {| SocketEntry.roomId := lit "1000";
              SocketEntry.id := lit "user_socket-1";
              SocketEntry.name := lit "Eve" |} in
  let r := Session.on_leave_room default_config (sock 1) 9 (lit "x")
             (VString (lit "1000")) st in
  RoomManager.userSockets rm !! sock 1 = Some e
  ∧ r = ({| Session.server :=
              Socket.set_roomManager (Session.server st)
                (RoomManager.leaveRoom default_config (lit "1000") (sock 1)
                   rm).2;
            Session.connectionsByIP := Session.connectionsByIP st |},
         departure 9 (lit "x") (lit "1000") e
           (RoomManager.getRoomUserCount (lit "1000") rm - 1))
  ∧ RoomManager.userSockets (Socket.roomManager (Session.server r.1))
      !! sock 1 = None.
Proof.
  assert (RoomManager.userSockets
            (Socket.roomManager (Session.server (session_with chat_state)))
            !! sock 1
          = Some {| SocketEntry.roomId := lit "1000";
                    SocketEntry.id := lit "user_socket-1";
                    SocketEntry.name := lit "Eve" |}) as He
    by (vm_compute; reflexivity).
  assert (RoomManager.reach default_config chat_calls
          = Some (Socket.roomManager
                    (Session.server (session_with chat_state)))) as Hreach
    by (vm_compute; reflexivity).
  split; [exact He|].
  pose proof (leave_room_announces_departure default_config chat_calls
                (sock 1) 9 (lit "x") (VString (lit "1000")) (lit "1000")
                (session_with chat_state) Hreach eq_refl) as H.
  cbv zeta in H. rewrite He in H. exact H.
Defined.

(** X18.  With the room manager in a state that it has reached (by any
    of its calls, [addMessage] included), the disconnect handler removes
    the socket's entries from both limiters and leaves those of other
    sockets alone; afterwards the socket has no reverse entry and is a
    member of no room; and the room that the socket was in, if any, is
    sent '<name> disconnected' and a user-left notice with a count that
    is one less than before. *)
Theorem disconnect_purges_socket
    (cfg : Config) (calls : list RoomManager.method_call)
    (socket_id : jsstring) (h : Session.handshake) (now : Z)
    (suffix : jsstring) (st : Session.State) :
  RoomManager.reach cfg calls
  = Some (Socket.roomManager (Session.server st)) →
  let srv := Session.server st in
  let rm := Socket.roomManager srv in
  let r := Session.on_disconnect cfg socket_id h now suffix st in
  let srv' := Session.server r.1 in
  (∀ k, RateLimiter.clients (Socket.messageRateLimiter srv') !! k
        = (if decide (k = socket_id) then None
           else RateLimiter.clients (Socket.messageRateLimiter srv) !! k)
        ∧ RateLimiter.clients (Socket.eventRateLimiter srv') !! k
          = (if decide (k = socket_id) then None
             else RateLimiter.clients (Socket.eventRateLimiter srv) !! k))
  ∧ RoomManager.userSockets (Socket.roomManager srv') !! socket_id = None
  ∧ (∀ roomId, ¬ member (Socket.roomManager srv') roomId socket_id)
  ∧ r.2 = match RoomManager.userSockets rm !! socket_id with
          | None => []
          | Some e =>
              let roomId := SocketEntry.roomId e in
              [Session.Emit (Socket.ToRoom roomId)
                 (Socket.ChatMessage
                    (Socket.createSystemMessage now suffix roomId
                       (SocketEntry.name e ++ lit " disconnected")));
               Session.EmitUserLeft (Socket.ToRoom roomId)
                 (Some (SocketEntry.id e)) (Some (SocketEntry.name e))
                 (RoomManager.getRoomUserCount roomId rm - 1)]
          end.
Proof.
  intros Hreach srv rm r srv'.
  pose proof (reach_in_sync cfg calls _ Hreach) as Hsync.
  pose proof (reach_agree cfg calls _ Hreach) as Hagree.
  pose proof (step_in_sync cfg _ (RoomManager.HandleDisconnect socket_id)
                Hsync) as Hsync'.
  fold srv rm in Hsync, Hagree, Hsync'.
  cbn [RoomManager.step] in Hsync'.
  assert (RoomManager.userSockets
            (RoomManager.handleDisconnect cfg socket_id rm).2 !! socket_id
          = None) as Hnone.
  { rewrite handleDisconnect_unfold.
    destruct (RoomManager.userSockets rm !! socket_id) as [e|] eqn:E; [|done].
    cbn [snd]. apply leaveRoom_userSockets. by apply Hsync. }
  assert (Socket.roomManager srv'
          = (RoomManager.handleDisconnect cfg socket_id rm).2
          ∧ Socket.messageRateLimiter srv'
            = RateLimiter.remove socket_id (Socket.messageRateLimiter srv)
          ∧ Socket.eventRateLimiter srv'
            = RateLimiter.remove socket_id (Socket.eventRateLimiter srv))
    as (Hrm & Hml & Hel).
  { subst srv' r. unfold Session.on_disconnect. cbv zeta.
    change (Socket.roomManager
              (Socket.set_eventRateLimiter
                 (Socket.set_messageRateLimiter (Session.server st)
                    (RateLimiter.remove socket_id
                       (Socket.messageRateLimiter (Session.server st))))
                 _)) with rm.
    by destruct (RoomManager.handleDisconnect cfg socket_id rm)
      as [[[roomId u]|] rm']. }
  split; [|split; [|split]].
  - intros k. rewrite Hml, Hel. unfold RateLimiter.remove. simpl.
    rewrite !lookup_delete. split; by repeat case_decide.
  - by rewrite Hrm.
  - rewrite Hrm. intros roomId (e & He & _)%in_sync_member_iff; [|done].
    congruence.
  - subst r. unfold Session.on_disconnect. cbv zeta.
    change (Socket.roomManager
              (Socket.set_eventRateLimiter
                 (Socket.set_messageRateLimiter (Session.server st)
                    (RateLimiter.remove socket_id
                       (Socket.messageRateLimiter (Session.server st))))
                 _)) with rm.
    rewrite handleDisconnect_unfold.
    destruct (RoomManager.userSockets rm !! socket_id) as [e|] eqn:He;
      [|done].
    cbv zeta.
    pose proof (leaveRoom_entry cfg _ _ _ Hagree He) as Hfst.
    pose proof (leaveRoom_count cfg _ _ _ (proj1 Hsync _ _ He)) as Hcount.
    destruct (RoomManager.leaveRoom cfg (SocketEntry.roomId e) socket_id rm)
      as [[u|] rm']; [|done].
    cbn [fst snd] in *. injection Hfst as ->. simpl. by rewrite Hcount.
Qed.

Lemma disconnect_purges_socket_witness :
  let st := session_with chat_state in
  let h := {| Session.x_forwarded_for := None;
              Session.address := Some (lit "10.0.0.7") |} in
  let r := Session.on_disconnect default_config (sock 1) h 9 (lit "x") st in
  RoomManager.userSockets (Socket.roomManager (Session.server r.1))
    !! sock 1 = None
  ∧ (∀ roomId,
       ¬ member (Socket.roomManager (Session.server r.1)) roomId (sock 1))
  ∧ r.2 = [Session.Emit (Socket.ToRoom (lit "1000"))
             (Socket.ChatMessage
                (Socket.createSystemMessage 9 (lit "x") (lit "1000")
                   (lit "Eve disconnected")));
           Session.EmitUserLeft (Socket.ToRoom (lit "1000"))
             (Some (lit "user_socket-1")) (Some (lit "Eve")) 1].
Proof.
  assert (RoomManager.reach default_config chat_calls
          = Some (Socket.roomManager
                    (Session.server (session_with chat_state)))) as Hreach
    by (vm_compute; reflexivity).
  pose proof (disconnect_purges_socket default_config chat_calls (sock 1)
                {| Session.x_forwarded_for := None;
                   Session.address := Some (lit "10.0.0.7") |}
                9 (lit "x") (session_with chat_state) Hreach) as H.
  cbv zeta in H. destruct H as (_ & H1 & H2 & H3).
  split; [exact H1|]. split; [exact H2|].
  rewrite H3. vm_compute. reflexivity.
Defined.

(** ** The size of a sanitized message *)

Lemma escape_char_length c : (List.length (escape_char c) <= 6)%nat.
Proof.
  unfold escape_char. repeat case_match; simpl; lia.
Qed.

Lemma escape_html_length s :
  (List.length (Socket.escape_html s) <= 6 * List.length s)%nat.
Proof.
  rewrite escape_html_flat_map.
  induction s as [|c s IH]; simpl; [lia|].
  rewrite length_app. pose proof (escape_char_length c). lia.
Qed.

Lemma escape_html_length_ge s :
  (List.length s <= List.length (Socket.escape_html s))%nat.
Proof.
  rewrite escape_html_flat_map.
  induction s as [|c s IH]; simpl; [lia|].
  rewrite length_app.
  assert (1 <= List.length (escape_char c))%nat; [|lia].
  unfold escape_char. repeat case_match; simpl; lia.
Qed.

(** X19.  The content that [validateMessage] accepts is limited to
    [MAX_LENGTH] before the entities are put in: the sanitized form that
    is stored and broadcast can be up to six times as long as the limit,
    and never longer; it is never longer than six times the input
    either. *)
Theorem sanitized_message_length
    (cfg : Config) (content : value) (out : jsstring) :
  Socket.sanitized (Socket.validateMessage cfg content) = Some out →
  JS.length out <= 6 * MESSAGE_MAX_LENGTH cfg
  ∧ ∃ s, content = VString s
         ∧ JS.length out <= 6 * JS.length (trim s)
         ∧ JS.length (remove_class Socket.is_stripped (trim s))
           <= JS.length out.
Proof.
  destruct content as [| | | |s|]; try done.
  rewrite validateMessage_string. case_decide; [done|].
  destruct (_ <? _); [done|].
  destruct (Z.gtb_spec (JS.length (trim s)) (MESSAGE_MAX_LENGTH cfg))
    as [|Hmax]; [done|].
  simpl. intros [= <-].
  pose proof (escape_html_length (remove_class Socket.is_stripped (trim s)))
    as Hle.
  pose proof (escape_html_length_ge
                (remove_class Socket.is_stripped (trim s))) as Hge.
  pose proof (List.filter_length_le (λ c, negb (Socket.is_stripped c))
                (trim s)) as Hf.
  unfold JS.length, remove_class in *.
  split; [lia|]. exists s. split; [done|]. lia.
Qed.

Lemma sanitized_message_length_witness :
  let content := VString (repeat Socket.quot 1000) in
  let out := flat_map (λ _, lit "&quot;") (seq 0 1000) in
  JS.length out = 6000
  ∧ JS.length out <= 6 * MESSAGE_MAX_LENGTH default_config
  ∧ ∃ s, content = VString s
         ∧ JS.length out <= 6 * JS.length (trim s)
         ∧ JS.length (remove_class Socket.is_stripped (trim s))
           <= JS.length out.
Proof.
  split; [vm_compute; reflexivity|].
  apply (sanitized_message_length default_config
           (VString (repeat Socket.quot 1000))).
  vm_compute. reflexivity.
Defined.

(** ** Renaming in a state that has been reached *)

(** X20.  In every state that the room manager reaches (by any of its
    calls, [addMessage] included) [updateUserName] returns [null] and
    changes nothing exactly when the new name is not a string that
    sanitizes to a non-empty name or the connection has no reverse entry
    (the two inner [return null] are never taken).  Otherwise it returns
    the participant with the id of the entry and the sanitized name, and
    stores that name in the reverse entry and in the room of the entry;
    ids, memberships, other participants, histories and timers stay as
    they are. *)
Theorem updateUserName_renames_in_place
    (cfg : Config) (calls : list RoomManager.method_call)
    (s : RoomManager.t) (socketId : jsstring) (newName : value) :
  RoomManager.reach cfg calls = Some s →
  let r := RoomManager.updateUserName socketId newName s in
  match RoomManager.sanitizeUserName newName,
        RoomManager.userSockets s !! socketId with
  | Some (c :: n), Some e =>
      let u := {| UserInfo.id := SocketEntry.id e;
                  UserInfo.name := c :: n |} in
      r.1 = Some u
      ∧ RoomManager.userSockets r.2
        = <[socketId := entry_of (SocketEntry.roomId e) u]>
            (RoomManager.userSockets s)
      ∧ (∃ room,
           RoomManager.rooms s !! SocketEntry.roomId e = Some room
           ∧ is_Some (Room.users room !! socketId)
           ∧ RoomManager.rooms r.2
             = <[SocketEntry.roomId e :=
                   Room.set_users room (<[socketId := u]> (Room.users room))]>
                 (RoomManager.rooms s))
      ∧ RoomManager.cleanupTimers r.2 = RoomManager.cleanupTimers s
  | _, _ => r = (None, s)
  end.
Proof.
  intros Hreach r. subst r.
  pose proof (reach_agree cfg calls s Hreach) as Hagree.
  unfold RoomManager.updateUserName.
  destruct (RoomManager.sanitizeUserName newName) as [[|c n]|]; [done| |done].
  change (negb (truthy (VString (c :: n)))) with false. cbv iota.
  destruct (RoomManager.userSockets s !! socketId) as [e|] eqn:He; [|done].
  destruct (Hagree _ _ He) as (room & Er & Eu). rewrite Er, Eu.
  cbv zeta. simpl. split; [done|]. split; [done|]. split; [|done].
  exists room. by rewrite Eu.
Qed.

Lemma updateUserName_renames_in_place_witness :
  let s := chat_state in
  let renamed := RoomManager.updateUserName (sock 0) (VString (lit " Zed "))
                   s in
  let silent := RoomManager.updateUserName (sock 7) (VString (lit " Zed "))
                  s in
  let u := {| UserInfo.id := lit "user_socket-0";
              UserInfo.name := lit "Zed" |} in
  (renamed.1 = Some u
   ∧ RoomManager.userSockets renamed.2
     = <[sock 0 := entry_of (lit "1000") u]> (RoomManager.userSockets s)
   ∧ (∃ room,
        RoomManager.rooms s !! lit "1000" = Some room
        ∧ is_Some (Room.users room !! sock 0)
        ∧ RoomManager.rooms renamed.2
          = <[lit "1000" :=
                Room.set_users room (<[sock 0 := u]> (Room.users room))]>
              (RoomManager.rooms s))
   ∧ RoomManager.cleanupTimers renamed.2 = RoomManager.cleanupTimers s)
  ∧ silent = (None, s).
Proof.
  assert (RoomManager.reach default_config chat_calls = Some chat_state)
    as Hreach by (vm_compute; reflexivity).
  assert (RoomManager.sanitizeUserName (VString (lit " Zed "))
          = Some (lit "Zed")) as Hname by (vm_compute; reflexivity).
  assert (RoomManager.userSockets chat_state !! sock 0
          = Some {| SocketEntry.roomId := lit "1000";
                    SocketEntry.id := lit "user_socket-0";
                    SocketEntry.name := lit "Ada" |}) as Hentry
    by (vm_compute; reflexivity).
  assert (RoomManager.userSockets chat_state !! sock 7 = None) as Hnone
    by (vm_compute; reflexivity).
  pose proof (updateUserName_renames_in_place default_config chat_calls
                chat_state (sock 0) (VString (lit " Zed ")) Hreach) as H.
  pose proof (updateUserName_renames_in_place default_config chat_calls
                chat_state (sock 7) (VString (lit " Zed ")) Hreach) as H'.
  cbv zeta in H, H'. rewrite Hname, Hentry in H. rewrite Hname, Hnone in H'.
  split; [exact H|exact H'].
Defined.

(** ** What send-message leaves alone *)

(** Two rooms that differ at most in their histories. *)
Definition same_but_history (a b : Room.t) : Prop :=
  Room.id b = Room.id a ∧ Room.users b = Room.users a
  ∧ Room.createdAt b = Room.createdAt a.

Section SendMessageFrame.
Context (cfg : Config).

Lemma addMessage_frame fuel roomId message s s' :
  RoomManager.addMessage cfg fuel roomId message s = Some s' →
  RoomManager.userSockets s' = RoomManager.userSockets s
  ∧ RoomManager.cleanupTimers s' = RoomManager.cleanupTimers s
  ∧ ∀ r, option_Forall2
           (λ a b, same_but_history a b
                   ∧ (Room.messages a ≠ Room.messages b → r = roomId))
           (RoomManager.rooms s !! r) (RoomManager.rooms s' !! r).
Proof.
  assert (∀ r o, option_Forall2
                   (λ a b : Room.t, same_but_history a b
                      ∧ (Room.messages a ≠ Room.messages b → r = roomId))
                   o o) as Hrefl.
  { intros r [a|]; constructor. by split. }
  unfold RoomManager.addMessage.
  destruct (RoomManager.rooms s !! roomId) as [room|] eqn:E.
  - destruct (RoomManager.shift_while _ _ _) as [messages|]; [|done].
    simpl. intros [= <-]. simpl. split; [done|]. split; [done|].
    intros r. destruct (decide (r = roomId)) as [->|Hne].
    + rewrite lookup_insert_eq, E. constructor. by split.
    + rewrite lookup_insert_ne by done. apply Hrefl.
  - intros [= <-]. split; [done|]. split; [done|]. intros r. apply Hrefl.
Qed.

End SendMessageFrame.

(** X21.  Whatever the request is, send-message leaves the reverse index,
    the pending timers and the event limiter as they are, adds and
    removes no room, and changes no room's id, participants or creation
    time; the history of a room changes only if the sender's reverse
    entry names that room. *)
Theorem send_message_keeps_membership
    (cfg : Config) (fuel : nat) (socket_id : jsstring) (now : Z)
    (suffix : jsstring) (data : value) (has_callback : bool)
    (srv srv' : Socket.Server) (effects : list Socket.effect) :
  Socket.on_send_message cfg fuel socket_id now suffix data has_callback srv
  = Some (srv', effects) →
  let rm := Socket.roomManager srv in
  let rm' := Socket.roomManager srv' in
  RoomManager.userSockets rm' = RoomManager.userSockets rm
  ∧ RoomManager.cleanupTimers rm' = RoomManager.cleanupTimers rm
  ∧ Socket.eventRateLimiter srv' = Socket.eventRateLimiter srv
  ∧ ∀ r, option_Forall2
           (λ a b, same_but_history a b
                   ∧ (Room.messages a ≠ Room.messages b →
                      ∃ e, RoomManager.userSockets rm !! socket_id = Some e
                           ∧ SocketEntry.roomId e = r))
           (RoomManager.rooms rm !! r) (RoomManager.rooms rm' !! r).
Proof.
  assert (∀ (P : Prop) o,
            option_Forall2
              (λ a b : Room.t, same_but_history a b
                 ∧ (Room.messages a ≠ Room.messages b → P)) o o) as Hrefl.
  { intros P [a|]; constructor. by split. }
  unfold Socket.on_send_message, Socket.send_message_body.
  destruct (_ || _); simpl.
  { intros [= <- <-]. repeat split; first [done|intros r; by apply Hrefl]. }
  destruct (Socket.valid_roomId _) as [roomId|]; simpl.
  2: { intros [= <- <-]. repeat split; first [done|intros r; by apply Hrefl]. }
  destruct (RateLimiter.check now socket_id (Socket.messageRateLimiter srv))
    as [rateCheck rl].
  destruct (RateLimiter.allowed rateCheck); simpl.
  2: { intros [= <- <-]. repeat split; first [done|intros r; by apply Hrefl]. }
  unfold RoomManager.getUserInfo. simpl.
  destruct (RoomManager.userSockets (Socket.roomManager srv) !! socket_id)
    as [e|] eqn:He; simpl.
  2: { intros [= <- <-]. repeat split; first [done|intros r; by apply Hrefl]. }
  case_bool_decide as Hroom; simpl.
  { intros [= <- <-]. repeat split; first [done|intros r; by apply Hrefl]. }
  destruct (Socket.valid _); simpl.
  2: { intros [= <- <-]. repeat split; first [done|intros r; by apply Hrefl]. }
  destruct (RoomManager.addMessage _ _ _ _ _) as [rm1|] eqn:Ea; [|done].
  simpl. intros [= <- <-]. simpl.
  destruct (addMessage_frame cfg _ _ _ _ _ Ea) as (Hu & Ht & Hr).
  split; [done|]. split; [done|]. split; [done|]. intros r.
  specialize (Hr r). simpl in Hr.
  destruct Hr as [a b [Hsame Hm]|]; constructor.
  split; [done|]. intros Hne. exists e. split; [done|].
  rewrite Hroom. symmetry. by apply Hm.
Qed.

Lemma send_message_keeps_membership_witness :
  let srv := server_of default_config 1 in
  let r := Socket.on_send_message default_config 1 (sock 0) 5
             (lit "k3j9x0q1z") (send_request "1000" "hello") true srv in
  ∃ srv' effects,
    r = Some (srv', effects)
    ∧ RoomManager.userSockets (Socket.roomManager srv')
      = RoomManager.userSockets (Socket.roomManager srv)
    ∧ RoomManager.cleanupTimers (Socket.roomManager srv')
      = RoomManager.cleanupTimers (Socket.roomManager srv)
    ∧ Socket.eventRateLimiter srv' = Socket.eventRateLimiter srv.
Proof.
  destruct (Socket.on_send_message default_config 1 (sock 0) 5
              (lit "k3j9x0q1z") (send_request "1000" "hello") true
              (server_of default_config 1)) as [[srv' effects]|] eqn:E.
  - exists srv', effects. split; [done|].
    destruct (send_message_keeps_membership default_config 1 (sock 0) 5
                (lit "k3j9x0q1z") (send_request "1000" "hello") true
                (server_of default_config 1) srv' effects E)
      as (H1 & H2 & H3 & _).
    by repeat split.
  - vm_compute in E. discriminate E.
Defined.

(** ** The totals of [getStats] *)

Section StatsTotals.

(** The number of reverse entries is the number of memberships. *)
Lemma entries_count (R : gmap jsstring Room.t) :
  ∀ U : gmap jsstring SocketEntry.t,
  (∀ k e, U !! k = Some e →
     ∃ room, R !! SocketEntry.roomId e = Some room
             ∧ is_Some (Room.users room !! k)) →
  (∀ k r room, R !! r = Some room → is_Some (Room.users room !! k) →
     ∃ e, U !! k = Some e ∧ SocketEntry.roomId e = r) →
  size U = sum_list_with (λ p, size (Room.users p.2)) (map_to_list R).
Proof.
  induction R as [|r0 room R Hfresh IH] using map_ind; intros U HA HB.
  - rewrite map_to_list_empty. simpl. apply map_size_empty_iff.
    apply map_empty. intros k.
    destruct (U !! k) as [e|] eqn:E; [|done].
    destruct (HA _ _ E) as (room & Hroom & _). by rewrite lookup_empty in Hroom.
  - rewrite (sum_list_with_Permutation_proper _ _ _
               (map_to_list_insert R r0 room Hfresh)). simpl.
    set (P := λ p : jsstring * SocketEntry.t, SocketEntry.roomId p.2 = r0).
    rewrite <- (map_filter_union_complement P U).
    rewrite map_size_disj_union by apply map_disjoint_filter_complement.
    f_equal.
    + rewrite <- !size_dom. f_equal. apply set_eq. intros k.
      rewrite !elem_of_dom. split.
      * intros [e [He Hr]%map_lookup_filter_Some]. unfold P in Hr.
        simpl in Hr. destruct (HA _ _ He) as (room' & Hroom & Hk).
        rewrite Hr, lookup_insert_eq in Hroom. by injection Hroom as <-.
      * intros Hk. destruct (HB k r0 room (lookup_insert_eq _ _ _) Hk)
          as (e & He & Hr).
        exists e. by apply map_lookup_filter_Some.
    + apply IH.
      * intros k e [He Hr]%map_lookup_filter_Some. unfold P in Hr.
        simpl in Hr. destruct (HA _ _ He) as (room' & Hroom & Hk).
        rewrite lookup_insert_ne in Hroom by done. by exists room'.
      * intros k r room' Hroom Hk.
        assert (r ≠ r0) as Hne by (intros ->; congruence).
        destruct (HB k r room') as (e & He & Hr); [|done|].
        { by rewrite lookup_insert_ne. }
        exists e. split; [|done]. apply map_lookup_filter_Some.
        split; [done|]. unfold P. simpl. congruence.
Qed.

Lemma sum_userCount (l : list Room.t) :
  foldr (λ r acc, RoomStats.userCount r + acc) 0 (RoomStats.of_room <$> l)
  = Z.of_nat (sum_list_with (λ room, size (Room.users room)) l).
Proof.
  induction l as [|room l IH]; [done|].
  rewrite fmap_cons. cbn [foldr]. rewrite IH. simpl. lia.
Qed.

Lemma sum_list_with_snd {A B} (f : B → nat) (l : list (A * B)) :
  sum_list_with f l.*2 = sum_list_with (λ p, f p.2) l.
Proof.
  induction l as [|[a b] l IH]; simpl; [done|]. f_equal. exact IH.
Qed.

(** Along the pairs of a map, the lookups of the keys are the values. *)
Lemma omap_lookup_pairs {V} (m : gmap jsstring V)
    (l : list (jsstring * V)) :
  (∀ k v, (k, v) ∈ l → m !! k = Some v) →
  omap (λ k, m !! k) l.*1 = l.*2.
Proof.
  induction l as [|[k v] l IH]; intros Hl; [done|]. simpl.
  rewrite (Hl k v) by left. simpl. f_equal. apply IH.
  intros k' v' Hin. apply Hl. by right.
Qed.

(** In whatever order the map is run through, [values] is the list of its
    values up to the order. *)
Lemma values_permutation keys s :
  RoomStats.iterates keys s →
  RoomStats.values keys s ≡ₚ (map_to_list (RoomManager.rooms s)).*2.
Proof.
  intros [Hnodup Hkeys]. unfold RoomStats.values.
  rewrite <- (omap_lookup_pairs (RoomManager.rooms s)
                (map_to_list (RoomManager.rooms s)))
    by (intros k v; apply elem_of_map_to_list).
  apply omap_Permutation, NoDup_Permutation;
    [done|apply NoDup_fst_map_to_list|].
  intros k. rewrite Hkeys, elem_of_keys. done.
Qed.

End StatsTotals.

(** X22.  In every state that the room manager reaches (by any of its
    calls, [addMessage] included), and in whatever order the [rooms] map
    is run through, the totals that [getStats] reports agree with its list
    of rooms: [totalRooms] is the number of rooms listed, and
    [totalUsers], the size of the reverse index, is the sum of the
    [userCount] of the rooms. *)
Theorem stats_totals_agree
    (cfg : Config) (calls : list RoomManager.method_call)
    (s : RoomManager.t) (keys : list jsstring) :
  RoomManager.reach cfg calls = Some s →
  RoomStats.iterates keys s →
  let stats := RoomStats.getStats keys s in
  RoomStats.totalRooms stats
  = Z.of_nat (List.length (RoomStats.rooms stats))
  ∧ RoomStats.totalUsers stats
    = foldr (λ r acc, RoomStats.userCount r + acc) 0 (RoomStats.rooms stats).
Proof.
  intros Hreach Hkeys stats. subst stats. unfold RoomStats.getStats. simpl.
  pose proof (values_permutation keys s Hkeys) as Hperm. split.
  - rewrite length_fmap, Hperm. by rewrite length_fmap, length_map_to_list.
  - rewrite sum_userCount.
    rewrite (sum_list_with_Permutation_proper _ _ _ Hperm).
    rewrite sum_list_with_snd. f_equal.
    destruct (reach_in_sync cfg calls s Hreach) as [HA HB].
    apply entries_count.
    + intros k e He. apply (HA _ _ He).
    + intros k r room Hroom Hk. apply HB. by exists room.
Qed.

(** The room "1000" was emptied by a move into "5500", which was created
    after it and has two members and a message. *)
Definition moved_calls : list RoomManager.method_call :=
  [RoomManager.Operation (RoomManager.CreateRoom 0 (λ _, 0));
   RoomManager.Operation (RoomManager.CreateRoom 1 (λ _, 2 ^ 52));
   RoomManager.Operation
     (RoomManager.JoinRoom (lit "1000") (sock 0) VNull 0);
   RoomManager.Operation
     (RoomManager.JoinRoom (lit "5500") (sock 0) VNull 0);
   RoomManager.Operation
     (RoomManager.JoinRoom (lit "5500") (sock 1) VNull 0);
   RoomManager.AddMessage 1 (lit "5500") (text_message 1 "hello")].

Definition moved_state : RoomManager.t :=
  default RoomManager.new
    (RoomManager.reach (with_cleanup_delay 5000) moved_calls).

Lemma stats_totals_agree_witness :
  let stats := RoomStats.getStats [lit "1000"; lit "5500"] moved_state in
  RoomStats.iterates [lit "1000"; lit "5500"] moved_state
  ∧ RoomStats.totalRooms stats
    = Z.of_nat (List.length (RoomStats.rooms stats))
  ∧ RoomStats.totalUsers stats
    = foldr (λ r acc, RoomStats.userCount r + acc) 0 (RoomStats.rooms stats).
Proof.
  assert (RoomStats.iterates [lit "1000"; lit "5500"] moved_state) as Hkeys.
  { split.
    - apply (bool_decide_unpack _). vm_compute. reflexivity.
    - intros k. rewrite <- elem_of_keys.
      assert ((map_to_list (RoomManager.rooms moved_state)).*1
              = [lit "5500"; lit "1000"]) as -> by (vm_compute; reflexivity).
      set_solver. }
  split; [exact Hkeys|].
  apply (stats_totals_agree (with_cleanup_delay 5000) moved_calls
           moved_state [lit "1000"; lit "5500"]).
  - vm_compute. reflexivity.
  - exact Hkeys.
Defined.

(** The statistics of that state, in the order of creation. *)
Example stats_after_moves :
  let stats := RoomStats.getStats [lit "1000"; lit "5500"] moved_state in
  RoomStats.totalRooms stats = 2 ∧ RoomStats.totalUsers stats = 2
  ∧ RoomStats.pendingCleanups stats = 1
  ∧ RoomStats.userCount <$> RoomStats.rooms stats = [0; 2]
  ∧ RoomStats.messageCount <$> RoomStats.rooms stats = [0; 1].
Proof. repeat split; vm_compute; reflexivity. Qed.

(** ** The room that update-username names *)

Section RenameTarget.
Import RoomManager.

(** The manager after the two assignments of [updateUserName]. *)
Definition with_name (socketId : jsstring) (e : SocketEntry.t)
    (room : Room.t) (n : jsstring) (s : RoomManager.t) : RoomManager.t :=
  set_userSockets
    (set_rooms s
       (<[SocketEntry.roomId e :=
            Room.set_users room
              (<[socketId := {| UserInfo.id := SocketEntry.id e;
                                UserInfo.name := n |}]> (Room.users room))]>
          (rooms s)))
    (<[socketId := {| SocketEntry.roomId := SocketEntry.roomId e;
                      SocketEntry.id := SocketEntry.id e;
                      SocketEntry.name := n |}]> (userSockets s)).

Lemma updateUserName_agree s socketId newName c n e :
  entries_agree s →
  sanitizeUserName newName = Some (c :: n) →
  userSockets s !! socketId = Some e →
  ∃ room, rooms s !! SocketEntry.roomId e = Some room
    ∧ updateUserName socketId newName s
      = (Some {| UserInfo.id := SocketEntry.id e; UserInfo.name := c :: n |},
         with_name socketId e room (c :: n) s).
Proof.
  intros Hagree Hn He. destruct (Hagree _ _ He) as (room & Er & Eu).
  exists room. split; [done|].
  unfold updateUserName. rewrite Hn.
  change (negb (truthy (VString (c :: n)))) with false. cbv iota.
  by rewrite He, Er, Eu.
Qed.

Lemma sanitizeUserName_nonempty s n :
  sanitizeUserName (VString s) = Some n → s ≠ [].
Proof. by intros H ->. Qed.

End RenameTarget.

(** What update-username emits on success before it calls the callback,
    for the room [code] named in the request. *)
Definition rename_notices (now : Z) (suffix code : jsstring)
    (e : SocketEntry.t) (n : jsstring) : list Socket.effect :=
  [Socket.Emit Socket.ToSocket (Socket.Identity (SocketEntry.id e) n)]
  ++ (if decide (SocketEntry.name e = n) then []
      else [Socket.Emit (Socket.ToRoom code)
              (Socket.ChatMessage
                 (Socket.createSystemMessage now suffix code
                    (SocketEntry.name e ++ lit " is now " ++ n)))])
  ++ [Socket.Emit (Socket.ToRoom code)
        (Socket.UserRenamed (SocketEntry.id e) (Some (SocketEntry.name e))
           n)].

(** How a handler ends after the effects [effects]: with the callback, or,
    when the request came without an acknowledgement function, with the
    log of the [TypeError], which leaves the handler. *)
Definition ends_with (has_callback : bool) (prefix : jsstring)
    (effects : list Socket.effect) (a : Socket.ack)
  : result unit * list Socket.effect :=
  if has_callback then (Ok tt, effects ++ [Socket.Callback a])
  else (Throw Socket.err_not_a_function,
        effects ++ [Socket.ConsoleError prefix Socket.err_not_a_function]).

(** X23.  update-username does not compare the room named in the request
    with the room of the socket.  With the room manager in a state that
    it has reached (by any of its calls, [addMessage] included), a
    well-formed request of a socket that is in some room renames the
    participant in the room of the socket's reverse entry, while the
    system message and the user-renamed notice go to the room named in
    the request; when the two differ, the named room is not changed at
    all. *)
Theorem update_username_notifies_named_room
    (cfg : Config) (calls : list RoomManager.method_call)
    (socket_id : jsstring) (now : Z) (suffix : jsstring) (data : value)
    (has_callback : bool)
    (srv : Socket.Server) (code newName : jsstring) (c : N) (n : jsstring)
    (e : SocketEntry.t) :
  RoomManager.reach cfg calls = Some (Socket.roomManager srv) →
  truthy data = true →
  typeof data = "object"%string →
  get "roomId" data = VString code →
  test_4digits code = true →
  get "newName" data = VString newName →
  RoomManager.sanitizeUserName
    (VString (substring0 USERNAME_MAX_LENGTH (trim newName)))
  = Some (c :: n) →
  RoomManager.userSockets (Socket.roomManager srv) !! socket_id = Some e →
  let rm := Socket.roomManager srv in
  let r := Socket.on_update_username socket_id now suffix data has_callback
             srv in
  ∃ room,
    RoomManager.rooms rm !! SocketEntry.roomId e = Some room
    ∧ r.1.2 = Socket.set_roomManager srv
                (with_name socket_id e room (c :: n) rm)
    ∧ (r.1.1, r.2)
      = ends_with has_callback (lit "[Socket] Error updating username:")
          (rename_notices now suffix code e (c :: n))
          {| Socket.success := true; Socket.error := None;
             Socket.roomId := None; Socket.name := Some (c :: n) |}
    ∧ (code ≠ SocketEntry.roomId e →
       RoomManager.rooms (Socket.roomManager r.1.2) !! code
       = RoomManager.rooms rm !! code).
Proof.
  intros Hreach Htruthy Htypeof Hroom Htest Hname Hsan He rm r.
  pose proof (reach_agree cfg calls _ Hreach) as Hagree.
  fold rm in Hagree, He.
  destruct (updateUserName_agree rm socket_id _ c n e Hagree Hsan He)
    as (room & Er & Hupd).
  exists room. split; [done|].
  pose proof (sanitizeUserName_nonempty _ _ Hsan) as Hne.
  assert (newName ≠ []) as Hne' by (by intros ->).
  assert (r = Socket.try_catch_rethrow
                (Socket.answer has_callback
                   (Socket.set_roomManager srv
                      (with_name socket_id e room (c :: n) rm))
                   (rename_notices now suffix code e (c :: n))
                   {| Socket.success := true; Socket.error := None;
                      Socket.roomId := None; Socket.name := Some (c :: n) |})
                (Socket.update_username_catch has_callback)) as Hr.
  { subst r. unfold Socket.on_update_username, Socket.update_username_body.
    rewrite Htruthy, Htypeof, Hroom, Hname. simpl orb. cbv iota.
    unfold Socket.valid_roomId. rewrite Htest. cbv zeta.
    assert (truthy (VString newName) = true) as ->
      by (by destruct newName).
    simpl negb. cbv iota.
    assert (JS.length (substring0 USERNAME_MAX_LENGTH (trim newName))
            <? USERNAME_MIN_LENGTH = false) as ->.
    { apply Z.ltb_ge. unfold JS.length, USERNAME_MIN_LENGTH.
      destruct (substring0 USERNAME_MAX_LENGTH (trim newName)); [done|].
      simpl. lia. }
    fold rm. rewrite Hupd. unfold RoomManager.getUserInfo. rewrite He.
    cbv zeta. rewrite (test_4digits_truthy _ Htest).
    f_equal. unfold rename_notices. simpl. f_equal. f_equal.
    case_bool_decide as Hd; case_decide as Hd'; try done.
    - destruct Hd. by rewrite Hd'.
    - destruct Hd'. by injection Hd. }
  rewrite Hr. unfold Socket.try_catch_rethrow, Socket.answer,
    Socket.update_username_catch, Socket.log_and_answer, ends_with.
  destruct has_callback; simpl.
  - split; [done|]. split; [done|]. intros Hcode.
    by rewrite lookup_insert_ne.
  - split; [done|]. split; [done|]. intros Hcode.
    by rewrite lookup_insert_ne.
Qed.

Lemma update_username_notifies_named_room_witness :
  let srv := Socket.set_roomManager (Socket.init default_config)
               chat_state in
  let rm := Socket.roomManager srv in
  let e := {| SocketEntry.roomId := lit "1000";
              SocketEntry.id := lit "user_socket-1";
              SocketEntry.name := lit "Eve" |} in
  let r := Socket.on_update_username (sock 1) 5 (lit "x")
             (rename_request "2222" "Bob") true srv in
  ∃ room,
    RoomManager.rooms rm !! lit "1000" = Some room
    ∧ r.1.2 = Socket.set_roomManager srv
                (with_name (sock 1) e room (lit "Bob") rm)
    ∧ (r.1.1, r.2)
      = ends_with true (lit "[Socket] Error updating username:")
          (rename_notices 5 (lit "x") (lit "2222") e (lit "Bob"))
          {| Socket.success := true; Socket.error := None;
             Socket.roomId := None; Socket.name := Some (lit "Bob") |}
    ∧ (lit "2222" ≠ lit "1000" →
       RoomManager.rooms (Socket.roomManager r.1.2) !! lit "2222"
       = RoomManager.rooms rm !! lit "2222").
Proof.
  apply (update_username_notifies_named_room default_config chat_calls
           (sock 1) 5 (lit "x") (rename_request "2222" "Bob") true
           (Socket.set_roomManager (Socket.init default_config) chat_state)
           (lit "2222") (lit "Bob") 66%N (lit "ob")
           {| SocketEntry.roomId := lit "1000";
              SocketEntry.id := lit "user_socket-1";
              SocketEntry.name := lit "Eve" |}).
  - vm_compute. reflexivity.
  - reflexivity.
  - reflexivity.
  - reflexivity.
  - reflexivity.
  - reflexivity.
  - vm_compute. reflexivity.
  - vm_compute. reflexivity.
Defined.

(** ** Joining a second room *)

Section MoveBetweenRooms.
Import RoomManager.
Context (cfg : Config).

(** [joinRoom] by a connection whose reverse entry names another room. *)
Lemma joinRoom_from_other_room roomId socketId preferredName bits s e room :
  in_sync s →
  userSockets s !! socketId = Some e →
  SocketEntry.roomId e ≠ roomId →
  rooms s !! roomId = Some room →
  room_full cfg room = false →
  let u := new_user socketId preferredName bits in
  let r := joinRoom cfg roomId socketId preferredName bits s in
  r.1 = Ok u
  ∧ getRoomUserCount roomId r.2 = Room.userCount room + 1
  ∧ getRoomUserCount (SocketEntry.roomId e) r.2
    = getRoomUserCount (SocketEntry.roomId e) s - 1
  ∧ member r.2 roomId socketId.
Proof.
  intros Hsync He Hne Er Hfull u r. subst r u.
  assert (Room.users room !! socketId = None) as Eu.
  { destruct (Room.users room !! socketId) as [u0|] eqn:Eu; [|done].
    destruct (proj2 Hsync socketId roomId) as (e' & He' & Hr').
    - exists room. by rewrite Eu.
    - congruence. }
  rewrite joinRoom_unfold, Er, Hfull, Eu. cbv zeta. cbn [fst snd].
  set (u := new_user socketId preferredName bits).
  split; [done|].
  assert (member (added roomId socketId room u (entry_of roomId u)
                    (before_join cfg roomId socketId s)) roomId socketId)
    as Hm.
  { unfold member, added. simpl. rewrite lookup_insert_eq.
    eexists. split; [done|]. simpl. by rewrite lookup_insert_eq. }
  split; [|split; [|exact Hm]].
  - unfold getRoomUserCount, added. simpl. rewrite lookup_insert_eq.
    unfold Room.userCount. simpl. rewrite map_size_insert_None by done. lia.
  - assert (getRoomUserCount (SocketEntry.roomId e)
              (added roomId socketId room u (entry_of roomId u)
                 (before_join cfg roomId socketId s))
            = getRoomUserCount (SocketEntry.roomId e)
                (before_join cfg roomId socketId s)) as ->.
    { unfold getRoomUserCount, added. simpl.
      by rewrite lookup_insert_ne. }
    unfold before_join. cbv zeta.
    destruct (cancelRoomCleanup_rooms roomId s) as [Hr Hu].
    rewrite Hu, He. rewrite bool_decide_eq_true_2 by done.
    rewrite leaveRoom_count.
    + unfold getRoomUserCount. by rewrite Hr.
    + apply (member_ext s _ Hr). by apply (proj1 Hsync).
Qed.

End MoveBetweenRooms.

(** X24.  A socket that is in one room and successfully joins another is
    taken out of the first room by [joinRoom], whose count goes down by
    one; the join-room handler announces the arrival in the new room with
    a count one higher than before, and emits nothing to the first room:
    no system message, no user-left notice, and the socket is not taken
    out of its transport room.  (The room manager is in a state that it
    has reached by any of its calls, [addMessage] included.) *)
Theorem join_room_moves_without_notice
    (cfg : Config) (calls : list RoomManager.method_call)
    (socket_id : jsstring) (now : Z) (suffix : jsstring) (bits : Z)
    (data : value) (has_callback : bool) (srv : Socket.Server)
    (code : jsstring)
    (preferredName : value) (e : SocketEntry.t) (room : Room.t) :
  RoomManager.reach cfg calls = Some (Socket.roomManager srv) →
  join_request data code preferredName →
  test_4digits code = true →
  RateLimiter.allowed
    (RateLimiter.check now socket_id (Socket.eventRateLimiter srv)).1
  = true →
  RoomManager.userSockets (Socket.roomManager srv) !! socket_id = Some e →
  SocketEntry.roomId e ≠ code →
  RoomManager.rooms (Socket.roomManager srv) !! code = Some room →
  room_full cfg room = false →
  let rm := Socket.roomManager srv in
  let u := new_user socket_id preferredName bits in
  let userCount := Room.userCount room + 1 in
  let r := Socket.on_join_room cfg socket_id now suffix bits data
             has_callback srv in
  (r.1.1, r.2)
  = ends_with has_callback (lit "[Socket] Error joining room:")
      [Socket.SocketJoin code;
       Socket.Emit Socket.ToSocket
         (Socket.Identity (UserInfo.id u) (UserInfo.name u));
       Socket.Emit Socket.ToSocket (Socket.RoomInfo code userCount);
       Socket.Emit (Socket.ToOthers code)
         (Socket.ChatMessage
            (Socket.createSystemMessage now suffix code
               (UserInfo.name u ++ lit " joined the room")));
       Socket.Emit (Socket.ToOthers code)
         (Socket.UserJoined (UserInfo.id u) (UserInfo.name u) userCount)]
      Socket.ack_ok
  ∧ RoomManager.getRoomUserCount (SocketEntry.roomId e)
      (Socket.roomManager r.1.2)
    = RoomManager.getRoomUserCount (SocketEntry.roomId e) rm - 1
  ∧ ¬ member (Socket.roomManager r.1.2) (SocketEntry.roomId e) socket_id.
Proof.
  intros Hreach Hreq Htest Hallowed He Hne Er Hfull rm u userCount r.
  pose proof (reach_in_sync cfg calls _ Hreach) as Hsync.
  pose proof (step_in_sync cfg _ (RoomManager.JoinRoom code socket_id
                                    preferredName bits) Hsync) as Hsync'.
  cbn [RoomManager.step] in Hsync'. fold rm in Hsync, Hsync', He, Er.
  destruct (joinRoom_from_other_room cfg code socket_id preferredName bits
              rm e room Hsync He Hne Er Hfull) as (Hok & Hnew & Hold & Hm).
  assert (RoomManager.roomExists code rm = true) as Hexists.
  { apply bool_decide_eq_true_2. rewrite Er. by eexists. }
  assert (r = Socket.try_catch_rethrow
                (Socket.answer has_callback
                   (Socket.set_roomManager
                      (Socket.set_eventRateLimiter srv
                         (RateLimiter.check now socket_id
                            (Socket.eventRateLimiter srv)).2)
                      (RoomManager.joinRoom cfg code socket_id preferredName
                         bits rm).2)
                   [Socket.SocketJoin code;
                    Socket.Emit Socket.ToSocket
                      (Socket.Identity (UserInfo.id u) (UserInfo.name u));
                    Socket.Emit Socket.ToSocket
                      (Socket.RoomInfo code userCount);
                    Socket.Emit (Socket.ToOthers code)
                      (Socket.ChatMessage
                         (Socket.createSystemMessage now suffix code
                            (UserInfo.name u ++ lit " joined the room")));
                    Socket.Emit (Socket.ToOthers code)
                      (Socket.UserJoined (UserInfo.id u) (UserInfo.name u)
                         userCount)]
                   Socket.ack_ok)
                (Socket.join_room_catch has_callback)) as Hr.
  { subst r rm. unfold Socket.on_join_room, Socket.join_room_body.
    destruct (RateLimiter.check now socket_id (Socket.eventRateLimiter srv))
      as [rateCheck rl]. cbn [fst snd] in *. rewrite Hallowed.
    simpl negb. cbv iota.
    destruct (RoomManager.joinRoom cfg code socket_id preferredName bits
                (Socket.roomManager srv)) as [res rm'] eqn:Ej.
    cbn [fst snd] in *. subst res.
    destruct Hreq as [[-> ->]|(Htruthy & Htypeof & Hroom & Hpref)].
    - simpl. rewrite Htest, Hexists. simpl. rewrite Ej.
      cbv zeta. by rewrite Hnew.
    - rewrite Htruthy, Htypeof, Hroom, Hpref. simpl.
      rewrite Htest, Hexists. simpl. rewrite Ej.
      cbv zeta. by rewrite Hnew. }
  rewrite Hr. unfold Socket.try_catch_rethrow, Socket.answer,
    Socket.join_room_catch, Socket.log_and_answer, ends_with.
  assert (¬ member (RoomManager.joinRoom cfg code socket_id preferredName
                      bits rm).2 (SocketEntry.roomId e) socket_id) as Hnot.
  { intros Hm'.
    destruct (proj2 Hsync' _ _ Hm) as (e1 & He1 & Hr1).
    destruct (proj2 Hsync' _ _ Hm') as (e2 & He2 & Hr2). congruence. }
  destruct has_callback; simpl; done.
Qed.

Lemma join_room_moves_without_notice_witness :
  let srv := Socket.set_roomManager (Socket.init default_config)
               two_rooms_state in
  let room := {| Room.id := lit "5500"; Room.users := ∅;
                 Room.createdAt := 1; Room.messages := [] |} in
  let u := new_user (sock 1) VNull 0 in
  let userCount := Room.userCount room + 1 in
  let r := Socket.on_join_room default_config (sock 1) 5 (lit "x") 0
             (VString (lit "5500")) true srv in
  (r.1.1, r.2)
  = ends_with true (lit "[Socket] Error joining room:")
      [Socket.SocketJoin (lit "5500");
       Socket.Emit Socket.ToSocket
         (Socket.Identity (UserInfo.id u) (UserInfo.name u));
       Socket.Emit Socket.ToSocket (Socket.RoomInfo (lit "5500") userCount);
       Socket.Emit (Socket.ToOthers (lit "5500"))
         (Socket.ChatMessage
            (Socket.createSystemMessage 5 (lit "x") (lit "5500")
               (UserInfo.name u ++ lit " joined the room")));
       Socket.Emit (Socket.ToOthers (lit "5500"))
         (Socket.UserJoined (UserInfo.id u) (UserInfo.name u) userCount)]
      Socket.ack_ok
  ∧ RoomManager.getRoomUserCount (lit "1000") (Socket.roomManager r.1.2)
    = RoomManager.getRoomUserCount (lit "1000") (Socket.roomManager srv) - 1
  ∧ ¬ member (Socket.roomManager r.1.2) (lit "1000") (sock 1).
Proof.
  apply (join_room_moves_without_notice default_config two_rooms_calls
           (sock 1) 5 (lit "x") 0 (VString (lit "5500")) true
           (Socket.set_roomManager (Socket.init default_config)
              two_rooms_state)
           (lit "5500") VNull
           {| SocketEntry.roomId := lit "1000";
              SocketEntry.id := lit "user_socket-1";
              SocketEntry.name := lit "Bob" |}
           {| Room.id := lit "5500"; Room.users := ∅;
              Room.createdAt := 1; Room.messages := [] |}).
  - vm_compute. reflexivity.
  - left. split; reflexivity.
  - reflexivity.
  - vm_compute. reflexivity.
  - vm_compute. reflexivity.
  - vm_compute. discriminate.
  - vm_compute. reflexivity.
  - vm_compute. reflexivity.
Defined.
